(** * LabLens backend: the orchestration pipeline of [backend/mock_backend.py]

    A shallow embedding of the normalizer, the dedupe and merge functions,
    the model chains and the batch orchestrator, with the properties of the
    specification stated over them.

    Conventions of the embedding.
    - A Python [str] is a [string]; one [ascii] stands for one code point
      below 256, so [strip] and [lower] follow Python on Latin-1 text.
    - A value produced by [json.loads] is a [json]; a Python float is
      carried by what the program can observe of it ([str] and [int]).
    - The remote model call is an oracle answering each call from the calls
      made so far; every call is appended to a log, so that "is invoked"
      and "is not invoked" are statements about the log.
    - [print] statements write to the process log only and are left out. *)

From Stdlib Require Import ZArith Strings.String Strings.Ascii NArith DecimalString Lia.
From stdpp Require Import base gmap strings list fin_maps.

Set Warnings "-register-all".

Local Open Scope string_scope.
Local Open Scope Z_scope.
Local Open Scope list_scope.

(* ===================================================================== *)
(** ** Python strings *)
(* ===================================================================== *)

(** [str.isspace] on one code point below 256: TAB..CR, FS..US, space,
    NEL (0x85) and NBSP (0xa0). *)
Definition is_space (a : ascii) : bool :=
  let n := N_of_ascii a in
  (((9 <=? n) && (n <=? 13)) || ((28 <=? n) && (n <=? 32))
   || (n =? 133) || (n =? 160))%N.

Fixpoint lstrip (s : string) : string :=
  match s with
  | EmptyString => EmptyString
  | String a s' => if is_space a then lstrip s' else s
  end.

Fixpoint rstrip (s : string) : string :=
  match s with
  | EmptyString => EmptyString
  | String a s' =>
      match rstrip s' with
      | EmptyString => if is_space a then EmptyString else String a EmptyString
      | r => String a r
      end
  end.

(** [s.strip()] *)
Definition strip (s : string) : string := rstrip (lstrip s).

(** [str.lower] on one code point below 256: A..Z and the Latin-1 capitals
    0xC0..0xDE (the multiplication sign 0xD7 apart) move up by 32. *)
Definition lower_char (a : ascii) : ascii :=
  let n := N_of_ascii a in
  if (((65 <=? n) && (n <=? 90))
      || ((192 <=? n) && (n <=? 222) && negb (n =? 215)))%N
  then ascii_of_N (n + 32) else a.

Fixpoint lower (s : string) : string :=
  match s with
  | EmptyString => EmptyString
  | String a s' => String (lower_char a) (lower s')
  end.

(** Truth value of a [str]: non-empty. *)
Definition str_truthy (s : string) : bool :=
  match s with EmptyString => false | String _ _ => true end.

(** [x or default] on strings. *)
Definition str_or (s default : string) : string :=
  if str_truthy s then s else default.

(** [sep.join(parts)] *)
Definition join (sep : string) (parts : list string) : string :=
  String.concat sep parts.

(** [needle in haystack] on strings. *)
Fixpoint contains (needle haystack : string) : bool :=
  String.prefix needle haystack
  || match haystack with
     | EmptyString => false
     | String _ h' => contains needle h'
     end.

(** [s.startswith(p)] *)
Definition startswith (p s : string) : bool := String.prefix p s.

(** [s[:n]] *)
Definition str_take (n : nat) (s : string) : string := String.substring 0 n s.

(** [str(n)] on an [int]. *)
Definition str_of_Z (z : Z) : string := NilZero.string_of_int (Z.to_int z).

Definition str_of_nat (n : nat) : string := str_of_Z (Z.of_nat n).

(* ===================================================================== *)
(** ** JSON values as [json.loads] builds them *)
(* ===================================================================== *)

(** A Python float, through the two conversions the program applies to
    one: [str(x)] and [int(x)] ([None]: [inf] and [nan] raise). *)
Record pyfloat := { float_repr : string; float_trunc : option Z }.

Inductive json :=
| JNull
| JBool (b : bool)
| JInt (z : Z)
| JFloat (f : pyfloat)
| JStr (s : string)
| JList (l : list json)
| JDict (d : list (string * json)).

(** A [dict] with [str] keys, in insertion order; keys are unique in a
    dict built by [json.loads], and the first binding is the one read. *)
Definition dict := list (string * json).

Fixpoint dict_get (d : dict) (k : string) : option json :=
  match d with
  | [] => None
  | (k', v) :: d' => if bool_decide (k' = k) then Some v else dict_get d' k
  end.

(** [d.get(k, dflt)] *)
Definition dict_get_or (d : dict) (k : string) (dflt : json) : json :=
  match dict_get d k with Some v => v | None => dflt end.

(** [d.get(k)], [None] when the key is missing. *)
Definition dict_get_none (d : dict) (k : string) : json :=
  dict_get_or d k JNull.

(** *** [repr] and [str] *)

Definition hex_digit (n : N) : ascii :=
  ascii_of_N (if (n <? 10)%N then 48 + n else 87 + n).

(** One character of [repr(s)] for the chosen quote. *)
Definition repr_char (quote : ascii) (a : ascii) : string :=
  let n := N_of_ascii a in
  let bs := ascii_of_N 92 in
  if bool_decide (a = quote) || (n =? 92)%N then String bs (String a EmptyString)
  else if (n =? 9)%N then String bs "t"
  else if (n =? 10)%N then String bs "n"
  else if (n =? 13)%N then String bs "r"
  else if ((n <? 32) || ((127 <=? n) && (n <=? 160)) || (n =? 173))%N
       then String bs (String "x" (String (hex_digit (n / 16))
                                     (String (hex_digit (n mod 16)) EmptyString)))
  else String a EmptyString.

Fixpoint repr_chars (quote : ascii) (s : string) : string :=
  match s with
  | EmptyString => EmptyString
  | String a s' => repr_char quote a +:+ repr_chars quote s'
  end.

Definition single_quote : ascii := ascii_of_N 39.
Definition double_quote : ascii := ascii_of_N 34.

(** [repr(s)] on a [str]: single quotes, unless the text holds a single
    quote and no double quote. *)
Definition repr_str (s : string) : string :=
  let quote :=
    if contains (String single_quote EmptyString) s && negb (contains (String double_quote EmptyString) s)
    then double_quote else single_quote in
  String quote (repr_chars quote s) +:+ String quote EmptyString.

Fixpoint py_repr (j : json) : string :=
  match j with
  | JNull => "None"
  | JBool true => "True"
  | JBool false => "False"
  | JInt z => str_of_Z z
  | JFloat f => float_repr f
  | JStr s => repr_str s
  | JList l => "[" +:+ join ", " (map py_repr l) +:+ "]"
  | JDict d =>
      "{" +:+ join ", " (map (fun kv => match kv with
                                        | (k, v) => repr_str k +:+ ": " +:+ py_repr v
                                        end) d) +:+ "}"
  end.

(** [str(x)] *)
Definition py_str (j : json) : string :=
  match j with
  | JStr s => s
  | _ => py_repr j
  end.

(** Truth value of a JSON value ([x or ...], [if x]). *)
Definition py_truthy (j : json) : bool :=
  match j with
  | JNull => false
  | JBool b => b
  | JInt z => negb (z =? 0)
  | JFloat f => negb (bool_decide (float_repr f = "0.0") || bool_decide (float_repr f = "-0.0"))
  | JStr s => str_truthy s
  | JList l => match l with [] => false | _ => true end
  | JDict d => match d with [] => false | _ => true end
  end.

(** [x or dflt] *)
Definition py_or (j dflt : json) : json := if py_truthy j then j else dflt.

(** *** [int(x)] *)

Definition is_digit (a : ascii) : bool :=
  let n := N_of_ascii a in ((48 <=? n) && (n <=? 57))%N.

(** Decimal digits with single underscores between them; the count of
    digits is returned with the value. *)
Fixpoint int_digits (s : string) (after_digit : bool) (acc : Z) (count : nat)
  : option (Z * nat) :=
  match s with
  | EmptyString => if after_digit then Some (acc, count) else None
  | String a s' =>
      if is_digit a
      then int_digits s' true (acc * 10 + (Z.of_N (N_of_ascii a) - 48)) (S count)
      else if bool_decide (a = "_"%char) && after_digit
           then int_digits s' false acc count
           else None
  end.

(** The whitespace [int()] skips around a number, on one code point below
    256: TAB..CR and space, and NEL (0x85) and NBSP (0xa0), which CPython
    turns into spaces first.  FS..US (0x1c..0x1f) are whitespace for
    [str.strip] and not for [int()], which raises on a number padded with
    one of them. *)
Definition is_int_space (a : ascii) : bool :=
  let n := N_of_ascii a in
  (((9 <=? n) && (n <=? 13)) || (n =? 32) || (n =? 133) || (n =? 160))%N.

Fixpoint lstrip_int (s : string) : string :=
  match s with
  | EmptyString => EmptyString
  | String a s' => if is_int_space a then lstrip_int s' else s
  end.

Fixpoint rstrip_int (s : string) : string :=
  match s with
  | EmptyString => EmptyString
  | String a s' =>
      match rstrip_int s' with
      | EmptyString => if is_int_space a then EmptyString else String a EmptyString
      | r => String a r
      end
  end.

(** [int(s)] on a [str], base 10: surrounding whitespace (the set of
    [int()], above), an optional sign, digits; more than 4300 digits raise
    (CPython's default limit). *)
Definition int_of_str (s : string) : option Z :=
  let t := rstrip_int (lstrip_int s) in
  let '(neg, body) :=
    match t with
    | String "-" r => (true, r)
    | String "+" r => (false, r)
    | _ => (false, t)
    end in
  match int_digits body false 0 0 with
  | Some (v, count) =>
      if (4300 <? count)%nat then None else Some (if neg then - v else v)
  | None => None
  end.

(** [int(x)]; [None] stands for the exception it raises. *)
Definition py_int (j : json) : option Z :=
  match j with
  | JBool b => Some (if b then 1 else 0)
  | JInt z => Some z
  | JFloat f => float_trunc f
  | JStr s => int_of_str s
  | _ => None
  end.

(* ===================================================================== *)
(** ** The canonical result *)
(* ===================================================================== *)

(** The dictionaries the normalizer builds have fixed keys and [str]
    values; they are records here.  Every dictionary that reaches
    [_dedupe_normalized_output], [_merge_normalized_outputs] or
    [_is_suspiciously_incomplete] was built by [_normalize_ai_output], so
    the [isinstance] guards and the [.get] defaults of those three
    functions never fire and [str(x)] is applied to strings only. *)
Record Biomarker := {
  bm_name : string;
  bm_value : string;
  bm_status : string;
  bm_explanation : string
}.

Record Recommendation := {
  rc_name : string;
  rc_protocol : string;
  rc_reason : string
}.

Record ExtractionResult := {
  biomarkers : list Biomarker;
  recommendations : list Recommendation;
  summary : string;
  disclaimer : string
}.

(** [existing["explanation"] = v] and [existing["status"] = v] *)
Definition set_explanation (b : Biomarker) (v : string) : Biomarker :=
  {| bm_name := bm_name b; bm_value := bm_value b;
     bm_status := bm_status b; bm_explanation := v |}.

Definition set_status (b : Biomarker) (v : string) : Biomarker :=
  {| bm_name := bm_name b; bm_value := bm_value b;
     bm_status := v; bm_explanation := bm_explanation b |}.

(** The normalized result read back as the JSON object it is. *)
Definition biomarker_to_json (b : Biomarker) : json :=
  JDict [("name", JStr (bm_name b)); ("value", JStr (bm_value b));
         ("status", JStr (bm_status b)); ("explanation", JStr (bm_explanation b))].

Definition recommendation_to_json (r : Recommendation) : json :=
  JDict [("name", JStr (rc_name r)); ("protocol", JStr (rc_protocol r));
         ("reason", JStr (rc_reason r))].

Definition result_to_dict (r : ExtractionResult) : dict :=
  [("biomarkers", JList (map biomarker_to_json (biomarkers r)));
   ("recommendations", JList (map recommendation_to_json (recommendations r)));
   ("summary", JStr (summary r));
   ("disclaimer", JStr (disclaimer r))].

Definition DEFAULT_DISCLAIMER : string :=
  "DISCLAIMER: This is not medical advice. Consult a healthcare provider before use.".

(** A function that returns a value or raises [Exception(msg)]. *)
Inductive Exc (A : Type) :=
| Return (a : A)
| RaiseError (msg : string).
Arguments Return {A} a.
Arguments RaiseError {A} msg.

(* ===================================================================== *)
(** ** [_dedupe_normalized_output] *)
(* ===================================================================== *)

(** The key of a biomarker in [seen_biomarkers]. *)
Definition biomarker_key (item : Biomarker) : string * string :=
  (lower (strip (bm_name item)), lower (strip (bm_value item))).

(** The key of a recommendation in [seen_recos]. *)
Definition recommendation_key (item : Recommendation) : string * string :=
  (lower (strip (rc_name item)), lower (strip (rc_protocol item))).

(** The body of the [if key in seen_biomarkers:] branch: [existing] is
    updated from the later duplicate [item]. *)
Definition merge_duplicate (item existing : Biomarker) : Biomarker :=
  let existing1 :=
    if (String.length (bm_explanation existing) <? String.length (bm_explanation item))%nat
    then set_explanation existing (bm_explanation item)
    else existing in
  if bool_decide (lower (strip (bm_status existing1)) = "unknown")
     && str_truthy (strip (bm_status item))
  then set_status existing1 (bm_status item)
  else existing1.

(** The first loop.  [seen_biomarkers] maps a key to the clone stored for
    it; that clone is the very object appended to [deduped_biomarkers], so
    the map holds its position in the list and an update of [existing] is
    an update of the list at that position. *)
Fixpoint dedupe_biomarkers_loop (items : list Biomarker)
    (seen_biomarkers : gmap (string * string) nat)
    (deduped_biomarkers : list Biomarker) : list Biomarker :=
  match items with
  | [] => deduped_biomarkers
  | item :: rest =>
      let key := biomarker_key item in
      match seen_biomarkers !! key with
      | Some pos =>
          dedupe_biomarkers_loop rest seen_biomarkers
            (alter (merge_duplicate item) pos deduped_biomarkers)
      | None =>
          dedupe_biomarkers_loop rest
            (<[key := length deduped_biomarkers]> seen_biomarkers)
            (deduped_biomarkers ++ [item])
      end
  end.

(** The loop that keeps the first item of each key, with the keys met so
    far in a [set()].  The source writes it three times: for the
    recommendations here, and for the biomarkers and the recommendations
    in [_merge_normalized_outputs]. *)
Fixpoint keep_unseen_loop {A K : Type} `{Countable K} (key : A → K)
    (items : list A) (seen : gset K) (kept : list A) : list A :=
  match items with
  | [] => kept
  | item :: rest =>
      if bool_decide (key item ∈ seen)
      then keep_unseen_loop key rest seen kept
      else keep_unseen_loop key rest ({[key item]} ∪ seen) (kept ++ [item])
  end.

Definition _dedupe_normalized_output (normalized : ExtractionResult) : ExtractionResult :=
  {| biomarkers := dedupe_biomarkers_loop (biomarkers normalized) ∅ [];
     recommendations := keep_unseen_loop recommendation_key (recommendations normalized) ∅ [];
     summary := summary normalized;
     disclaimer := disclaimer normalized |}.

(* ===================================================================== *)
(** ** [_normalize_ai_output] *)
(* ===================================================================== *)

Definition normalize_biomarker (item : json) : option Biomarker :=
  match item with
  | JDict d =>
      Some {| bm_name := str_or (strip (py_str (dict_get_or d "name" (JStr EmptyString)))) "Unknown";
              bm_value := str_or (strip (py_str (dict_get_or d "value" (JStr EmptyString)))) "N/A";
              bm_status := str_or (strip (py_str (dict_get_or d "status" (JStr "Unknown")))) "Unknown";
              bm_explanation :=
                str_or (strip (py_str (dict_get_or d "explanation" (JStr EmptyString))))
                       "No explanation provided." |}
  | _ => None
  end.

Definition normalize_recommendation (item : json) : option Recommendation :=
  match item with
  | JDict d =>
      Some {| rc_name := str_or (strip (py_str (dict_get_or d "name" (JStr EmptyString)))) "Recommendation";
              rc_protocol :=
                str_or (strip (py_str (dict_get_or d "protocol"
                                         (dict_get_or d "protocolText" (JStr EmptyString)))))
                       "No protocol provided.";
              rc_reason := str_or (strip (py_str (dict_get_or d "reason" (JStr EmptyString))))
                                  "No reason provided." |}
  | _ => None
  end.

Definition _normalize_ai_output (result : dict) : Exc ExtractionResult :=
  let biomarkers := dict_get_none result "biomarkers" in
  let recommendations := dict_get_none result "recommendations" in
  let summary := dict_get_none result "summary" in
  let disclaimer := dict_get_none result "disclaimer" in
  match biomarkers, recommendations, summary with
  | JList biomarkers, JList recommendations, JStr summary =>
      Return (_dedupe_normalized_output
                {| biomarkers := omap normalize_biomarker biomarkers;
                   recommendations := omap normalize_recommendation recommendations;
                   summary := strip summary;
                   disclaimer := strip (py_str (py_or disclaimer (JStr DEFAULT_DISCLAIMER))) |})
  | _, _, _ => RaiseError "LLM output missing required fields"
  end.

(** "Schema-valid": the input the normalizer does not reject. *)
Definition schema_valid (result : dict) : Prop :=
  ∃ bs rs s, dict_get_none result "biomarkers" = JList bs
             ∧ dict_get_none result "recommendations" = JList rs
             ∧ dict_get_none result "summary" = JStr s.

(* ===================================================================== *)
(** ** [_merge_normalized_outputs] *)
(* ===================================================================== *)

Definition biomarker_merge_key (item : Biomarker) : string * string * string :=
  (lower (strip (bm_name item)), lower (strip (bm_value item)),
   lower (strip (bm_status item))).

(** [next((g(c) for c in cs if p(c)), dflt)] for the two scans. *)
Fixpoint first_nonblank (texts : list string) (dflt : string) : string :=
  match texts with
  | [] => dflt
  | t :: rest => if str_truthy (strip t) then strip t else first_nonblank rest dflt
  end.

(** The nested [for chunk in chunks: for item in chunk[...]] loops run
    over the items of all chunks in order. *)
Definition _merge_normalized_outputs (chunks : list ExtractionResult)
  : Exc ExtractionResult :=
  match chunks with
  | [] => RaiseError "No chunk outputs to merge"
  | _ =>
      let merged_biomarkers :=
        keep_unseen_loop biomarker_merge_key (concat (map biomarkers chunks)) ∅ [] in
      let merged_recommendations :=
        keep_unseen_loop recommendation_key (concat (map recommendations chunks)) ∅ [] in
      let last_summary := first_nonblank (map summary (rev chunks)) EmptyString in
      let summary :=
        "Analyzed report pages in order across " +:+ str_of_nat (length chunks)
        +:+ " batch(es)."
        +:+ (if str_truthy last_summary then " " +:+ last_summary else EmptyString) in
      let disclaimer := first_nonblank (map disclaimer chunks) DEFAULT_DISCLAIMER in
      Return (_dedupe_normalized_output
                {| biomarkers := merged_biomarkers;
                   recommendations := merged_recommendations;
                   summary := summary;
                   disclaimer := disclaimer |})
  end.

(* ===================================================================== *)
(** ** Module configuration *)
(* ===================================================================== *)

(** The environment variables the module reads at import, each with its
    default already applied ([os.getenv(name, default)]); the two sizes
    are the values [int(...)] returned. *)
Record Env := {
  env_OPENROUTER_API_KEY : string;
  env_OPENROUTER_PRIMARY_MODEL : string;
  env_OPENROUTER_FALLBACK_MODEL : string;
  env_OPENROUTER_FALLBACK_MODEL_2 : string;
  env_OPENROUTER_FALLBACK_MODEL_3 : string;
  env_OPENROUTER_PAGE_BATCH_SIZE : Z;
  env_OPENROUTER_MIN_BIOMARKERS_PER_IMAGE_HINT : Z;
  env_OPENROUTER_ENABLE_RECONCILIATION : string;
  env_AI_OCR_ONLY_MODE : string;
  env_AI_VISUAL_ONLY_MODE : string;
  env_AI_PROVIDER : string;
  env_QWEN_API_KEY : string;
  env_QWEN_PRIMARY_MODEL : string;
  env_QWEN_FALLBACK_MODEL : string;
  env_QWEN_FALLBACK_MODEL_2 : string;
  env_QWEN_FALLBACK_MODEL_3 : string
}.

(** What the remote call is asked: the model, the images with their page
    labels, and the prompt variant with the extraction it quotes.  The
    report text and the prompt text sent along are functions of the
    request and of these fields. *)
Inductive Prompt :=
| ExtractionPrompt
| ReconciliationPrompt (extracted : ExtractionResult)
| SynthesisPrompt (extracted : ExtractionResult).

Record Call := {
  call_model : string;
  call_images : list json;
  call_page_numbers : list nat;
  call_total_pages : nat;
  call_prompt : Prompt
}.

(** What [_call_openrouter_model] does: it returns the parsed object, or
    raises [urllib.error.HTTPError] (with its code and its body, [None]
    when the body cannot be read), or raises another exception. *)
Inductive CallOutcome :=
| Responds (raw : dict)
| RaisesHTTPError (code : Z) (body : option string)
| Raises (msg : string).

Definition extraction_call (images_subset : list json) (page_numbers : list nat)
    (total_pages : nat) (model : string) : Call :=
  {| call_model := model; call_images := images_subset;
     call_page_numbers := page_numbers; call_total_pages := total_pages;
     call_prompt := ExtractionPrompt |}.

Definition reconciliation_call (images_subset : list json) (page_numbers : list nat)
    (total_pages : nat) (extracted : ExtractionResult) (model : string) : Call :=
  {| call_model := model; call_images := images_subset;
     call_page_numbers := page_numbers; call_total_pages := total_pages;
     call_prompt := ReconciliationPrompt extracted |}.

(** [images_override=[], page_numbers=[], total_pages=0] *)
Definition synthesis_call (extracted : ExtractionResult) (model : string) : Call :=
  {| call_model := model; call_images := [];
     call_page_numbers := []; call_total_pages := 0;
     call_prompt := SynthesisPrompt extracted |}.

Definition CallLog := list Call.

(** The remote side: an answer for each call, given the calls before it. *)
Definition Oracle := CallLog → Call → CallOutcome.

(** Computations that call models and may raise. *)
Definition Run (A : Type) : Type := CallLog → Exc A * CallLog.

#[global] Instance Run_ret : MRet Run := λ A a log, (Return a, log).
#[global] Instance Run_bind : MBind Run := λ A B f m log,
  match m log with
  | (Return a, log') => f a log'
  | (RaiseError msg, log') => (RaiseError msg, log')
  end.

Definition raise {A} (msg : string) : Run A := λ log, (RaiseError msg, log).

Definition lift_exc {A} (e : Exc A) : Run A := λ log, (e, log).

(** [f"{page_numbers}"]: the [str] of a list of page numbers. *)
Definition str_of_pages (page_numbers : list nat) : string :=
  py_str (JList (map (λ p, JInt (Z.of_nat p)) page_numbers)).

(** [if meta:] on a [str | None]. *)
Definition meta_truthy (meta : option string) : bool :=
  match meta with Some s => str_truthy s | None => false end.

Definition meta_text (meta : option string) : string :=
  match meta with Some s => s | None => "None" end.

(** [range(start, stop, step)] for a positive step. *)
Fixpoint range_from (fuel start stop step : nat) : list nat :=
  match fuel with
  | O => []
  | S fuel' =>
      if (start <? stop)%nat then start :: range_from fuel' (start + step) stop step
      else []
  end.

Definition py_range (start stop step : nat) : list nat :=
  range_from stop start stop step.

(** [xs[start:stop]] *)
Definition slice {A} (xs : list A) (start stop : nat) : list A :=
  take (stop - start) (drop start xs).

Section Backend.

Variable env : Env.

Definition OPENROUTER_API_KEY : string := strip (env_OPENROUTER_API_KEY env).
Definition OPENROUTER_PRIMARY_MODEL : string := env_OPENROUTER_PRIMARY_MODEL env.
Definition OPENROUTER_FALLBACK_MODEL : string := env_OPENROUTER_FALLBACK_MODEL env.
Definition OPENROUTER_FALLBACK_MODEL_2 : string := env_OPENROUTER_FALLBACK_MODEL_2 env.
Definition OPENROUTER_FALLBACK_MODEL_3 : string := env_OPENROUTER_FALLBACK_MODEL_3 env.
Definition OPENROUTER_PAGE_BATCH_SIZE : Z := Z.max 1 (env_OPENROUTER_PAGE_BATCH_SIZE env).
Definition OPENROUTER_MIN_BIOMARKERS_PER_IMAGE_HINT : Z :=
  Z.max 1 (env_OPENROUTER_MIN_BIOMARKERS_PER_IMAGE_HINT env).
Definition OPENROUTER_ENABLE_RECONCILIATION : bool :=
  bool_decide (lower (env_OPENROUTER_ENABLE_RECONCILIATION env) = "true").
Definition AI_OCR_ONLY_MODE : bool :=
  bool_decide (lower (env_AI_OCR_ONLY_MODE env) = "true").
Definition AI_VISUAL_ONLY_MODE : bool :=
  bool_decide (lower (env_AI_VISUAL_ONLY_MODE env) = "true").
Definition AI_PROVIDER : string := lower (strip (env_AI_PROVIDER env)).
Definition QWEN_API_KEY : string := strip (env_QWEN_API_KEY env).
Definition QWEN_PRIMARY_MODEL : string := strip (env_QWEN_PRIMARY_MODEL env).
Definition QWEN_FALLBACK_MODEL : string := strip (env_QWEN_FALLBACK_MODEL env).
Definition QWEN_FALLBACK_MODEL_2 : string := strip (env_QWEN_FALLBACK_MODEL_2 env).
Definition QWEN_FALLBACK_MODEL_3 : string := strip (env_QWEN_FALLBACK_MODEL_3 env).

Definition is_qwen : bool := bool_decide (AI_PROVIDER = "qwen").

Definition _active_provider_api_key : string :=
  if is_qwen then QWEN_API_KEY else OPENROUTER_API_KEY.

Definition _active_provider_model_chain : list string :=
  let chain :=
    if is_qwen
    then [QWEN_PRIMARY_MODEL; QWEN_FALLBACK_MODEL; QWEN_FALLBACK_MODEL_2; QWEN_FALLBACK_MODEL_3]
    else [OPENROUTER_PRIMARY_MODEL; OPENROUTER_FALLBACK_MODEL;
          OPENROUTER_FALLBACK_MODEL_2; OPENROUTER_FALLBACK_MODEL_3] in
  filter (λ m, str_truthy (strip m) = true) chain.

(** The second loop of [_active_provider_model_chain_for_mode]. *)
Fixpoint append_missing (chain text_first : list string) : list string :=
  match chain with
  | [] => text_first
  | model :: rest =>
      if bool_decide (model ∈ text_first) then append_missing rest text_first
      else append_missing rest (text_first ++ [model])
  end.

Definition _active_provider_model_chain_for_mode : list string :=
  let chain := _active_provider_model_chain in
  if negb AI_OCR_ONLY_MODE then chain
  else
    let text_first :=
      filter (λ model,
                (contains "gemma" (lower model)
                 || (negb (contains "vl" (lower model))
                     && negb (contains "vision" (lower model)))) = true) chain in
    append_missing chain text_first.

(** The chain built at the head of [run_reconciliation_chain_for_images]. *)
Definition recon_models : list string :=
  let recon_models : list string := [] in
  let recon_models :=
    if str_truthy OPENROUTER_FALLBACK_MODEL
    then recon_models ++ [OPENROUTER_FALLBACK_MODEL] else recon_models in
  let recon_models :=
    if str_truthy OPENROUTER_FALLBACK_MODEL_2
       && negb (bool_decide (OPENROUTER_FALLBACK_MODEL_2 ∈ recon_models))
    then recon_models ++ [OPENROUTER_FALLBACK_MODEL_2] else recon_models in
  let recon_models :=
    if str_truthy OPENROUTER_PRIMARY_MODEL
       && negb (bool_decide (OPENROUTER_PRIMARY_MODEL ∈ recon_models))
    then recon_models ++ [OPENROUTER_PRIMARY_MODEL] else recon_models in
  filter (λ m, str_truthy m = true) recon_models.

Definition _is_suspiciously_incomplete (normalized : ExtractionResult)
    (image_count : nat) : bool :=
  let biomarkers := biomarkers normalized in
  if (2 <=? image_count)%nat
     && (Z.of_nat (length biomarkers)
         <? OPENROUTER_MIN_BIOMARKERS_PER_IMAGE_HINT * Z.of_nat image_count)
  then true else false.

(** *** Reading the OCR text of the request *)

Fixpoint extract_report_text_loop (payload : dict) (keys : list string) : string :=
  match keys with
  | [] => EmptyString
  | key :: rest =>
      match dict_get_none payload key with
      | JStr value =>
          if str_truthy (strip value) then strip value
          else extract_report_text_loop payload rest
      | _ => extract_report_text_loop payload rest
      end
  end.

Definition _extract_report_text (payload : dict) : string :=
  extract_report_text_loop payload ["reportText"; "report_text"; "ocrText"; "ocr_text"].

(** One entry of the per-page list: [None] where the loop [continue]s. *)
Definition page_entry (item : json) : option (Z * string) :=
  match item with
  | JDict d =>
      match py_int (dict_get_none d "page") with
      | Some page =>
          match dict_get_none d "text" with
          | JStr text =>
              if (page <=? 0) || negb (str_truthy (strip text)) then None
              else Some (page, strip text)
          | _ => None
          end
      | None => None
      end
  | _ => None
  end.

(** [pages.sort(key=...)]: a stable sort on the page number. *)
Fixpoint insert_page (x : Z * string) (sorted : list (Z * string)) : list (Z * string) :=
  match sorted with
  | [] => [x]
  | y :: rest => if (fst x <? fst y) then x :: sorted else y :: insert_page x rest
  end.

Definition sort_pages (pages : list (Z * string)) : list (Z * string) :=
  foldl (λ sorted x, insert_page x sorted) [] pages.

Fixpoint extract_report_text_by_page_loop (payload : dict) (keys : list string)
  : list (Z * string) :=
  match keys with
  | [] => []
  | key :: rest =>
      match dict_get_none payload key with
      | JList value =>
          match omap page_entry value with
          | [] => extract_report_text_by_page_loop payload rest
          | pages => sort_pages pages
          end
      | _ => extract_report_text_by_page_loop payload rest
      end
  end.

Definition _extract_report_text_by_page (payload : dict) : list (Z * string) :=
  extract_report_text_by_page_loop payload
    ["reportTextByPage"; "report_text_by_page"; "ocrTextByPage"; "ocr_text_by_page"].

(* ===================================================================== *)
(** ** [maybe_generate_with_openrouter] and its nested functions *)
(* ===================================================================== *)

Variable remote : Oracle.

(** The call is answered by the remote side and recorded. *)
Definition _call_openrouter_model (c : Call) : Run CallOutcome :=
  λ log, (Return (remote log c), log ++ [c]).

(** [f"{model}: HTTP {e.code} {body[:limit]}"] *)
Definition http_error_text (model : string) (code : Z) (body : option string)
    (limit : nat) : string :=
  let body := match body with Some b => b | None => "<unreadable>" end in
  model +:+ ": HTTP " +:+ str_of_Z code +:+ " " +:+ str_take limit body.

(** [f"{model}: {e}"] *)
Definition error_text (model msg : string) : string := model +:+ ": " +:+ msg.

Definition provider_label : string := if is_qwen then "Qwen" else "OpenRouter".

Definition model_chain : list string := _active_provider_model_chain_for_mode.

(** The [for model in ...] loop of [run_model_chain_for_images], for any
    list of models. *)
Fixpoint run_model_chain_loop (models : list string) (images_subset : list json)
    (page_numbers : list nat) (total_pages : nat) (errors_local : list string)
  : Run (option ExtractionResult * string) :=
  match models with
  | [] => mret (None, join " | " errors_local)
  | model :: rest =>
      outcome ← _call_openrouter_model
                  (extraction_call images_subset page_numbers total_pages model);
      match outcome with
      | Responds raw =>
          match _normalize_ai_output raw with
          | Return normalized => mret (Some normalized, model)
          | RaiseError msg =>
              run_model_chain_loop rest images_subset page_numbers total_pages
                (errors_local ++ [error_text model msg])
          end
      | RaisesHTTPError code body =>
          run_model_chain_loop rest images_subset page_numbers total_pages
            (errors_local ++ [http_error_text model code body 300])
      | Raises msg =>
          run_model_chain_loop rest images_subset page_numbers total_pages
            (errors_local ++ [error_text model msg])
      end
  end.

Definition run_model_chain_for_images (images_subset : list json)
    (page_numbers : list nat) (total_pages : nat)
  : Run (option ExtractionResult * string) :=
  run_model_chain_loop model_chain images_subset page_numbers total_pages [].

Fixpoint run_reconciliation_loop (models : list string) (images_subset : list json)
    (page_numbers : list nat) (total_pages : nat) (extracted : ExtractionResult)
    (errors_local : list string) : Run (ExtractionResult * option string) :=
  match models with
  | [] =>
      mret (extracted,
            match errors_local with
            | [] => None
            | _ => Some (join " | " errors_local)
            end)
  | model :: rest =>
      outcome ← _call_openrouter_model
                  (reconciliation_call images_subset page_numbers total_pages
                     extracted model);
      match outcome with
      | Responds raw =>
          match _normalize_ai_output raw with
          | Return normalized => mret (normalized, Some model)
          | RaiseError msg =>
              run_reconciliation_loop rest images_subset page_numbers total_pages
                extracted (errors_local ++ [error_text model msg])
          end
      | RaisesHTTPError code body =>
          run_reconciliation_loop rest images_subset page_numbers total_pages
            extracted (errors_local ++ [http_error_text model code body 300])
      | Raises msg =>
          run_reconciliation_loop rest images_subset page_numbers total_pages
            extracted (errors_local ++ [error_text model msg])
      end
  end.

Definition run_reconciliation_chain_for_images (images_subset : list json)
    (page_numbers : list nat) (total_pages : nat) (extracted : ExtractionResult)
  : Run (ExtractionResult * option string) :=
  if AI_VISUAL_ONLY_MODE || negb OPENROUTER_ENABLE_RECONCILIATION
  then mret (extracted, None)
  else run_reconciliation_loop recon_models images_subset page_numbers total_pages
         extracted [].

(** The three assignments of the synthesis pass. *)
Definition take_synthesis (extracted normalized : ExtractionResult) : ExtractionResult :=
  {| biomarkers := biomarkers extracted;
     recommendations := recommendations normalized;
     summary := summary normalized;
     disclaimer := disclaimer normalized |}.

Fixpoint run_synthesis_loop (models : list string) (extracted : ExtractionResult)
    (errors_local : list string) : Run (ExtractionResult * option string) :=
  match models with
  | [] =>
      mret (extracted,
            match errors_local with
            | [] => None
            | _ => Some (join " | " errors_local)
            end)
  | model :: rest =>
      outcome ← _call_openrouter_model (synthesis_call extracted model);
      match outcome with
      | Responds raw =>
          match _normalize_ai_output raw with
          | Return normalized =>
              mret (_dedupe_normalized_output (take_synthesis extracted normalized),
                    Some model)
          | RaiseError msg =>
              run_synthesis_loop rest extracted (errors_local ++ [error_text model msg])
          end
      | RaisesHTTPError code body =>
          run_synthesis_loop rest extracted
            (errors_local ++ [http_error_text model code body 220])
      | Raises msg =>
          run_synthesis_loop rest extracted (errors_local ++ [error_text model msg])
      end
  end.

Definition run_summary_recommendation_synthesis (extracted : ExtractionResult)
  : Run (ExtractionResult * option string) :=
  run_synthesis_loop _active_provider_model_chain_for_mode extracted [].

(** The three places where [run_with_completeness_retry] reconciles and
    returns: [base] is the trail so far. *)
Definition reconcile_and_return (images_subset : list json) (page_numbers : list nat)
    (total_pages : nat) (extracted : ExtractionResult) (base : string)
  : Run (option ExtractionResult * string) :=
  '(reconciled, recon_meta) ←
     run_reconciliation_chain_for_images images_subset page_numbers total_pages extracted;
  if meta_truthy recon_meta
  then mret (Some reconciled, base +:+ " | reconciliation:" +:+ meta_text recon_meta)
  else mret (Some reconciled, base).

(** The test that sends [run_with_completeness_retry] to the single-image
    retries. *)
Definition completeness_retry_triggered (normalized : ExtractionResult)
    (images_subset : list json) : bool :=
  negb ((length images_subset <=? 1)%nat
        || negb (_is_suspiciously_incomplete normalized (length images_subset))).

(** The [for i, img in enumerate(images_subset)] loop, from index [i] on,
    and the code after it. *)
Fixpoint completeness_retry_loop (remaining : list json) (i : nat)
    (images_subset : list json) (page_numbers : list nat) (total_pages : nat)
    (normalized : ExtractionResult) (model_or_error : string)
    (retry_chunks : list ExtractionResult) (retry_models : list string)
  : Run (option ExtractionResult * string) :=
  match remaining with
  | [] =>
      merged_retry ← lift_exc (_merge_normalized_outputs retry_chunks);
      reconcile_and_return images_subset page_numbers total_pages merged_retry
        (model_or_error +:+ " (completeness-retry via " +:+ join " -> " retry_models +:+ ")")
  | img :: rest =>
      match page_numbers !! i with
      | None => raise "list index out of range"
      | Some page =>
          '(single_normalized, single_model) ←
             run_model_chain_for_images [img] [page] total_pages;
          match single_normalized with
          | None =>
              reconcile_and_return images_subset page_numbers total_pages normalized
                model_or_error
          | Some single_normalized =>
              completeness_retry_loop rest (S i) images_subset page_numbers total_pages
                normalized model_or_error
                (retry_chunks ++ [single_normalized]) (retry_models ++ [single_model])
          end
      end
  end.

Definition run_with_completeness_retry (images_subset : list json)
    (page_numbers : list nat) (total_pages : nat)
  : Run (option ExtractionResult * string) :=
  '(normalized, model_or_error) ←
     run_model_chain_for_images images_subset page_numbers total_pages;
  match normalized with
  | None => mret (None, model_or_error)
  | Some normalized =>
      if negb (completeness_retry_triggered normalized images_subset)
      then reconcile_and_return images_subset page_numbers total_pages normalized
             model_or_error
      else completeness_retry_loop images_subset 0 images_subset page_numbers
             total_pages normalized model_or_error [] []
  end.

(** The end of both success paths: the synthesis pass and the trail. *)
Definition synthesize_and_return (extracted : ExtractionResult) (meta : string)
  : Run (option ExtractionResult * string) :=
  '(result, synth_meta) ← run_summary_recommendation_synthesis extracted;
  if meta_truthy synth_meta
  then mret (Some result, meta +:+ " | summary/reco:" +:+ meta_text synth_meta)
  else mret (Some result, meta).

(** The page numbers of the batch that starts at [start]. *)
Definition batch_stop (start total_pages : nat) : nat :=
  Nat.min (start + Z.to_nat OPENROUTER_PAGE_BATCH_SIZE) total_pages.

Definition batch_pages (start total_pages : nat) : list nat :=
  seq (start + 1) (batch_stop start total_pages - start).

(** The [for start in range(0, total_pages, OPENROUTER_PAGE_BATCH_SIZE)]
    loop and the code after it. *)
Fixpoint batch_loop (starts : list nat) (images : list json) (total_pages : nat)
    (chunk_results : list ExtractionResult) (model_hits : list string)
  : Run (option ExtractionResult * string) :=
  match starts with
  | [] =>
      merged ← lift_exc (_merge_normalized_outputs chunk_results);
      synthesize_and_return merged
        (provider_label +:+ " batch success (ordered pages) via "
         +:+ join " -> " model_hits)
  | start :: rest =>
      let subset := slice images start (batch_stop start total_pages) in
      let page_numbers := batch_pages start total_pages in
      '(normalized, model_or_error) ←
         run_with_completeness_retry subset page_numbers total_pages;
      match normalized with
      | None =>
          mret (None,
                provider_label +:+ " batch mode failed. "
                +:+ join " | " ["pages " +:+ str_of_pages page_numbers +:+ ": "
                                +:+ model_or_error])
      | Some normalized =>
          batch_loop rest images total_pages
            (chunk_results ++ [normalized]) (model_hits ++ [model_or_error])
      end
  end.

Definition maybe_generate_with_openrouter (payload : dict)
  : Run (option ExtractionResult * string) :=
  if negb (str_truthy _active_provider_api_key)
  then
    let missing_key_name := if is_qwen then "QWEN_API_KEY" else "OPENROUTER_API_KEY" in
    mret (None, provider_label +:+ " disabled (missing " +:+ missing_key_name +:+ ")")
  else
    let report_text := if AI_VISUAL_ONLY_MODE then EmptyString else _extract_report_text payload in
    let images :=
      match dict_get_or payload "images" (JList []) with
      | JList images => images
      | _ => []
      end in
    if AI_OCR_ONLY_MODE
       && negb (str_truthy (strip report_text)
                || match _extract_report_text_by_page payload with
                   | [] => false
                   | _ => true
                   end)
    then mret (None, provider_label +:+ " OCR-only mode enabled but no OCR text was provided")
    else if negb AI_OCR_ONLY_MODE
            && (OPENROUTER_PAGE_BATCH_SIZE <? Z.of_nat (length images))
    then
      let total_pages := length images in
      batch_loop (py_range 0 total_pages (Z.to_nat OPENROUTER_PAGE_BATCH_SIZE))
        images total_pages [] []
    else
      '(normalized, model_or_error) ←
         run_with_completeness_retry images (seq 1 (length images)) (length images);
      match normalized with
      | Some normalized =>
          synthesize_and_return normalized
            (provider_label +:+ " success via " +:+ model_or_error)
      | None => mret (None, provider_label +:+ " failed. " +:+ join " | " [model_or_error])
      end.

End Backend.

(* ===================================================================== *)
(** ** Sample configurations, requests and remote sides *)
(* ===================================================================== *)

(** The defaults of the module, with an API key set. *)
Definition default_env : Env := {|
  env_OPENROUTER_API_KEY := "sk-test";
  env_OPENROUTER_PRIMARY_MODEL := "nvidia/nemotron-nano-12b-v2-vl:free";
  env_OPENROUTER_FALLBACK_MODEL := "qwen/qwen3-vl-30b-a3b-thinking";
  env_OPENROUTER_FALLBACK_MODEL_2 := "qwen/qwen3-vl-235b-a22b-thinking";
  env_OPENROUTER_FALLBACK_MODEL_3 := "google/gemma-3-27b-it:free";
  env_OPENROUTER_PAGE_BATCH_SIZE := 2;
  env_OPENROUTER_MIN_BIOMARKERS_PER_IMAGE_HINT := 2;
  env_OPENROUTER_ENABLE_RECONCILIATION := "true";
  env_AI_OCR_ONLY_MODE := "false";
  env_AI_VISUAL_ONLY_MODE := "false";
  env_AI_PROVIDER := "openrouter";
  env_QWEN_API_KEY := EmptyString;
  env_QWEN_PRIMARY_MODEL := "qwen-vl-max-latest";
  env_QWEN_FALLBACK_MODEL := "qwen-vl-plus-latest";
  env_QWEN_FALLBACK_MODEL_2 := "qwen2.5-vl-72b-instruct";
  env_QWEN_FALLBACK_MODEL_3 := EmptyString
|}.

(** A model answer with one valid row. *)
Definition raw_ok (n : string) : dict :=
  [("biomarkers", JList [JDict [("name", JStr n); ("value", JStr "5"); ("status", JStr "High")]]);
   ("recommendations", JList []); ("summary", JStr "fine")].

(** A request of five page images, and (below) one of a single page. *)
Definition five_images : dict :=
  [("images", JList [JStr "p1"; JStr "p2"; JStr "p3"; JStr "p4"; JStr "p5"])].

(* ===================================================================== *)
(** ** Vocabulary of the statements *)
(* ===================================================================== *)

(** Keeping the first occurrence of every key, said directly: the head
    stays, and later items with its key are dropped. *)
Fixpoint keep_first_occurrences {A K : Type} `{EqDecision K} (key : A → K)
    (items : list A) : list A :=
  match items with
  | [] => []
  | item :: rest =>
      item :: filter (λ x, key x ≠ key item) (keep_first_occurrences key rest)
  end.

(** The entry one failed attempt adds to [errors_local]; [None] when the
    attempt succeeds, that is when the model answers and its answer passes
    [_normalize_ai_output]. *)
Definition attempt_error (limit : nat) (model : string) (outcome : CallOutcome)
  : option string :=
  match outcome with
  | Responds raw =>
      match _normalize_ai_output raw with
      | Return _ => None
      | RaiseError msg => Some (error_text model msg)
      end
  | RaisesHTTPError code body => Some (http_error_text model code body limit)
  | Raises msg => Some (error_text model msg)
  end.

(** The models of the list, tried one after the other from [log], all
    fail: the entries they leave, in order. *)
Fixpoint chain_failures (remote : Oracle) (mk : string → Call) (limit : nat)
    (log : CallLog) (models : list string) : option (list string) :=
  match models with
  | [] => Some []
  | model :: rest =>
      match attempt_error limit model (remote log (mk model)) with
      | Some e => (λ es, e :: es) <$> chain_failures remote mk limit (log ++ [mk model]) rest
      | None => None
      end
  end.

(** [" | ".join(errors_local) if errors_local else None] *)
Definition joined_errors (errs : list string) : option string :=
  match errs with
  | [] => None
  | _ => Some (join " | " errs)
  end.

(** "Unknown", compared the way the dedupe compares it. *)
Definition status_unknown (b : Biomarker) : Prop :=
  lower (strip (bm_status b)) = "unknown".

(** All four fields of a biomarker, all three of a recommendation, are
    non-empty. *)
Definition biomarker_filled (b : Biomarker) : Prop :=
  bm_name b ≠ EmptyString ∧ bm_value b ≠ EmptyString ∧ bm_status b ≠ EmptyString ∧ bm_explanation b ≠ EmptyString.

Definition recommendation_filled (r : Recommendation) : Prop :=
  rc_name r ≠ EmptyString ∧ rc_protocol r ≠ EmptyString ∧ rc_reason r ≠ EmptyString.

(** How the stored clone [e'] relates to an earlier state [e] of itself,
    and to a duplicate [x] merged into it. *)
Definition refines (e e' : Biomarker) : Prop :=
  biomarker_key e' = biomarker_key e
  ∧ (String.length (bm_explanation e) ≤ String.length (bm_explanation e'))%nat
  ∧ (status_unknown e' → status_unknown e).

Definition covers (x e : Biomarker) : Prop :=
  biomarker_key e = biomarker_key x
  ∧ (String.length (bm_explanation x) ≤ String.length (bm_explanation e))%nat
  ∧ (status_unknown e → status_unknown x ∨ strip (bm_status x) = EmptyString).

(** [seen_biomarkers] holds, for each key, the position of the one entry
    of [deduped_biomarkers] with that key. *)
Definition seen_inv (seen : gmap (string * string) nat) (deduped : list Biomarker) : Prop :=
  ∀ k i, seen !! k = Some i ↔ ∃ b, deduped !! i = Some b ∧ biomarker_key b = k.

(** A field as the normalizer leaves it: stripped and non-empty. *)
Definition canonical_text (s : string) : Prop := strip s = s ∧ s ≠ EmptyString.

Definition biomarker_canonical (b : Biomarker) : Prop :=
  canonical_text (bm_name b) ∧ canonical_text (bm_value b)
  ∧ canonical_text (bm_status b) ∧ canonical_text (bm_explanation b).

Definition recommendation_canonical (r : Recommendation) : Prop :=
  canonical_text (rc_name r) ∧ canonical_text (rc_protocol r)
  ∧ canonical_text (rc_reason r).

(** A model answer whose disclaimer is one space. *)
Definition raw_blank_disclaimer : dict :=
  [("biomarkers", JList []); ("recommendations", JList []);
   ("summary", JStr "All markers are in range."); ("disclaimer", JStr " ")].

(** A model answer whose summary is the empty string. *)
Definition raw_empty_summary : dict :=
  [("biomarkers", JList []); ("recommendations", JList []); ("summary", JStr EmptyString)].

(** A model answer with a duplicated row and a row that is not an object. *)
Definition raw_duplicates : dict :=
  [("biomarkers",
    JList [JDict [("name", JStr " Glucose "); ("value", JInt 5)];
           JNull;
           JDict [("name", JStr "glucose"); ("value", JStr "5");
                  ("status", JStr "High"); ("explanation", JStr "Fasting sample, above range.")]]);
   ("recommendations",
    JList [JDict [("name", JStr "Vitamin D3"); ("protocolText", JStr "2000 IU daily")];
           JDict [("name", JStr "vitamin d3"); ("protocol", JStr "2000 iu DAILY");
                  ("reason", JStr "Low level.")]]);
   ("summary", JStr " Partial extraction. ")].

(** Three models in a chain: primary [model-a], fallbacks [model-b] and
    [model-c]; batches of two pages, a floor of one biomarker per image. *)
Definition abc_env : Env := {|
  env_OPENROUTER_API_KEY := "sk-test";
  env_OPENROUTER_PRIMARY_MODEL := "model-a";
  env_OPENROUTER_FALLBACK_MODEL := "model-b";
  env_OPENROUTER_FALLBACK_MODEL_2 := "model-c";
  env_OPENROUTER_FALLBACK_MODEL_3 := EmptyString;
  env_OPENROUTER_PAGE_BATCH_SIZE := 2;
  env_OPENROUTER_MIN_BIOMARKERS_PER_IMAGE_HINT := 1;
  env_OPENROUTER_ENABLE_RECONCILIATION := "true";
  env_AI_OCR_ONLY_MODE := "false";
  env_AI_VISUAL_ONLY_MODE := "false";
  env_AI_PROVIDER := "openrouter";
  env_QWEN_API_KEY := EmptyString;
  env_QWEN_PRIMARY_MODEL := "qwen-vl-max-latest";
  env_QWEN_FALLBACK_MODEL := "qwen-vl-plus-latest";
  env_QWEN_FALLBACK_MODEL_2 := "qwen2.5-vl-72b-instruct";
  env_QWEN_FALLBACK_MODEL_3 := EmptyString
|}.

(** A remote side on which [model-a] is unavailable and every other model
    answers with one valid row. *)
Definition remote_a_fails : Oracle := λ _ c,
  if bool_decide (call_model c = "model-a")
  then RaisesHTTPError 503 (Some "upstream unavailable")
  else Responds (raw_ok "Glucose").

(** A remote side on which no model can be reached. *)
Definition remote_down : Oracle := λ _ _, Raises "timed out".

Definition one_image : dict := [("images", JList [JStr "p1"])].

(** The defaults of the module with the Qwen provider selected. *)
Definition qwen_env : Env := {|
  env_OPENROUTER_API_KEY := EmptyString;
  env_OPENROUTER_PRIMARY_MODEL := "nvidia/nemotron-nano-12b-v2-vl:free";
  env_OPENROUTER_FALLBACK_MODEL := "qwen/qwen3-vl-30b-a3b-thinking";
  env_OPENROUTER_FALLBACK_MODEL_2 := "qwen/qwen3-vl-235b-a22b-thinking";
  env_OPENROUTER_FALLBACK_MODEL_3 := "google/gemma-3-27b-it:free";
  env_OPENROUTER_PAGE_BATCH_SIZE := 2;
  env_OPENROUTER_MIN_BIOMARKERS_PER_IMAGE_HINT := 2;
  env_OPENROUTER_ENABLE_RECONCILIATION := "true";
  env_AI_OCR_ONLY_MODE := "false";
  env_AI_VISUAL_ONLY_MODE := "false";
  env_AI_PROVIDER := "qwen";
  env_QWEN_API_KEY := "sk-qwen";
  env_QWEN_PRIMARY_MODEL := "qwen-vl-max-latest";
  env_QWEN_FALLBACK_MODEL := "qwen-vl-plus-latest";
  env_QWEN_FALLBACK_MODEL_2 := "qwen2.5-vl-72b-instruct";
  env_QWEN_FALLBACK_MODEL_3 := EmptyString
|}.

(** The OpenRouter defaults with a first fallback model set to one space. *)
Definition blank_fallback_env : Env := {|
  env_OPENROUTER_API_KEY := "sk-test";
  env_OPENROUTER_PRIMARY_MODEL := "nvidia/nemotron-nano-12b-v2-vl:free";
  env_OPENROUTER_FALLBACK_MODEL := " ";
  env_OPENROUTER_FALLBACK_MODEL_2 := "qwen/qwen3-vl-235b-a22b-thinking";
  env_OPENROUTER_FALLBACK_MODEL_3 := EmptyString;
  env_OPENROUTER_PAGE_BATCH_SIZE := 2;
  env_OPENROUTER_MIN_BIOMARKERS_PER_IMAGE_HINT := 2;
  env_OPENROUTER_ENABLE_RECONCILIATION := "true";
  env_AI_OCR_ONLY_MODE := "false";
  env_AI_VISUAL_ONLY_MODE := "false";
  env_AI_PROVIDER := "openrouter";
  env_QWEN_API_KEY := EmptyString;
  env_QWEN_PRIMARY_MODEL := "qwen-vl-max-latest";
  env_QWEN_FALLBACK_MODEL := "qwen-vl-plus-latest";
  env_QWEN_FALLBACK_MODEL_2 := "qwen2.5-vl-72b-instruct";
  env_QWEN_FALLBACK_MODEL_3 := EmptyString
|}.

(** OCR-only mode, with and without an API key. *)
Definition ocr_only_env (api_key : string) : Env := {|
  env_OPENROUTER_API_KEY := api_key;
  env_OPENROUTER_PRIMARY_MODEL := "nvidia/nemotron-nano-12b-v2-vl:free";
  env_OPENROUTER_FALLBACK_MODEL := "qwen/qwen3-vl-30b-a3b-thinking";
  env_OPENROUTER_FALLBACK_MODEL_2 := "qwen/qwen3-vl-235b-a22b-thinking";
  env_OPENROUTER_FALLBACK_MODEL_3 := "google/gemma-3-27b-it:free";
  env_OPENROUTER_PAGE_BATCH_SIZE := 2;
  env_OPENROUTER_MIN_BIOMARKERS_PER_IMAGE_HINT := 2;
  env_OPENROUTER_ENABLE_RECONCILIATION := "true";
  env_AI_OCR_ONLY_MODE := "true";
  env_AI_VISUAL_ONLY_MODE := "false";
  env_AI_PROVIDER := "openrouter";
  env_QWEN_API_KEY := EmptyString;
  env_QWEN_PRIMARY_MODEL := "qwen-vl-max-latest";
  env_QWEN_FALLBACK_MODEL := "qwen-vl-plus-latest";
  env_QWEN_FALLBACK_MODEL_2 := "qwen2.5-vl-72b-instruct";
  env_QWEN_FALLBACK_MODEL_3 := EmptyString
|}.

(** A result with three biomarkers, and a result with keys apart. *)
Definition three_biomarkers : ExtractionResult := {|
  biomarkers :=
    [{| bm_name := "Glucose"; bm_value := "5"; bm_status := "High"; bm_explanation := "e" |};
     {| bm_name := "Iron"; bm_value := "1"; bm_status := "Low"; bm_explanation := "e" |};
     {| bm_name := "Zinc"; bm_value := "9"; bm_status := "Optimal"; bm_explanation := "e" |}];
  recommendations := [];
  summary := "Analyzed report pages in order across 2 batch(es). fine";
  disclaimer := DEFAULT_DISCLAIMER
|}.

(** One row of a model answer. *)
Definition raw_row (name value status : string) : json :=
  JDict [("name", JStr name); ("value", JStr value); ("status", JStr status);
         ("explanation", JStr "As printed.")].

Definition raw_rows (rows : list json) (summary : string) : dict :=
  [("biomarkers", JList rows); ("recommendations", JList []); ("summary", JStr summary)].

(** A remote side for a report of five pages: the extraction of pages 1-2
    and that of pages 3-4 both read the glucose row, with different
    statuses; no reconciliation model can be reached; the synthesis
    answers with a summary of its own. *)
Definition remote_by_pages : Oracle := λ _ c,
  match call_prompt c with
  | ExtractionPrompt =>
      if bool_decide (call_page_numbers c = [1; 2]%nat)
      then Responds (raw_rows [raw_row "Glucose" "5.9 mmol/L" "High";
                               raw_row "Iron" "11 umol/L" "Low"] "Pages 1-2 read.")
      else if bool_decide (call_page_numbers c = [3; 4]%nat)
      then Responds (raw_rows [raw_row "Glucose" "5.9 mmol/L" "Unknown";
                               raw_row "Vitamin B12" "300 pg/mL" "Optimal"] "Pages 3-4 read.")
      else Responds (raw_rows [raw_row "Zinc" "12 umol/L" "Optimal"] "Page 5 read.")
  | ReconciliationPrompt _ => Raises "timed out"
  | SynthesisPrompt _ =>
      Responds (raw_rows [] "Glucose is above range; iron is low.")
  end.

(** The same, with a synthesis that cannot be reached either. *)
Definition remote_by_pages_no_synthesis : Oracle := λ log c,
  match call_prompt c with
  | SynthesisPrompt _ => Raises "timed out"
  | _ => remote_by_pages log c
  end.

(** The three batch results of that report, as the orchestrator gets them. *)
Definition batch_12 : ExtractionResult := {|
  biomarkers :=
    [{| bm_name := "Glucose"; bm_value := "5.9 mmol/L"; bm_status := "High";
        bm_explanation := "As printed." |};
     {| bm_name := "Iron"; bm_value := "11 umol/L"; bm_status := "Low";
        bm_explanation := "As printed." |}];
  recommendations := [];
  summary := "Pages 1-2 read.";
  disclaimer := DEFAULT_DISCLAIMER
|}.

Definition batch_34 : ExtractionResult := {|
  biomarkers :=
    [{| bm_name := "Glucose"; bm_value := "5.9 mmol/L"; bm_status := "Unknown";
        bm_explanation := "As printed." |};
     {| bm_name := "Vitamin B12"; bm_value := "300 pg/mL"; bm_status := "Optimal";
        bm_explanation := "As printed." |}];
  recommendations := [];
  summary := "Pages 3-4 read.";
  disclaimer := DEFAULT_DISCLAIMER
|}.

Definition batch_5 : ExtractionResult := {|
  biomarkers :=
    [{| bm_name := "Zinc"; bm_value := "12 umol/L"; bm_status := "Optimal";
        bm_explanation := "As printed." |}];
  recommendations := [];
  summary := "Page 5 read.";
  disclaimer := DEFAULT_DISCLAIMER
|}.

(** The trail a batch leaves when [model-a] extracts and no reconciliation
    model can be reached. *)
Definition batch_trail : string :=
  "model-a | reconciliation:model-b: timed out | model-c: timed out | model-a: timed out".

(** The calls of one such batch: the extraction by [model-a], then the
    three reconciliation attempts. *)
Definition batch_calls (imgs : list json) (pages : list nat) (extracted : ExtractionResult)
  : CallLog :=
  extraction_call imgs pages 5 "model-a"
  :: map (reconciliation_call imgs pages 5 extracted) ["model-b"; "model-c"; "model-a"].

Definition log_after_12 : CallLog := batch_calls [JStr "p1"; JStr "p2"] [1; 2]%nat batch_12.
Definition log_after_34 : CallLog :=
  log_after_12 ++ batch_calls [JStr "p3"; JStr "p4"] [3; 4]%nat batch_34.
Definition log_after_5 : CallLog :=
  log_after_34 ++ batch_calls [JStr "p5"] [5]%nat batch_5.

(** The batches the orchestrator forms: the images and the page labels of
    each. *)
Definition batches (env : Env) (images : list json) : list (list json * list nat) :=
  map (λ start, (slice images start (batch_stop env start (length images)),
                 batch_pages env start (length images)))
      (py_range 0 (length images) (Z.to_nat (OPENROUTER_PAGE_BATCH_SIZE env))).

(** The keys of the biomarkers, and those of the recommendations, are
    pairwise distinct: what [_dedupe_normalized_output] establishes. *)
Definition keys_apart (r : ExtractionResult) : Prop :=
  NoDup (map biomarker_key (biomarkers r))
  ∧ NoDup (map recommendation_key (recommendations r)).

(** The head of a string, when it has one, is not whitespace. *)
Definition head_solid (s : string) : Prop :=
  match s with
  | EmptyString => True
  | String a _ => is_space a = false
  end.

(** One step of a loop on a failed attempt. *)
Ltac failed_attempt Ha :=
  unfold attempt_error in Ha;
  match type of Ha with
  | context [match ?o with _ => _ end] => destruct o as [raw0|code0 body0|msg0]
  end;
  [ match type of Ha with
    | context [_normalize_ai_output ?r] => destruct (_normalize_ai_output r); [discriminate|]
    end | | ];
  injection Ha as <-.


(* ===================================================================== *)
(** ** More vocabulary: merge, chains and calls *)
(* ===================================================================== *)

(** Two entries for the same row: same name and same value, as written. *)
Definition same_row (e x : Biomarker) : Prop :=
  bm_name e = bm_name x ∧ bm_value e = bm_value x.

(** The fixed head of a merged summary. *)
Definition batch_preamble (n : nat) : string :=
  "Analyzed report pages in order across " +:+ str_of_nat n +:+ " batch(es).".

(** The test of the first loop of [_active_provider_model_chain_for_mode]:
    the model goes to the front in OCR-only mode. *)
Definition text_first_model (model : string) : bool :=
  contains "gemma" (lower model)
  || (negb (contains "vl" (lower model)) && negb (contains "vision" (lower model))).

(** The images of the request as [maybe_generate_with_openrouter] reads
    them. *)
Definition request_images (payload : dict) : list json :=
  match dict_get_or payload "images" (JList []) with
  | JList images => images
  | _ => []
  end.

(** What every remote call of a request satisfies.  An extraction call
    goes to a model of the extraction chain; a reconciliation call is made
    only when reconciliation is on and goes to a model of the
    reconciliation chain; a synthesis call carries no image and no page
    label.  Every image sent is an image of the request, with one page
    label for each image sent. *)
Definition call_ok (env : Env) (images : list json) (c : Call) : Prop :=
  match call_prompt c with
  | ExtractionPrompt => call_model c ∈ model_chain env
  | ReconciliationPrompt _ =>
      AI_VISUAL_ONLY_MODE env = false
      ∧ OPENROUTER_ENABLE_RECONCILIATION env = true
      ∧ call_model c ∈ recon_models env
  | SynthesisPrompt _ =>
      call_model c ∈ _active_provider_model_chain_for_mode env
      ∧ call_images c = []
  end
  ∧ length (call_page_numbers c) = length (call_images c)
  ∧ ∀ img, img ∈ call_images c → img ∈ images.

(** Sample chunks: two rows for the same test with different statuses, and
    a chunk with a blank summary and a blank disclaimer. *)
Definition chunk_blank : ExtractionResult := {|
  biomarkers :=
    [{| bm_name := "Zinc"; bm_value := "12 umol/L"; bm_status := "Optimal";
        bm_explanation := "As printed." |}];
  recommendations :=
    [{| rc_name := "Zinc"; rc_protocol := "15 mg daily"; rc_reason := "Keep level." |}];
  summary := " ";
  disclaimer := EmptyString
|}.

(** A remote side on which no reconciliation model answers and the
    single-image extractions fail, while a whole batch is read by
    [model-a] with too few rows. *)
Definition remote_sparse : Oracle := λ _ c,
  match call_prompt c with
  | ExtractionPrompt =>
      if bool_decide (length (call_images c) = 1%nat) then Raises "timed out"
      else if bool_decide (call_model c = "model-a")
      then Responds (raw_ok "Glucose")
      else Raises "timed out"
  | _ => Raises "timed out"
  end.

(** A configuration with a floor of two biomarkers per image. *)
Definition floor2_env : Env := {|
  env_OPENROUTER_API_KEY := "sk-test";
  env_OPENROUTER_PRIMARY_MODEL := "model-a";
  env_OPENROUTER_FALLBACK_MODEL := "model-b";
  env_OPENROUTER_FALLBACK_MODEL_2 := EmptyString;
  env_OPENROUTER_FALLBACK_MODEL_3 := EmptyString;
  env_OPENROUTER_PAGE_BATCH_SIZE := 2;
  env_OPENROUTER_MIN_BIOMARKERS_PER_IMAGE_HINT := 2;
  env_OPENROUTER_ENABLE_RECONCILIATION := "false";
  env_AI_OCR_ONLY_MODE := "false";
  env_AI_VISUAL_ONLY_MODE := "false";
  env_AI_PROVIDER := "openrouter";
  env_QWEN_API_KEY := EmptyString;
  env_QWEN_PRIMARY_MODEL := "qwen-vl-max-latest";
  env_QWEN_FALLBACK_MODEL := "qwen-vl-plus-latest";
  env_QWEN_FALLBACK_MODEL_2 := "qwen2.5-vl-72b-instruct";
  env_QWEN_FALLBACK_MODEL_3 := EmptyString
|}.

Definition two_images : dict := [("images", JList [JStr "p1"; JStr "p2"])].

(** A result as the pipeline keeps it: keys apart, and every field of every
    entry stripped and non-empty. *)
Definition result_canonical (r : ExtractionResult) : Prop :=
  keys_apart r
  ∧ Forall biomarker_canonical (biomarkers r)
  ∧ Forall recommendation_canonical (recommendations r).

(** From [log], the computation does not raise: it returns a value that
    satisfies [Q], and the calls it adds to the log are calls of the request
    ([call_ok]). *)
Definition answers_with {A} (env : Env) (images : list json) (m : Run A)
    (log : CallLog) (Q : A → Prop) : Prop :=
  ∃ a calls, m log = (Return a, log ++ calls)
             ∧ Forall (call_ok env images) calls ∧ Q a.

(** The single-image retries of a batch, one image after the other from
    [log]: the results and the models when every image is read, [None] as
    soon as one image cannot be read; with the log where they stop. *)
Fixpoint single_image_runs (env : Env) (remote : Oracle) (imgs : list json)
    (pages : list nat) (total : nat) (log : CallLog)
  : option (list ExtractionResult * list string) * CallLog :=
  match imgs, pages with
  | img :: imgs', page :: pages' =>
      match run_model_chain_for_images env remote [img] [page] total log with
      | (Return (Some r, m), log1) =>
          match single_image_runs env remote imgs' pages' total log1 with
          | (Some (rs, ms), log2) => (Some (r :: rs, m :: ms), log2)
          | (None, log2) => (None, log2)
          end
      | (_, log1) => (None, log1)
      end
  | _, _ => (Some ([], []), log)
  end.

(* ===================================================================== *)
(** ** Vocabulary for the readers of the request *)
(* ===================================================================== *)

(** The keys [_extract_report_text] and [_extract_report_text_by_page] try,
    in order. *)
Definition report_text_keys : list string :=
  ["reportText"; "report_text"; "ocrText"; "ocr_text"].

Definition report_pages_keys : list string :=
  ["reportTextByPage"; "report_text_by_page"; "ocrTextByPage"; "ocr_text_by_page"].

(** A key that holds no usable text, and a key that holds no usable page
    entry. *)
Definition no_text_at (payload : dict) (key : string) : Prop :=
  ∀ value, dict_get_none payload key = JStr value → strip value = EmptyString.

Definition no_pages_at (payload : dict) (key : string) : Prop :=
  ∀ value, dict_get_none payload key = JList value → omap page_entry value = [].

(** Page entries in ascending order of page number. *)
Fixpoint ascending (pages : list (Z * string)) : Prop :=
  match pages with
  | [] => True
  | x :: rest => Forall (λ y, x.1 ≤ y.1) rest ∧ ascending rest
  end.

(** The entries of page [n], in the order of the list. *)
Definition entries_of_page (n : Z) (pages : list (Z * string)) : list (Z * string) :=
  filter (λ p, p.1 = n) pages.

(** A request with per-page text out of order, one entry without text and
    one with a page number that is not positive. *)
Definition pages_payload : dict :=
  [("reportText", JStr "  ");
   ("ocrText", JStr " whole report ");
   ("reportTextByPage", JList [JDict [("page", JInt 0); ("text", JStr "zero")]]);
   ("ocrTextByPage",
    JList [JDict [("page", JInt 2); ("text", JStr " second ")];
           JDict [("page", JStr "1"); ("text", JStr "first")];
           JDict [("page", JInt 3); ("text", JStr " ")];
           JDict [("page", JInt 2); ("text", JStr "second again")]])].

(* ===================================================================== *)
(** ** Stitched page groups and the OCR text of a batch *)
(* ===================================================================== *)

(** [sorted(set(xs))] on integers: the distinct values in ascending
    order. *)
Fixpoint insert_int (x : Z) (sorted : list Z) : list Z :=
  match sorted with
  | [] => [x]
  | y :: rest =>
      if x <? y then x :: sorted
      else if x =? y then sorted
      else y :: insert_int x rest
  end.

Definition sorted_set (xs : list Z) : list Z := foldr insert_int [] xs.

(** The inner loop of [_extract_stitched_page_groups]: the members of a
    group that [int()] accepts and that are positive. *)
Definition positive_ints (group : list json) : list Z :=
  filter (λ v, 0 < v) (omap py_int group).

(** One group: [None] where the loop [continue]s or appends nothing. *)
Definition stitched_group (group : json) : option (list Z) :=
  match group with
  | JList members =>
      match positive_ints members with
      | [] => None
      | ints => Some (sorted_set ints)
      end
  | _ => None
  end.

Fixpoint extract_stitched_page_groups_loop (payload : dict) (keys : list string)
  : list (list Z) :=
  match keys with
  | [] => []
  | key :: rest =>
      match dict_get_none payload key with
      | JList value =>
          match omap stitched_group value with
          | [] => extract_stitched_page_groups_loop payload rest
          | groups => groups
          end
      | _ => extract_stitched_page_groups_loop payload rest
      end
  end.

Definition stitched_keys : list string :=
  ["stitchedPageGroups"; "stitched_page_groups"; "pageGroups"; "page_groups"].

Definition _extract_stitched_page_groups (payload : dict) : list (list Z) :=
  extract_stitched_page_groups_loop payload stitched_keys.

(** The image indices are the page labels of the pipeline, natural
    numbers here. *)
Definition _raw_pages_covered_by_image_indices (payload : dict)
    (image_indices_1based : list nat) : list Z :=
  let groups := _extract_stitched_page_groups payload in
  let covered :=
    match groups with
    | [] => map Z.of_nat image_indices_1based
    | _ =>
        concat (map (λ img_idx,
                       if (1 <=? img_idx)%nat && (img_idx <=? length groups)%nat
                       then default [] (groups !! (img_idx - 1)%nat)
                       else [])
                  image_indices_1based)
    end in
  sorted_set (filter (λ p, 0 < p) covered).

(** The line feed. *)
Definition nl : string := String (ascii_of_N 10) EmptyString.

(** [f"[Page {item['page']}]\n{item['text']}"] *)
Definition page_part (item : Z * string) : string :=
  "[Page " +:+ str_of_Z item.1 +:+ "]" +:+ nl +:+ item.2.

Definition _report_text_subset_for_images (payload : dict)
    (image_indices_1based : list nat) : string :=
  match _extract_report_text_by_page payload with
  | [] => _extract_report_text payload
  | by_page =>
      let target_pages := _raw_pages_covered_by_image_indices payload image_indices_1based in
      match map page_part (filter (λ item, item.1 ∈ target_pages) by_page) with
      | [] => _extract_report_text payload
      | parts => join (nl +:+ nl) parts
      end
  end.

(** The OCR text [run_model_chain_for_images] hands to the model:
    [report_text_subset or report_text], both empty in visual-only mode. *)
Definition extraction_report_text (env : Env) (payload : dict) (page_numbers : list nat)
  : string :=
  let report_text :=
    if AI_VISUAL_ONLY_MODE env then EmptyString else _extract_report_text payload in
  let report_text_subset :=
    if AI_VISUAL_ONLY_MODE env then EmptyString
    else _report_text_subset_for_images payload page_numbers in
  str_or report_text_subset report_text.

(** Integers in strictly ascending order. *)
Fixpoint strictly_ascending (xs : list Z) : Prop :=
  match xs with
  | [] => True
  | x :: rest => Forall (λ y, x < y) rest ∧ strictly_ascending rest
  end.

(** A key that holds no usable group. *)
Definition no_groups_at (payload : dict) (key : string) : Prop :=
  ∀ value, dict_get_none payload key = JList value → omap stitched_group value = [].

(** A request of two stitched images over three raw pages, with OCR text
    for the pages 1 to 3. *)
Definition stitched_payload : dict :=
  [("images", JList [JStr "img-a"; JStr "img-b"]);
   ("ocrText", JStr "whole report");
   ("pageGroups", JList [JList [JInt 2; JStr "1"; JInt 2; JInt 0]; JList []; JList [JInt 3]]);
   ("ocrTextByPage",
    JList [JDict [("page", JInt 3); ("text", JStr "third")];
           JDict [("page", JInt 1); ("text", JStr "first")];
           JDict [("page", JInt 2); ("text", JStr "second")]])].

(* ===================================================================== *)
(** ** The content of a model request *)
(* ===================================================================== *)

(** The items of the user message: [{"type": "text", "text": ...}] and
    [{"type": "image_url", "image_url": {"url": ...}}]. *)
Inductive ContentItem :=
  | TextItem (text : string)
  | ImageItem (url : string).

(** [f"{group}"] on a list of integers. *)
Definition str_of_ints (group : list Z) : string := py_str (JList (map JInt group)).

(** The label of an image: [f"Image group {page_label}"], [f" of
    {total_pages}"] when [total_pages] is truthy, and the raw pages of the
    stitched group at the index of the image, when there is one. *)
Definition image_label (page_label : nat) (total_pages : option nat)
    (group : option (list Z)) : string :=
  ("Image group " +:+ str_of_nat page_label
   +:+ match total_pages with
       | Some (S n) => " of " +:+ str_of_nat (S n)
       | _ => EmptyString
       end)
  +:+ match group with
      | Some g => " (covers raw pages " +:+ str_of_ints g +:+ ")"
      | None => EmptyString
      end.

(** The data URL of an image. *)
Definition image_url (encoded : string) : string :=
  "data:image/jpeg;base64," +:+ strip encoded.

(** The [page_label] of the image at [idx]. *)
Definition page_label_at (idx : nat) (override_given : bool)
    (page_numbers : option (list nat)) : option nat :=
  match page_numbers ≫= (λ pn, pn !! idx) with
  | Some page => Some page
  | None => if override_given then None else Some (idx + 1)%nat
  end.

(** The [for idx, encoded in enumerate(images)] loop, from index [idx]
    on. *)
Fixpoint user_content_loop (images : list json) (idx : nat) (override_given : bool)
    (page_numbers : option (list nat)) (total_pages : option nat)
    (stitched_groups : list (list Z)) : list ContentItem :=
  match images with
  | [] => []
  | encoded :: rest =>
      let more :=
        user_content_loop rest (S idx) override_given page_numbers total_pages
          stitched_groups in
      match encoded with
      | JStr encoded =>
          if str_truthy (strip encoded)
          then
            match page_label_at idx override_given page_numbers with
            | Some page_label =>
                TextItem (image_label page_label total_pages (stitched_groups !! idx))
                :: ImageItem (image_url encoded) :: more
            | None => ImageItem (image_url encoded) :: more
            end
          else more
      | _ => more
      end
  end.

(** [prompt_text] is the text [_openrouter_prompt] returns for the same
    arguments. *)
Definition _openrouter_user_content (env : Env) (payload : dict) (prompt_text : string)
    (images_override : option (list json)) (page_numbers : option (list nat))
    (total_pages : option nat) : list ContentItem :=
  let content := [TextItem prompt_text] in
  if AI_OCR_ONLY_MODE env then content
  else
    let images :=
      match images_override with
      | Some images => JList images
      | None => dict_get_or payload "images" (JList [])
      end in
    let stitched_groups := _extract_stitched_page_groups payload in
    match images with
    | JList images =>
        content ++ user_content_loop images 0
                     (match images_override with Some _ => true | None => false end)
                     page_numbers total_pages stitched_groups
    | _ => content
    end.

Definition is_image_item (c : ContentItem) : bool :=
  match c with ImageItem _ => true | TextItem _ => false end.

(** The user message [_call_openrouter_model] sends: the content above, or
    with a prompt override the override followed by the images alone. *)
Definition request_user_content (env : Env) (payload : dict) (prompt_text : string)
    (images_override : option (list json)) (page_numbers : option (list nat))
    (total_pages : option nat) (prompt_override : option string) : list ContentItem :=
  let user_content :=
    _openrouter_user_content env payload prompt_text images_override page_numbers
      total_pages in
  match prompt_override with
  | Some prompt => TextItem prompt :: filter (λ c, is_image_item c = true) user_content
  | None => user_content
  end.

(** The image an entry of the image list is sent as, if it is sent. *)
Definition sent_image (encoded : json) : option string :=
  match encoded with
  | JStr encoded => if str_truthy (strip encoded) then Some (image_url encoded) else None
  | _ => None
  end.

(** The URLs of the images of a message, in order. *)
Definition image_urls (content : list ContentItem) : list string :=
  omap (λ c, match c with ImageItem url => Some url | TextItem _ => None end) content.

(** The labelled images of a batch: for each image that is sent, its label
    and its URL. *)
Fixpoint labelled_images (images : list json) (idx : nat) (page_numbers : list nat)
    (total_pages : option nat) (stitched_groups : list (list Z)) : list ContentItem :=
  match images, page_numbers with
  | encoded :: rest, page :: pages =>
      match sent_image encoded with
      | Some url =>
          [TextItem (image_label page total_pages (stitched_groups !! idx)); ImageItem url]
      | None => []
      end ++ labelled_images rest (S idx) pages total_pages stitched_groups
  | _, _ => []
  end.

(* ===================================================================== *)
(** ** [_coerce_openrouter_json] *)
(* ===================================================================== *)

(** [s.lstrip(c)], [s.rstrip(c)] and [s.strip(c)] for one character. *)
Fixpoint lstrip_char (c : ascii) (s : string) : string :=
  match s with
  | EmptyString => EmptyString
  | String a s' => if Ascii.eqb a c then lstrip_char c s' else s
  end.

Fixpoint rstrip_char (c : ascii) (s : string) : string :=
  match s with
  | EmptyString => EmptyString
  | String a s' =>
      match rstrip_char c s' with
      | EmptyString => if Ascii.eqb a c then EmptyString else String a EmptyString
      | r => String a r
      end
  end.

Definition strip_char (c : ascii) (s : string) : string := rstrip_char c (lstrip_char c s).

(** [s[n:]] *)
Fixpoint str_drop (n : nat) (s : string) : string :=
  match n, s with
  | O, _ => s
  | S n', String _ s' => str_drop n' s'
  | S _, EmptyString => EmptyString
  end.

Definition backtick : ascii := ascii_of_N 96.

Definition fence : string := String backtick (String backtick (String backtick EmptyString)).

Definition is_str (j : json) : bool :=
  match j with JStr _ => true | _ => false end.

(** [item.get("type") == "text"] *)
Definition is_text_type (j : json) : bool :=
  match j with JStr t => bool_decide (t = "text") | _ => false end.

(** One item of a list content: the text it adds to [parts], if any. *)
Definition content_part (item : json) : option string :=
  match item with
  | JDict d =>
      if is_text_type (dict_get_none d "type") && is_str (dict_get_none d "text")
      then Some (py_str (dict_get_none d "text"))
      else if is_str (dict_get_none d "text")
           then Some (py_str (dict_get_none d "text"))
           else None
  | _ => None
  end.

(** The text of the content, before the fence is removed. *)
Definition coerce_text (content : json) : Exc string :=
  match content with
  | JStr s => Return (strip s)
  | JList items => Return (strip (join EmptyString (omap content_part items)))
  | _ => RaiseError "Unsupported content format"
  end.

(** The [if text.startswith("```")] block. *)
Definition unfence (text : string) : string :=
  if startswith fence text
  then
    let text := strip_char backtick text in
    if startswith "json" (lower text) then strip (str_drop 4 text) else text
  else text.

Section Coerce.

(** [json.loads]; an error stands for the exception it raises. *)
Variable json_loads : string → Exc json.

Definition _coerce_openrouter_json (content : json) : Exc dict :=
  match coerce_text content with
  | RaiseError msg => RaiseError msg
  | Return text =>
      match json_loads (unfence text) with
      | RaiseError msg => RaiseError msg
      | Return (JDict parsed) => Return parsed
      | Return _ => RaiseError "Model output is not an object"
      end
  end.

End Coerce.

(** A model answer inside a [json] code fence. *)
Definition fenced (body : string) : string :=
  fence +:+ "json" +:+ nl +:+ body +:+ nl +:+ fence.

(** A parser that only knows the empty object. *)
Definition loads_empty_object (s : string) : Exc json :=
  if bool_decide (s = "{}") then Return (JDict []) else RaiseError "Expecting value".

(* ===================================================================== *)
(** ** The HTTP handler *)
(* ===================================================================== *)

(** The environment variables of the server. *)
Record ServerEnv := {
  env_API_REQUIRE_AUTH : string;
  env_API_AUTH_TOKEN : string
}.

Definition REQUIRE_AUTH (senv : ServerEnv) : bool :=
  bool_decide (lower (env_API_REQUIRE_AUTH senv) = "true").

Definition AUTH_TOKEN (senv : ServerEnv) : string := env_API_AUTH_TOKEN senv.

(** [s.replace(old, new, 1)] for a non-empty [old]. *)
Fixpoint replace_first (old new s : string) : string :=
  if startswith old s then new +:+ str_drop (String.length old) s
  else
    match s with
    | EmptyString => EmptyString
    | String a s' => String a (replace_first old new s')
    end.

(** What the handler reads of a request: the path, the [Authorization]
    header when there is one, and the body as [json.loads] returns it;
    [None] stands for an exception in the [try] block (a [Content-Length]
    that is not an integer, a body that is not UTF-8 or not JSON). *)
Record Request := {
  req_path : string;
  req_authorization : option string;
  req_payload : option json
}.

(** [json_response]: the status and the JSON object written. *)
Definition Response : Type := Z * dict.

Definition json_response (status : Z) (payload : dict) : Response := (status, payload).

Definition error_payload (code message : string) (retryable : bool) : dict :=
  [("code", JStr code); ("message", JStr message); ("retryable", JBool retryable)].

(** [type(x).__name__] *)
Definition type_name (j : json) : string :=
  match j with
  | JNull => "NoneType"
  | JBool _ => "bool"
  | JInt _ => "int"
  | JFloat _ => "float"
  | JStr _ => "str"
  | JList _ => "list"
  | JDict _ => "dict"
  end.

Definition do_GET (path : string) : Response :=
  if bool_decide (path = "/health")
  then json_response 200 [("status", JStr "ok")]
  else json_response 404 (error_payload "not_found" "Not found" false).

(** The [if REQUIRE_AUTH:] block: the response it returns, if any. *)
Definition check_auth (senv : ServerEnv) (req : Request) : option Response :=
  if REQUIRE_AUTH senv
  then
    let auth_header := default EmptyString (req_authorization req) in
    if negb (startswith "Bearer " auth_header)
    then Some (json_response 401 (error_payload "unauthorized" "Missing bearer token" false))
    else
      let token := strip (replace_first "Bearer " EmptyString auth_header) in
      if negb (bool_decide (token = AUTH_TOKEN senv))
      then Some (json_response 403 (error_payload "forbidden" "Token is invalid" false))
      else None
  else None.

(** [payload.get] on a body that is not an object raises
    [AttributeError], which nothing catches. *)
Definition do_POST (env : Env) (senv : ServerEnv) (remote : Oracle) (req : Request)
  : Run Response :=
  if negb (bool_decide (req_path req = "/v1/analyze-report"))
  then mret (json_response 404 (error_payload "not_found" "Not found" false))
  else
    match check_auth senv req with
    | Some response => mret response
    | None =>
        match req_payload req with
        | None =>
            mret (json_response 400
                    (error_payload "invalid_json" "Request JSON is invalid" false))
        | Some (JDict payload) =>
            match dict_get_or payload "images" (JList []) with
            | JList (_ :: _) =>
                '(response, mode_msg) ← maybe_generate_with_openrouter env remote payload;
                match response with
                | None =>
                    mret (json_response 502
                            (error_payload "ai_provider_failed"
                               (str_or mode_msg "AI provider failed") true))
                | Some response => mret (json_response 200 (result_to_dict response))
                end
            | _ =>
                mret (json_response 400
                        (error_payload "invalid_request"
                           "images must be a non-empty array" false))
            end
        | Some other =>
            raise ("'" +:+ type_name other +:+ "' object has no attribute 'get'")
        end
    end.

(** A request is let through by the token check. *)
Definition authorized (senv : ServerEnv) (req : Request) : Prop :=
  REQUIRE_AUTH senv = true →
  ∃ rest, req_authorization req = Some ("Bearer " +:+ rest)
          ∧ strip rest = AUTH_TOKEN senv.

(** Sample server settings and requests. *)
Definition dev_server : ServerEnv :=
  {| env_API_REQUIRE_AUTH := "true"; env_API_AUTH_TOKEN := "dev-token" |}.

Definition analyze_request (authorization : option string) (payload : option json)
  : Request :=
  {| req_path := "/v1/analyze-report"; req_authorization := authorization;
     req_payload := payload |}.

(* ===================================================================== *)
(** ** Samples for the completeness retry *)
(* ===================================================================== *)

(** A remote side that reads three rows on a batch of two images and two
    rows on a single image; no other call is answered. *)
Definition remote_three_rows : Oracle := λ _ c,
  match call_prompt c with
  | ExtractionPrompt =>
      if bool_decide (length (call_images c) = 2%nat)
      then Responds (raw_rows [raw_row "Glucose" "5.9 mmol/L" "High";
                               raw_row "Iron" "11 umol/L" "Low";
                               raw_row "Zinc" "12 umol/L" "Optimal"] "Pages 1-2 read.")
      else Responds (raw_rows [raw_row "Glucose" "5.9 mmol/L" "High";
                               raw_row "Iron" "11 umol/L" "Low"] "One page read.")
  | _ => Raises "timed out"
  end.

(** The three rows as the extraction of the batch returns them. *)
Definition three_rows : ExtractionResult := {|
  biomarkers :=
    [{| bm_name := "Glucose"; bm_value := "5.9 mmol/L"; bm_status := "High";
        bm_explanation := "As printed." |};
     {| bm_name := "Iron"; bm_value := "11 umol/L"; bm_status := "Low";
        bm_explanation := "As printed." |};
     {| bm_name := "Zinc"; bm_value := "12 umol/L"; bm_status := "Optimal";
        bm_explanation := "As printed." |}];
  recommendations := [];
  summary := "Pages 1-2 read.";
  disclaimer := DEFAULT_DISCLAIMER
|}.


(* ===================================================================== *)
(** ** Strings *)
(* ===================================================================== *)

Lemma str_truthy_true s : str_truthy s = true ↔ s ≠ EmptyString.
Proof. destruct s; simpl; split; congruence. Qed.

Lemma str_truthy_false s : str_truthy s = false ↔ s = EmptyString.
Proof. destruct s; simpl; split; congruence. Qed.

Lemma str_or_filled s d : d ≠ EmptyString → str_or s d ≠ EmptyString.
Proof. unfold str_or. destruct s; simpl; congruence. Qed.

Lemma lstrip_head_solid s : head_solid (lstrip s).
Proof.
  induction s as [|a s IH]; simpl; [exact I|].
  destruct (is_space a) eqn:E; [exact IH | exact E].
Qed.

Lemma lstrip_fixed s : head_solid s → lstrip s = s.
Proof. destruct s as [|a s]; simpl; [reflexivity|]. intros ->. reflexivity. Qed.

Lemma rstrip_head_solid s : head_solid s → head_solid (rstrip s).
Proof.
  destruct s as [|a s]; simpl; [exact id|].
  intros Ha. destruct (rstrip s); simpl; [rewrite Ha|]; exact Ha.
Qed.

Lemma rstrip_idem s : rstrip (rstrip s) = rstrip s.
Proof.
  induction s as [|a s IH]; simpl; [reflexivity|].
  destruct (rstrip s) as [|b r] eqn:E.
  - destruct (is_space a) eqn:Ea; simpl; [reflexivity | rewrite Ea; reflexivity].
  - change (rstrip (String a (String b r))) with
      (match rstrip (String b r) with
       | EmptyString => if is_space a then EmptyString else String a EmptyString
       | String c r' => String a (String c r')
       end).
    rewrite IH. reflexivity.
Qed.

Lemma strip_idem s : strip (strip s) = strip s.
Proof.
  unfold strip.
  rewrite (lstrip_fixed (rstrip (lstrip s))).
  - apply rstrip_idem.
  - apply rstrip_head_solid, lstrip_head_solid.
Qed.

Lemma strip_str_or s d : strip d = d → strip (str_or (strip s) d) = str_or (strip s) d.
Proof.
  intros Hd. unfold str_or. destruct (str_truthy (strip s)); [apply strip_idem | exact Hd].
Qed.

Lemma join_cons_filled sep e es : e ≠ EmptyString → join sep (e :: es) ≠ EmptyString.
Proof.
  unfold join. destruct e as [|a e]; [congruence|]. intros _.
  destruct es; simpl; discriminate.
Qed.

Lemma append_nil (t : string) : EmptyString +:+ t = t.
Proof. reflexivity. Qed.

Lemma append_cons a (s t : string) : String a s +:+ t = String a (s +:+ t).
Proof. reflexivity. Qed.

Lemma append_assoc (a b c : string) : (a +:+ b) +:+ c = a +:+ (b +:+ c).
Proof.
  induction a as [|x a IH]; [reflexivity|].
  rewrite !append_cons, IH. reflexivity.
Qed.

Lemma append_filled_l (a b : string) : a ≠ EmptyString → a +:+ b ≠ EmptyString.
Proof. destruct a; [congruence|]. rewrite append_cons. discriminate. Qed.

Lemma append_filled_r (a b : string) : b ≠ EmptyString → a +:+ b ≠ EmptyString.
Proof. destruct a; [auto|]. rewrite append_cons. discriminate. Qed.

Lemma prefix_append (p s : string) : String.prefix p (p +:+ s) = true.
Proof.
  induction p as [|a p IH]; [destruct s; reflexivity|].
  rewrite append_cons. simpl.
  destruct (Ascii.ascii_dec a a); [exact IH | congruence].
Qed.

(* ===================================================================== *)
(** ** The loop that keeps first occurrences *)
(* ===================================================================== *)

Lemma filter_all {A} (P : A → Prop) `{∀ x, Decision (P x)} (l : list A) :
  (∀ x, x ∈ l → P x) → filter P l = l.
Proof.
  induction l as [|x l IH]; intros Hall; [reflexivity|].
  rewrite filter_cons_True by (apply Hall; left).
  f_equal. apply IH. intros y Hy. apply Hall. right. exact Hy.
Qed.

Section KeepUnseen.
Context {A K : Type} `{Countable K} (key : A → K).

Lemma filter_filter_absorb (seen : gset K) (k : K) (l : list A) :
  k ∈ seen →
  filter (λ x, key x ∉ seen) (filter (λ x, key x ≠ k) l)
  = filter (λ x, key x ∉ seen) l.
Proof.
  intros Hk. induction l as [|x l IH]; [reflexivity|].
  rewrite !filter_cons. destruct (decide (key x ≠ k)) as [Hne|Heq].
  - rewrite filter_cons. destruct (decide (key x ∉ seen)); congruence.
  - apply dec_stable in Heq. destruct (decide (key x ∉ seen)) as [Hn|_]; [|exact IH].
    exfalso. apply Hn. rewrite Heq. exact Hk.
Qed.

Lemma filter_filter_union (seen : gset K) (k : K) (l : list A) :
  filter (λ x, key x ∉ seen) (filter (λ x, key x ≠ k) l)
  = filter (λ x, key x ∉ {[k]} ∪ seen) l.
Proof.
  induction l as [|x l IH]; [reflexivity|].
  rewrite !filter_cons. destruct (decide (key x ≠ k)) as [Hne|Heq].
  - rewrite filter_cons.
    destruct (decide (key x ∉ seen)) as [H1|H1],
             (decide (key x ∉ {[k]} ∪ seen)) as [H2|H2]; [congruence| | |exact IH].
    + exfalso. apply H2. intros [Hs|Hs]%elem_of_union; [|contradiction].
      apply elem_of_singleton in Hs. contradiction.
    + exfalso. apply H1. intros Hs. apply H2. apply elem_of_union. right. exact Hs.
  - apply dec_stable in Heq.
    destruct (decide (key x ∉ {[k]} ∪ seen)) as [H2|H2]; [|exact IH].
    exfalso. apply H2. apply elem_of_union. left. apply elem_of_singleton. exact Heq.
Qed.

Lemma keep_unseen_loop_spec (items : list A) (seen : gset K) (kept : list A) :
  keep_unseen_loop key items seen kept
  = kept ++ filter (λ x, key x ∉ seen) (keep_first_occurrences key items).
Proof.
  revert seen kept. induction items as [|item rest IH]; intros seen kept; simpl.
  - rewrite filter_nil, app_nil_r. reflexivity.
  - rewrite filter_cons. case_bool_decide as Hin.
    + rewrite IH. destruct (decide (key item ∉ seen)); [contradiction|].
      rewrite filter_filter_absorb by exact Hin. reflexivity.
    + rewrite IH. destruct (decide (key item ∉ seen)); [|contradiction].
      rewrite filter_filter_union, <- app_assoc. reflexivity.
Qed.

Lemma keep_unseen_first (items : list A) :
  keep_unseen_loop key items ∅ [] = keep_first_occurrences key items.
Proof.
  rewrite keep_unseen_loop_spec. simpl.
  apply filter_all. intros x _. apply not_elem_of_empty.
Qed.

Lemma keep_first_sub (items : list A) x :
  x ∈ keep_first_occurrences key items → x ∈ items.
Proof.
  induction items as [|item rest IH]; simpl; [exact id|].
  rewrite !elem_of_cons, list_elem_of_filter. intros [->|[_ Hx]]; auto.
Qed.

Lemma keep_first_nodup (items : list A) :
  NoDup (map key (keep_first_occurrences key items)).
Proof.
  induction items as [|item rest IH]; simpl; [constructor|].
  constructor.
  - rewrite list_elem_of_fmap. intros (y & Hy & Hin).
    apply list_elem_of_filter in Hin as [Hne _]. congruence.
  - clear -IH. induction (keep_first_occurrences key rest) as [|y l IHl]; [constructor|].
    rewrite filter_cons. inversion IH; subst.
    destruct (decide (key y ≠ key item)); [|auto].
    simpl. constructor; [|auto].
    rewrite list_elem_of_fmap. intros (z & Hz & Hin).
    apply list_elem_of_filter in Hin as [_ Hin].
    match goal with Hn : _ ∉ _ |- _ => apply Hn end.
    rewrite list_elem_of_fmap. eauto.
Qed.

Lemma keep_first_covers (items : list A) x :
  x ∈ items → ∃ y, y ∈ keep_first_occurrences key items ∧ key y = key x.
Proof.
  induction items as [|item rest IH]; simpl; [intros Hx; inversion Hx|].
  rewrite elem_of_cons. intros [->|Hx].
  - exists item. split; [left|reflexivity].
  - destruct (decide (key x = key item)) as [Heq|Hne].
    + exists item. split; [left | congruence].
    + destruct (IH Hx) as (y & Hy & Hk). exists y. split; [|exact Hk].
      right. apply list_elem_of_filter. split; [congruence | exact Hy].
Qed.

Lemma keep_first_id (items : list A) :
  NoDup (map key items) → keep_first_occurrences key items = items.
Proof.
  induction items as [|item rest IH]; simpl; [reflexivity|].
  intros Hnd. inversion Hnd as [|? ? Hnotin Hrest]; subst.
  rewrite (IH Hrest). f_equal.
  apply filter_all. intros x Hx Heq.
  apply Hnotin. rewrite <- Heq. apply list_elem_of_fmap. eauto.
Qed.

End KeepUnseen.


(* ===================================================================== *)
(** ** The biomarker loop of [_dedupe_normalized_output] *)
(* ===================================================================== *)

Lemma merge_duplicate_key item existing :
  biomarker_key (merge_duplicate item existing) = biomarker_key existing.
Proof.
  unfold merge_duplicate, biomarker_key.
  repeat match goal with |- context [if ?c then _ else _] => destruct c end; reflexivity.
Qed.

Lemma merge_duplicate_refines item existing :
  refines existing (merge_duplicate item existing).
Proof.
  split; [apply merge_duplicate_key|]. unfold merge_duplicate, status_unknown.
  destruct (String.length (bm_explanation existing) <? String.length (bm_explanation item))%nat eqn:El.
  - apply Nat.ltb_lt in El.
    case_bool_decide as Hu; simpl in *.
    + destruct (str_truthy (strip (bm_status item))); simpl; split; auto; lia.
    + split; [lia | tauto].
  - case_bool_decide as Hu; simpl in *.
    + destruct (str_truthy (strip (bm_status item))); simpl; split; auto.
    + split; [lia | tauto].
Qed.

Lemma merge_duplicate_covers item existing :
  biomarker_key item = biomarker_key existing →
  covers item (merge_duplicate item existing).
Proof.
  intros Hk. split; [rewrite merge_duplicate_key; congruence|].
  unfold merge_duplicate, status_unknown.
  destruct (String.length (bm_explanation existing) <? String.length (bm_explanation item))%nat eqn:El;
    [apply Nat.ltb_lt in El | apply Nat.ltb_ge in El].
  - case_bool_decide as Hu; simpl in *.
    + destruct (str_truthy (strip (bm_status item))) eqn:Et; simpl; split; auto.
      apply str_truthy_false in Et. auto.
    + split; [lia | tauto].
  - case_bool_decide as Hu; simpl in *.
    + destruct (str_truthy (strip (bm_status item))) eqn:Et; simpl; split; auto.
      apply str_truthy_false in Et. auto.
    + split; [lia | tauto].
Qed.

Lemma refines_refl e : refines e e.
Proof. repeat split; auto. Qed.

Lemma refines_trans e1 e2 e3 : refines e1 e2 → refines e2 e3 → refines e1 e3.
Proof.
  intros (K1 & L1 & U1) (K2 & L2 & U2). repeat split; [congruence | lia | auto].
Qed.

Lemma covers_refl x : covers x x.
Proof. repeat split; auto. Qed.

Lemma covers_refines x e e' : covers x e → refines e e' → covers x e'.
Proof.
  intros (K1 & L1 & U1) (K2 & L2 & U2). repeat split; [congruence | lia | auto].
Qed.

Lemma seen_inv_empty : seen_inv ∅ [].
Proof.
  intros k i. rewrite lookup_empty. split; [discriminate|].
  intros (b & Hb & _). rewrite lookup_nil in Hb. discriminate.
Qed.

Lemma seen_inv_nodup seen deduped :
  seen_inv seen deduped → NoDup (map biomarker_key deduped).
Proof.
  intros Hinv. apply NoDup_alt. intros i j k Hi Hj.
  rewrite list_lookup_fmap in Hi, Hj.
  destruct (deduped !! i) as [bi|] eqn:Ei; [|discriminate].
  destruct (deduped !! j) as [bj|] eqn:Ej; [|discriminate].
  simpl in *.
  assert (seen !! k = Some i) as H1 by (apply Hinv; exists bi; split; congruence).
  assert (seen !! k = Some j) as H2 by (apply Hinv; exists bj; split; congruence).
  congruence.
Qed.

Lemma seen_inv_alter seen deduped pos item :
  seen_inv seen deduped →
  seen_inv seen (alter (merge_duplicate item) pos deduped).
Proof.
  intros Hinv k i. rewrite (Hinv k i). destruct (decide (i = pos)) as [->|Hne].
  - rewrite list_lookup_alter_eq. split.
    + intros (b & Hb & Hk). exists (merge_duplicate item b).
      rewrite Hb, merge_duplicate_key. simpl. auto.
    + intros (b & Hb & Hk). destruct (deduped !! pos) as [b0|]; [|discriminate].
      simpl in Hb. inversion Hb; subst. exists b0.
      rewrite merge_duplicate_key. auto.
  - rewrite list_lookup_alter_ne by congruence. reflexivity.
Qed.

Lemma seen_inv_append seen deduped item :
  seen_inv seen deduped →
  seen !! biomarker_key item = None →
  seen_inv (<[biomarker_key item := length deduped]> seen) (deduped ++ [item]).
Proof.
  intros Hinv Hnone k i. destruct (decide (biomarker_key item = k)) as [<-|Hne].
  - rewrite lookup_insert_eq. split.
    + intros [= <-]. exists item. rewrite lookup_app_r, Nat.sub_diag by lia. auto.
    + intros (b & Hb & Hk). f_equal.
      destruct (decide (i < length deduped)%nat) as [Hlt|Hge].
      * rewrite lookup_app_l in Hb by exact Hlt.
        assert (seen !! biomarker_key item = Some i) by (apply Hinv; eauto). congruence.
      * apply lookup_lt_Some in Hb. rewrite length_app in Hb. simpl in Hb. lia.
  - rewrite lookup_insert_ne by exact Hne. rewrite (Hinv k i). split.
    + intros (b & Hb & Hk). exists b. split; [|exact Hk].
      rewrite lookup_app_l; [exact Hb | eapply lookup_lt_Some; eauto].
    + intros (b & Hb & Hk). exists b. split; [|exact Hk].
      destruct (decide (i < length deduped)%nat) as [Hlt|Hge].
      * rewrite lookup_app_l in Hb by exact Hlt. exact Hb.
      * rewrite lookup_app_r in Hb by lia.
        destruct (i - length deduped)%nat; simpl in Hb; [|rewrite lookup_nil in Hb; discriminate].
        inversion Hb; subst. contradiction.
Qed.

(** What the loop guarantees from any state that satisfies the invariant:
    keys stay apart, every stored entry only grows, and every item met is
    covered by the entry of its key. *)
Lemma dedupe_biomarkers_loop_spec items : ∀ seen deduped,
  seen_inv seen deduped →
  let out := dedupe_biomarkers_loop items seen deduped in
  NoDup (map biomarker_key out)
  ∧ (∀ i e, deduped !! i = Some e → ∃ e', out !! i = Some e' ∧ refines e e')
  ∧ (∀ x, x ∈ items → ∃ e, e ∈ out ∧ covers x e).
Proof.
  induction items as [|item rest IH]; intros seen deduped Hinv; simpl.
  - split; [eapply seen_inv_nodup; eauto|]. split.
    + intros i e He. exists e. split; [exact He | apply refines_refl].
    + intros x Hx. inversion Hx.
  - destruct (seen !! biomarker_key item) as [pos|] eqn:Es.
    + destruct (IH seen (alter (merge_duplicate item) pos deduped)
                  (seen_inv_alter _ _ _ _ Hinv)) as (Hnd & Hpos & Hcov).
      split; [exact Hnd|]. split.
      * intros i e He. destruct (decide (i = pos)) as [->|Hne].
        -- destruct (Hpos pos (merge_duplicate item e)) as (e' & He' & Hr).
           { rewrite list_lookup_alter_eq, He. reflexivity. }
           exists e'. split; [exact He'|].
           eapply refines_trans; [apply merge_duplicate_refines | exact Hr].
        -- apply Hpos. rewrite list_lookup_alter_ne by congruence. exact He.
      * intros x Hx. apply elem_of_cons in Hx as [->|Hx]; [|auto].
        apply Hinv in Es as (b & Hb & Hk).
        destruct (Hpos pos (merge_duplicate item b)) as (e' & He' & Hr).
        { rewrite list_lookup_alter_eq, Hb. reflexivity. }
        exists e'. split; [eapply list_elem_of_lookup_2; eauto|].
        apply (covers_refines _ (merge_duplicate item b));
          [apply merge_duplicate_covers; congruence | exact Hr].
    + destruct (IH _ _ (seen_inv_append _ _ _ Hinv Es)) as (Hnd & Hpos & Hcov).
      split; [exact Hnd|]. split.
      * intros i e He. apply Hpos. rewrite lookup_app_l; [exact He|].
        eapply lookup_lt_Some; eauto.
      * intros x Hx. apply elem_of_cons in Hx as [->|Hx]; [|auto].
        destruct (Hpos (length deduped) item) as (e' & He' & Hr).
        { rewrite lookup_app_r, Nat.sub_diag by lia. reflexivity. }
        exists e'. split; [eapply list_elem_of_lookup_2; eauto|].
        eapply covers_refines; [apply covers_refl | exact Hr].
Qed.

(** Every field of a stored entry was the field of an item with its key. *)
Lemma dedupe_biomarkers_loop_origin items : ∀ seen deduped,
  seen_inv seen deduped →
  ∀ e, e ∈ dedupe_biomarkers_loop items seen deduped →
  ∃ x y z, x ∈ deduped ++ items ∧ y ∈ deduped ++ items ∧ z ∈ deduped ++ items
    ∧ biomarker_key x = biomarker_key e ∧ biomarker_key y = biomarker_key e
    ∧ biomarker_key z = biomarker_key e
    ∧ bm_name e = bm_name z ∧ bm_value e = bm_value z
    ∧ bm_explanation e = bm_explanation x ∧ bm_status e = bm_status y.
Proof.
  induction items as [|item rest IH]; intros seen deduped Hinv e He; simpl in He.
  - exists e, e, e. rewrite app_nil_r. repeat split; auto.
  - destruct (seen !! biomarker_key item) as [pos|] eqn:Es.
    + destruct (IH _ _ (seen_inv_alter _ _ pos item Hinv) e He)
        as (x & y & z & Hx & Hy & Hz & Kx & Ky & Kz & Hn & Hv & Hex & Hst).
      apply Hinv in Es as (b & Hb & Hk).
      assert (Hsrc : ∀ u, u ∈ alter (merge_duplicate item) pos deduped ++ rest →
                ∃ x' y' z', x' ∈ deduped ++ item :: rest ∧ y' ∈ deduped ++ item :: rest
                  ∧ z' ∈ deduped ++ item :: rest
                  ∧ biomarker_key x' = biomarker_key u ∧ biomarker_key y' = biomarker_key u
                  ∧ biomarker_key z' = biomarker_key u
                  ∧ bm_name u = bm_name z' ∧ bm_value u = bm_value z'
                  ∧ bm_explanation u = bm_explanation x' ∧ bm_status u = bm_status y').
      { intros u Hu. apply elem_of_app in Hu as [Hu|Hu].
        - apply list_elem_of_lookup in Hu as (i & Hi).
          destruct (decide (i = pos)) as [->|Hne].
          + rewrite list_lookup_alter_eq, Hb in Hi. simpl in Hi. inversion Hi; subst u.
            assert (Hbin : b ∈ deduped ++ item :: rest)
              by (apply elem_of_app; left; eapply list_elem_of_lookup_2; eauto).
            assert (Hiin : item ∈ deduped ++ item :: rest)
              by (apply elem_of_app; right; left).
            rewrite merge_duplicate_key.
            unfold merge_duplicate.
            destruct (String.length (bm_explanation b) <? String.length (bm_explanation item))%nat;
              [exists item | exists b];
              (destruct (bool_decide _ && str_truthy _); [exists item | exists b]);
              exists b; simpl; repeat split; auto; congruence.
          + rewrite list_lookup_alter_ne in Hi by congruence.
            exists u, u, u.
            assert (u ∈ deduped ++ item :: rest)
              by (apply elem_of_app; left; eapply list_elem_of_lookup_2; eauto).
            repeat split; auto.
        - exists u, u, u.
          assert (u ∈ deduped ++ item :: rest)
            by (apply elem_of_app; right; right; exact Hu).
          repeat split; auto. }
      destruct (Hsrc x Hx) as (x1 & _ & _ & Hx1 & _ & _ & Kx1 & _ & _ & _ & _ & Ex1 & _).
      destruct (Hsrc y Hy) as (_ & y1 & _ & _ & Hy1 & _ & _ & Ky1 & _ & _ & _ & _ & Sy1).
      destruct (Hsrc z Hz) as (_ & _ & z1 & _ & _ & Hz1 & _ & _ & Kz1 & Nz1 & Vz1 & _ & _).
      exists x1, y1, z1. repeat split; auto; congruence.
    + destruct (IH _ _ (seen_inv_append _ _ _ Hinv Es) e He)
        as (x & y & z & Hx & Hy & Hz & Hrest).
      rewrite <- app_assoc in Hx, Hy, Hz. simpl in Hx, Hy, Hz.
      exists x, y, z. repeat split; auto; tauto.
Qed.

(** On items whose keys are already apart, the loop only appends. *)
Lemma dedupe_biomarkers_loop_id items : ∀ seen deduped,
  seen_inv seen deduped →
  NoDup (map biomarker_key (deduped ++ items)) →
  dedupe_biomarkers_loop items seen deduped = deduped ++ items.
Proof.
  induction items as [|item rest IH]; intros seen deduped Hinv Hnd; simpl.
  - rewrite app_nil_r. reflexivity.
  - destruct (seen !! biomarker_key item) as [pos|] eqn:Es.
    + exfalso. apply Hinv in Es as (b & Hb & Hk).
      rewrite map_app in Hnd. apply NoDup_app in Hnd as (_ & Hdisj & _).
      apply (Hdisj (biomarker_key item)).
      * rewrite <- Hk. apply list_elem_of_fmap. exists b. split; [reflexivity|].
        eapply list_elem_of_lookup_2; eauto.
      * simpl. left.
    + rewrite IH.
      * rewrite <- app_assoc. reflexivity.
      * apply seen_inv_append; assumption.
      * rewrite <- app_assoc. exact Hnd.
Qed.

Lemma dedupe_output_nodup normalized :
  NoDup (map biomarker_key (biomarkers (_dedupe_normalized_output normalized))).
Proof.
  simpl. apply (dedupe_biomarkers_loop_spec _ ∅ [] seen_inv_empty).
Qed.

Lemma dedupe_output_recs_nodup normalized :
  NoDup (map recommendation_key (recommendations (_dedupe_normalized_output normalized))).
Proof. simpl. rewrite keep_unseen_first. apply keep_first_nodup. Qed.

(** [_dedupe_normalized_output] leaves a result alone when the keys of its
    biomarkers, and those of its recommendations, are apart. *)
Lemma dedupe_id normalized :
  NoDup (map biomarker_key (biomarkers normalized)) →
  NoDup (map recommendation_key (recommendations normalized)) →
  _dedupe_normalized_output normalized = normalized.
Proof.
  intros Hb Hr. unfold _dedupe_normalized_output.
  rewrite (dedupe_biomarkers_loop_id _ ∅ [] seen_inv_empty Hb).
  rewrite keep_unseen_first, (keep_first_id _ _ Hr).
  destruct normalized; reflexivity.
Qed.

Lemma dedupe_idem normalized :
  _dedupe_normalized_output (_dedupe_normalized_output normalized)
  = _dedupe_normalized_output normalized.
Proof. apply dedupe_id; [apply dedupe_output_nodup | apply dedupe_output_recs_nodup]. Qed.


(* ===================================================================== *)
(** ** [_normalize_ai_output] *)
(* ===================================================================== *)

Lemma canonical_str_or s d : canonical_text d → canonical_text (str_or (strip s) d).
Proof.
  intros [Hd Hne]. split; [apply strip_str_or; exact Hd|].
  unfold str_or. destruct (str_truthy (strip s)) eqn:E; [|exact Hne].
  apply str_truthy_true. exact E.
Qed.

Lemma normalize_biomarker_canonical item b :
  normalize_biomarker item = Some b → biomarker_canonical b.
Proof.
  destruct item; simpl; try discriminate. intros [= <-].
  repeat split; simpl; try apply strip_str_or; try apply str_or_filled;
    try reflexivity; discriminate.
Qed.

Lemma normalize_recommendation_canonical item r :
  normalize_recommendation item = Some r → recommendation_canonical r.
Proof.
  destruct item; simpl; try discriminate. intros [= <-].
  repeat split; simpl; try apply strip_str_or; try apply str_or_filled;
    try reflexivity; discriminate.
Qed.

Lemma omap_Forall {A B} (f : A → option B) (P : B → Prop) (l : list A) :
  (∀ a b, f a = Some b → P b) → Forall P (omap f l).
Proof.
  intros Hf. induction l as [|a l IH]; simpl; [constructor|].
  destruct (f a) eqn:E; [constructor; eauto | exact IH].
Qed.

Lemma canonical_filled b : biomarker_canonical b → biomarker_filled b.
Proof. intros ([_ ?] & [_ ?] & [_ ?] & [_ ?]). repeat split; assumption. Qed.

Lemma canonical_filled_reco r : recommendation_canonical r → recommendation_filled r.
Proof. intros ([_ ?] & [_ ?] & [_ ?]). repeat split; assumption. Qed.

(** The dedupe takes every field of an entry from the items it was given,
    so it keeps them canonical. *)
Lemma dedupe_biomarkers_canonical items :
  Forall biomarker_canonical items →
  Forall biomarker_canonical (dedupe_biomarkers_loop items ∅ []).
Proof.
  intros Hall. apply Forall_forall. intros e He.
  destruct (dedupe_biomarkers_loop_origin items ∅ [] seen_inv_empty e He)
    as (x & y & z & Hx & Hy & Hz & _ & _ & _ & Hn & Hv & Hex & Hst).
  simpl in Hx, Hy, Hz. rewrite Forall_forall in Hall.
  destruct (Hall x Hx) as (_ & _ & _ & Cx).
  destruct (Hall y Hy) as (_ & _ & Cy & _).
  destruct (Hall z Hz) as (Cn & Cv & _ & _).
  unfold biomarker_canonical. rewrite Hn, Hv, Hex, Hst. auto.
Qed.

Lemma dedupe_recommendations_canonical items :
  Forall recommendation_canonical items →
  Forall recommendation_canonical (keep_unseen_loop recommendation_key items ∅ []).
Proof.
  intros Hall. rewrite keep_unseen_first. apply Forall_forall. intros r Hr.
  rewrite Forall_forall in Hall. apply Hall. eapply keep_first_sub; eauto.
Qed.

(** The shape of the normalizer's answer on a schema-valid input. *)
Lemma normalize_schema_valid raw bs rs s :
  dict_get_none raw "biomarkers" = JList bs →
  dict_get_none raw "recommendations" = JList rs →
  dict_get_none raw "summary" = JStr s →
  _normalize_ai_output raw
  = Return (_dedupe_normalized_output
              {| biomarkers := omap normalize_biomarker bs;
                 recommendations := omap normalize_recommendation rs;
                 summary := strip s;
                 disclaimer := strip (py_str (py_or (dict_get_none raw "disclaimer")
                                                (JStr DEFAULT_DISCLAIMER))) |}).
Proof. intros Hb Hr Hs. unfold _normalize_ai_output. rewrite Hb, Hr, Hs. reflexivity. Qed.

Lemma normalize_returns_valid raw r :
  _normalize_ai_output raw = Return r → schema_valid raw.
Proof.
  unfold _normalize_ai_output, schema_valid.
  destruct (dict_get_none raw "biomarkers"); try discriminate.
  destruct (dict_get_none raw "recommendations"); try discriminate.
  destruct (dict_get_none raw "summary"); try discriminate.
  eauto 10.
Qed.

Lemma normalize_output_canonical raw r :
  _normalize_ai_output raw = Return r →
  Forall biomarker_canonical (biomarkers r)
  ∧ Forall recommendation_canonical (recommendations r)
  ∧ NoDup (map biomarker_key (biomarkers r))
  ∧ NoDup (map recommendation_key (recommendations r))
  ∧ strip (summary r) = summary r
  ∧ strip (disclaimer r) = disclaimer r.
Proof.
  intros Hn. destruct (normalize_returns_valid _ _ Hn) as (bs & rs & s & Hb & Hr & Hs).
  rewrite (normalize_schema_valid _ _ _ _ Hb Hr Hs) in Hn. inversion Hn; subst r; clear Hn.
  split; [|split; [|split; [|split; [|split]]]].
  - apply dedupe_biomarkers_canonical, omap_Forall, normalize_biomarker_canonical.
  - apply dedupe_recommendations_canonical, omap_Forall, normalize_recommendation_canonical.
  - apply dedupe_output_nodup.
  - apply dedupe_output_recs_nodup.
  - simpl. apply strip_idem.
  - simpl. apply strip_idem.
Qed.

Lemma normalize_keys_apart raw n : _normalize_ai_output raw = Return n → keys_apart n.
Proof.
  intros Hn. destruct (normalize_output_canonical _ _ Hn) as (_ & _ & Nb & Nr & _).
  split; assumption.
Qed.

(** Reading a canonical entry back gives the entry. *)
Lemma normalize_biomarker_to_json b :
  biomarker_canonical b → normalize_biomarker (biomarker_to_json b) = Some b.
Proof.
  intros ([Sn Nn] & [Sv Nv] & [Ss Ns] & [Se Ne]).
  unfold biomarker_to_json, normalize_biomarker.
  change (dict_get_or _ "name" _) with (JStr (bm_name b)).
  change (dict_get_or _ "value" _) with (JStr (bm_value b)).
  change (dict_get_or _ "status" _) with (JStr (bm_status b)).
  change (dict_get_or _ "explanation" _) with (JStr (bm_explanation b)).
  simpl py_str. rewrite Sn, Sv, Ss, Se. unfold str_or.
  apply str_truthy_true in Nn, Nv, Ns, Ne. rewrite Nn, Nv, Ns, Ne.
  destruct b; reflexivity.
Qed.

Lemma normalize_recommendation_to_json r :
  recommendation_canonical r → normalize_recommendation (recommendation_to_json r) = Some r.
Proof.
  intros ([Sn Nn] & [Sp Np] & [Sr Nr]).
  unfold recommendation_to_json, normalize_recommendation.
  change (dict_get_or _ "name" _) with (JStr (rc_name r)).
  change (dict_get_or _ "protocol" _) with (JStr (rc_protocol r)).
  change (dict_get_or _ "reason" _) with (JStr (rc_reason r)).
  simpl py_str. rewrite Sn, Sp, Sr. unfold str_or.
  apply str_truthy_true in Nn, Np, Nr. rewrite Nn, Np, Nr.
  destruct r; reflexivity.
Qed.

Lemma omap_read_back {A} (f : json → option A) (g : A → json) (P : A → Prop) l :
  (∀ a, P a → f (g a) = Some a) → Forall P l → omap f (map g l) = l.
Proof.
  intros Hfg Hall. induction Hall as [|a l Ha _ IH]; simpl; [reflexivity|].
  rewrite (Hfg a Ha). simpl. f_equal. exact IH.
Qed.

(** Normalizing again changes nothing, as long as the first pass left a
    disclaimer. *)
Lemma normalize_idempotent_on_filled_disclaimer raw r :
  _normalize_ai_output raw = Return r →
  disclaimer r ≠ EmptyString →
  _normalize_ai_output (result_to_dict r) = Return r.
Proof.
  intros Hn Hd.
  destruct (normalize_output_canonical _ _ Hn) as (Cb & Cr & Nb & Nr & Ss & Sd).
  rewrite (normalize_schema_valid (result_to_dict r)
             (map biomarker_to_json (biomarkers r))
             (map recommendation_to_json (recommendations r))
             (summary r)) by reflexivity.
  change (dict_get_none (result_to_dict r) "disclaimer") with (JStr (disclaimer r)).
  unfold py_or. simpl py_truthy.
  apply str_truthy_true in Hd. rewrite Hd. simpl py_str.
  rewrite Ss, Sd.
  rewrite (omap_read_back _ _ _ _ normalize_biomarker_to_json Cb).
  rewrite (omap_read_back _ _ _ _ normalize_recommendation_to_json Cr).
  f_equal. rewrite dedupe_id by assumption. destruct r; reflexivity.
Qed.

(** C6. Intra-result dedupe: in the output of [_dedupe_normalized_output]
    no two biomarkers share the case-insensitive (name, value) key; the
    entry kept for a key has an explanation at least as long as that of
    every item with the key, and its status is "Unknown" only if the status
    of every such item is "Unknown" or blank; its explanation and its
    status are those of items with the key; the recommendations are the
    first occurrences of each case-insensitive (name, protocol) key; and the
    normalizer, which ends with this dedupe, returns such a result. *)
Theorem dedupe_invariant (normalized : ExtractionResult) :
  let out := _dedupe_normalized_output normalized in
  NoDup (map biomarker_key (biomarkers out))
  ∧ (∀ x, x ∈ biomarkers normalized →
       ∃ e, e ∈ biomarkers out
            ∧ biomarker_key e = biomarker_key x
            ∧ (String.length (bm_explanation x) ≤ String.length (bm_explanation e))%nat
            ∧ (status_unknown e → status_unknown x ∨ strip (bm_status x) = EmptyString))
  ∧ (∀ e, e ∈ biomarkers out →
       ∃ x y, x ∈ biomarkers normalized ∧ y ∈ biomarkers normalized
              ∧ biomarker_key x = biomarker_key e ∧ biomarker_key y = biomarker_key e
              ∧ bm_explanation e = bm_explanation x ∧ bm_status e = bm_status y)
  ∧ recommendations out
    = keep_first_occurrences recommendation_key (recommendations normalized)
  ∧ (∀ raw r, _normalize_ai_output raw = Return r →
       NoDup (map biomarker_key (biomarkers r))
       ∧ NoDup (map recommendation_key (recommendations r))).
Proof.
  simpl.
  destruct (dedupe_biomarkers_loop_spec (biomarkers normalized) ∅ [] seen_inv_empty)
    as (Hnd & _ & Hcov).
  split; [exact Hnd|]. split; [|split; [|split]].
  - intros x Hx. destruct (Hcov x Hx) as (e & He & Hk & Hl & Hu). eauto 10.
  - intros e He.
    destruct (dedupe_biomarkers_loop_origin _ ∅ [] seen_inv_empty e He)
      as (x & y & z & Hx & Hy & _ & Kx & Ky & _ & _ & _ & Hex & Hst).
    exists x, y. auto 10.
  - apply keep_unseen_first.
  - intros raw r Hn.
    destruct (normalize_output_canonical _ _ Hn) as (_ & _ & Nb & Nr & _). auto.
Qed.

Lemma dedupe_invariant_witness :
  ∃ r, _normalize_ai_output raw_duplicates = Return r
       ∧ NoDup (map biomarker_key (biomarkers r))
       ∧ NoDup (map recommendation_key (recommendations r)).
Proof.
  eexists. split; [reflexivity|].
  apply (proj2 (proj2 (proj2 (proj2
           (dedupe_invariant {| biomarkers := []; recommendations := [];
                                summary := EmptyString; disclaimer := EmptyString |}))))
           raw_duplicates).
  reflexivity.
Defined.

(** C7. Normalizer idempotence fails on a whitespace-only disclaimer: the
    first pass strips it to the empty string, the second pass replaces the
    empty string by the fixed disclaimer. *)
Theorem normalize_twice_blank_disclaimer :
  schema_valid raw_blank_disclaimer
  ∧ _normalize_ai_output raw_blank_disclaimer
    = Return {| biomarkers := []; recommendations := [];
                summary := "All markers are in range."; disclaimer := EmptyString |}
  ∧ _normalize_ai_output
      (result_to_dict {| biomarkers := []; recommendations := [];
                         summary := "All markers are in range."; disclaimer := EmptyString |})
    = Return {| biomarkers := []; recommendations := [];
                summary := "All markers are in range.";
                disclaimer := DEFAULT_DISCLAIMER |}.
Proof.
  split; [|split]; [|reflexivity|reflexivity].
  exists [], [], "All markers are in range.". repeat split.
Qed.

(** C8, as stated, fails: a schema-valid answer with an empty summary is
    accepted and its normalized summary is empty. *)
Lemma normalize_empty_summary :
  schema_valid raw_empty_summary
  ∧ _normalize_ai_output raw_empty_summary
    = Return {| biomarkers := []; recommendations := [];
                summary := EmptyString; disclaimer := DEFAULT_DISCLAIMER |}.
Proof.
  split; [|reflexivity]. exists [], [], EmptyString. repeat split.
Qed.

(** C8, amended. On every schema-valid input the normalizer returns a
    result in which every field of every biomarker and of every
    recommendation is a non-empty string; the summary is the stripped raw
    summary, non-empty exactly when the raw summary is not blank; the
    disclaimer is the fixed medical disclaimer when the raw one is absent,
    null or otherwise false, and is non-empty whenever the raw one is
    false or has text besides whitespace. *)
Theorem normalize_filled (raw : dict) :
  schema_valid raw →
  ∃ r s, _normalize_ai_output raw = Return r
       ∧ Forall biomarker_filled (biomarkers r)
       ∧ Forall recommendation_filled (recommendations r)
       ∧ dict_get_none raw "summary" = JStr s
       ∧ summary r = strip s
       ∧ (py_truthy (dict_get_none raw "disclaimer") = false →
          disclaimer r = DEFAULT_DISCLAIMER)
       ∧ (py_truthy (dict_get_none raw "disclaimer") = false
          ∨ strip (py_str (dict_get_none raw "disclaimer")) ≠ EmptyString →
          disclaimer r ≠ EmptyString).
Proof.
  intros (bs & rs & s & Hb & Hr & Hs).
  pose proof (normalize_schema_valid _ _ _ _ Hb Hr Hs) as Hn.
  eexists _, s. split; [exact Hn|].
  destruct (normalize_output_canonical _ _ Hn) as (Cb & Cr & _).
  split; [|split; [|split; [|split; [|split]]]].
  - eapply Forall_impl; [exact Cb | apply canonical_filled].
  - eapply Forall_impl; [exact Cr | apply canonical_filled_reco].
  - exact Hs.
  - reflexivity.
  - simpl. unfold py_or. intros ->. reflexivity.
  - simpl. unfold py_or. intros [-> | Hne]; [discriminate|].
    destruct (py_truthy (dict_get_none raw "disclaimer")); [exact Hne | discriminate].
Qed.

Lemma normalize_filled_witness :
  ∃ r s, _normalize_ai_output raw_duplicates = Return r
       ∧ Forall biomarker_filled (biomarkers r)
       ∧ Forall recommendation_filled (recommendations r)
       ∧ dict_get_none raw_duplicates "summary" = JStr s
       ∧ summary r = strip s
       ∧ (py_truthy (dict_get_none raw_duplicates "disclaimer") = false →
          disclaimer r = DEFAULT_DISCLAIMER)
       ∧ (py_truthy (dict_get_none raw_duplicates "disclaimer") = false
          ∨ strip (py_str (dict_get_none raw_duplicates "disclaimer")) ≠ EmptyString →
          disclaimer r ≠ EmptyString).
Proof.
  apply (normalize_filled raw_duplicates).
  eexists _, _, _. repeat split; reflexivity.
Defined.


(* ===================================================================== *)
(** ** Running computations *)
(* ===================================================================== *)

Lemma run_bind_return {A B} (m : Run A) (k : A → Run B) log a log' :
  m log = (Return a, log') → (m ≫= k) log = k a log'.
Proof. intros Hm. unfold mbind, Run_bind. rewrite Hm. reflexivity. Qed.

Lemma run_bind_call {B} remote c (k : CallOutcome → Run B) log :
  (_call_openrouter_model remote c ≫= k) log = k (remote log c) (log ++ [c]).
Proof. reflexivity. Qed.

(* ===================================================================== *)
(** ** Failed attempts *)
(* ===================================================================== *)

Lemma attempt_error_none limit model outcome :
  attempt_error limit model outcome = None ↔
  ∃ raw n, outcome = Responds raw ∧ _normalize_ai_output raw = Return n.
Proof.
  unfold attempt_error. destruct outcome as [raw|code body|msg].
  - destruct (_normalize_ai_output raw) as [n|msg] eqn:E.
    + split; [eauto | reflexivity].
    + split; [discriminate|]. intros (raw' & n & [= <-] & Hn). congruence.
  - split; [discriminate|]. intros (? & ? & ? & _). discriminate.
  - split; [discriminate|]. intros (? & ? & ? & _). discriminate.
Qed.

(** Every entry has the form ["{model}: {error}"]. *)
Lemma attempt_error_format limit model outcome e :
  attempt_error limit model outcome = Some e → ∃ err, e = model +:+ ": " +:+ err.
Proof.
  unfold attempt_error. destruct outcome as [raw|code body|msg].
  - destruct (_normalize_ai_output raw); [discriminate|]. intros [= <-]. eexists. reflexivity.
  - intros [= <-]. unfold http_error_text.
    exists ("HTTP " +:+ str_of_Z code +:+ " "
            +:+ str_take limit match body with Some b => b | None => "<unreadable>" end).
    reflexivity.
  - intros [= <-]. eexists. reflexivity.
Qed.

Lemma attempt_error_filled limit model outcome e :
  attempt_error limit model outcome = Some e → e ≠ EmptyString.
Proof.
  intros He. destruct (attempt_error_format _ _ _ _ He) as (err & ->).
  apply append_filled_r. discriminate.
Qed.

Lemma chain_failures_cons remote mk limit log model rest errs :
  chain_failures remote mk limit log (model :: rest) = Some errs ↔
  ∃ e es, errs = e :: es
          ∧ attempt_error limit model (remote log (mk model)) = Some e
          ∧ chain_failures remote mk limit (log ++ [mk model]) rest = Some es.
Proof.
  simpl. destruct (attempt_error limit model (remote log (mk model))) as [e|].
  - destruct (chain_failures remote mk limit (log ++ [mk model]) rest) as [es|]; simpl.
    + split; [intros [= <-]; eauto|]. intros (e' & es' & -> & [= <-] & [= <-]). reflexivity.
    + split; [discriminate|]. intros (? & ? & _ & _ & ?). discriminate.
  - split; [discriminate|]. intros (? & ? & _ & ? & _). discriminate.
Qed.

Lemma chain_failures_format remote mk limit models : ∀ log errs,
  chain_failures remote mk limit log models = Some errs →
  Forall2 (λ model e, ∃ err, e = model +:+ ": " +:+ err) models errs.
Proof.
  induction models as [|model rest IH]; intros log errs.
  - intros [= <-]. constructor.
  - intros (e & es & -> & He & Hes)%chain_failures_cons. constructor; [|eauto].
    eapply attempt_error_format; eauto.
Qed.

Lemma chain_failures_join_filled remote mk limit models log errs :
  chain_failures remote mk limit log models = Some errs →
  errs ≠ [] → join " | " errs ≠ EmptyString.
Proof.
  destruct models as [|model rest]; [intros [= <-]; congruence|].
  intros (e & es & -> & He & _)%chain_failures_cons _.
  apply join_cons_filled. eapply attempt_error_filled; eauto.
Qed.

(** A chain either fails as a whole or has a first model that succeeds. *)
Lemma chain_first_success remote mk limit models : ∀ log,
  (∃ errs, chain_failures remote mk limit log models = Some errs)
  ∨ (∃ pre model post errs raw n,
       models = pre ++ model :: post
       ∧ chain_failures remote mk limit log pre = Some errs
       ∧ remote (log ++ map mk pre) (mk model) = Responds raw
       ∧ _normalize_ai_output raw = Return n).
Proof.
  induction models as [|model rest IH]; intros log; [left; exists []; reflexivity|].
  destruct (attempt_error limit model (remote log (mk model))) as [e|] eqn:Ea.
  - destruct (IH (log ++ [mk model])) as [(errs & Hf)|(pre & m & post & errs & raw & n & -> & Hf & Hr & Hn)].
    + left. exists (e :: errs). apply chain_failures_cons. eauto.
    + right. exists (model :: pre), m, post, (e :: errs), raw, n.
      split; [reflexivity|]. split; [apply chain_failures_cons; eauto|].
      simpl. rewrite <- app_assoc in Hr. auto.
  - apply attempt_error_none in Ea as (raw & n & Hr & Hn).
    right. exists [], model, rest, [], raw, n. simpl. rewrite app_nil_r. auto.
Qed.

(* ===================================================================== *)
(** ** The extraction chain *)
(* ===================================================================== *)

Section ExtractionChain.
Context (remote : Oracle) (imgs : list json) (pages : list nat) (total : nat).
Let mk := extraction_call imgs pages total.

Lemma run_model_chain_loop_fails models : ∀ log errors errs,
  chain_failures remote mk 300 log models = Some errs →
  run_model_chain_loop remote models imgs pages total errors log
  = (Return (None, join " | " (errors ++ errs)), log ++ map mk models).
Proof.
  induction models as [|model rest IH]; intros log errors errs.
  - intros [= <-]. simpl. rewrite !app_nil_r. reflexivity.
  - intros (e & es & -> & He & Hes)%chain_failures_cons.
    simpl. rewrite run_bind_call. fold mk.
    failed_attempt He; rewrite (IH _ _ _ Hes), <- !app_assoc; reflexivity.
Qed.

Lemma run_model_chain_loop_succeeds pre : ∀ log errors errs model post raw n,
  chain_failures remote mk 300 log pre = Some errs →
  remote (log ++ map mk pre) (mk model) = Responds raw →
  _normalize_ai_output raw = Return n →
  run_model_chain_loop remote (pre ++ model :: post) imgs pages total errors log
  = (Return (Some n, model), log ++ map mk pre ++ [mk model]).
Proof.
  induction pre as [|m pre IH]; intros log errors errs model post raw n.
  - intros _ Hr Hn. simpl in *. rewrite app_nil_r in Hr.
    rewrite run_bind_call. fold mk. rewrite Hr, Hn. reflexivity.
  - intros (e & es & -> & He & Hes)%chain_failures_cons Hr Hn.
    simpl in Hr. rewrite cons_middle, app_assoc in Hr.
    simpl. rewrite run_bind_call. fold mk.
    failed_attempt He; rewrite (IH _ _ _ _ _ _ _ Hes Hr Hn), <- !app_assoc; reflexivity.
Qed.

End ExtractionChain.

(** C1, as stated, fails: when [model-a] fails and [model-b] succeeds, the
    trace the runner returns is the identifier of [model-b] alone, and the
    diagnostic of the whole request names [model-b] three times and
    [model-a], which failed in the extraction and in the synthesis, not
    once. *)
Lemma chain_success_drops_failures :
  run_model_chain_loop remote_a_fails ["model-a"; "model-b"; "model-c"]
    [JStr "p1"] [1%nat] 1 [] []
  = (Return (Some {| biomarkers :=
                       [{| bm_name := "Glucose"; bm_value := "5"; bm_status := "High";
                           bm_explanation := "No explanation provided." |}];
                     recommendations := []; summary := "fine";
                     disclaimer := DEFAULT_DISCLAIMER |},
             "model-b"),
     [extraction_call [JStr "p1"] [1%nat] 1 "model-a";
      extraction_call [JStr "p1"] [1%nat] 1 "model-b"])
  ∧ contains "model-a" "model-b" = false
  ∧ (maybe_generate_with_openrouter abc_env remote_a_fails one_image []).1
    = Return (Some {| biomarkers :=
                        [{| bm_name := "Glucose"; bm_value := "5"; bm_status := "High";
                            bm_explanation := "No explanation provided." |}];
                      recommendations := []; summary := "fine";
                      disclaimer := DEFAULT_DISCLAIMER |},
              "OpenRouter success via model-b | reconciliation:model-b | summary/reco:model-b")
  ∧ contains "model-a"
      "OpenRouter success via model-b | reconciliation:model-b | summary/reco:model-b"
    = false.
Proof. repeat split; vm_compute; reflexivity. Qed.

(** C1, amended. For every chain and fixed input the models are called in
    chain order.  If the models of a prefix all fail and the next model
    answers with an object that passes the normalizer, the runner returns
    that normalized result with that model's identifier and nothing else,
    and the log grows by the calls of the prefix and of that model only:
    no later model is called.  If all models fail, the runner returns no
    result and the entries ["{model}: {error}"] joined by [" | "], having
    called every model once, in order.  One of the two cases always
    applies. *)
Theorem fallback_chain_runner (env : Env) (remote : Oracle) (imgs : list json)
    (pages : list nat) (total : nat) (log : CallLog) :
  let mk := extraction_call imgs pages total in
  (∀ pre model post errs raw n,
     chain_failures remote mk 300 log pre = Some errs →
     remote (log ++ map mk pre) (mk model) = Responds raw →
     _normalize_ai_output raw = Return n →
     run_model_chain_loop remote (pre ++ model :: post) imgs pages total [] log
     = (Return (Some n, model), log ++ map mk pre ++ [mk model]))
  ∧ (∀ A B C e raw n,
       attempt_error 300 A (remote log (mk A)) = Some e →
       remote (log ++ [mk A]) (mk B) = Responds raw →
       _normalize_ai_output raw = Return n →
       run_model_chain_loop remote [A; B; C] imgs pages total [] log
       = (Return (Some n, B), log ++ [mk A; mk B]))
  ∧ (∀ models errs,
       chain_failures remote mk 300 log models = Some errs →
       run_model_chain_loop remote models imgs pages total [] log
       = (Return (None, join " | " errs), log ++ map mk models)
       ∧ Forall2 (λ model e, ∃ err, e = model +:+ ": " +:+ err) models errs)
  ∧ (∀ models,
       (∃ errs, chain_failures remote mk 300 log models = Some errs)
       ∨ (∃ pre model post errs raw n,
            models = pre ++ model :: post
            ∧ chain_failures remote mk 300 log pre = Some errs
            ∧ remote (log ++ map mk pre) (mk model) = Responds raw
            ∧ _normalize_ai_output raw = Return n))
  ∧ run_model_chain_for_images env remote imgs pages total log
    = run_model_chain_loop remote (model_chain env) imgs pages total [] log.
Proof.
  intros mk. split; [|split; [|split; [|split]]].
  - intros pre model post errs raw n Hf Hr Hn.
    eapply run_model_chain_loop_succeeds; eauto.
  - intros A B C e raw n He Hr Hn.
    apply (run_model_chain_loop_succeeds remote imgs pages total [A] log [] [e] B [C] raw n).
    + simpl. fold mk. rewrite He. reflexivity.
    + exact Hr.
    + exact Hn.
  - intros models errs Hf. split.
    + rewrite (run_model_chain_loop_fails _ _ _ _ _ _ [] _ Hf). reflexivity.
    + eapply chain_failures_format; eauto.
  - intros models. apply chain_first_success.
  - reflexivity.
Qed.

Lemma fallback_chain_runner_witness :
  run_model_chain_loop remote_a_fails (["model-a"] ++ "model-b" :: ["model-c"])
    [JStr "p1"] [1%nat] 1 [] []
  = (Return (Some {| biomarkers :=
                       [{| bm_name := "Glucose"; bm_value := "5"; bm_status := "High";
                           bm_explanation := "No explanation provided." |}];
                     recommendations := []; summary := "fine";
                     disclaimer := DEFAULT_DISCLAIMER |},
             "model-b"),
     [] ++ map (extraction_call [JStr "p1"] [1%nat] 1) ["model-a"]
        ++ [extraction_call [JStr "p1"] [1%nat] 1 "model-b"])
  ∧ run_model_chain_loop remote_down ["model-a"; "model-b"] [JStr "p1"] [1%nat] 1 [] []
    = (Return (None, "model-a: timed out | model-b: timed out"),
       [extraction_call [JStr "p1"] [1%nat] 1 "model-a";
        extraction_call [JStr "p1"] [1%nat] 1 "model-b"]).
Proof.
  split.
  - apply (proj1 (fallback_chain_runner abc_env remote_a_fails [JStr "p1"] [1%nat] 1 []))
      with (errs := ["model-a: HTTP 503 upstream unavailable"]) (raw := raw_ok "Glucose");
      reflexivity.
  - apply (proj1 (proj2 (proj2
             (fallback_chain_runner abc_env remote_down [JStr "p1"] [1%nat] 1 [])))
             ["model-a"; "model-b"] ["model-a: timed out"; "model-b: timed out"]).
    reflexivity.
Defined.


(* ===================================================================== *)
(** ** The reconciliation chain *)
(* ===================================================================== *)

Section ReconciliationChain.
Context (remote : Oracle) (imgs : list json) (pages : list nat) (total : nat)
        (extracted : ExtractionResult).
Let mk := reconciliation_call imgs pages total extracted.

Lemma run_reconciliation_loop_fails models : ∀ log errors errs,
  chain_failures remote mk 300 log models = Some errs →
  run_reconciliation_loop remote models imgs pages total extracted errors log
  = (Return (extracted, joined_errors (errors ++ errs)), log ++ map mk models).
Proof.
  induction models as [|model rest IH]; intros log errors errs.
  - intros [= <-]. simpl. rewrite !app_nil_r. reflexivity.
  - intros (e & es & -> & He & Hes)%chain_failures_cons.
    simpl. rewrite run_bind_call. fold mk.
    failed_attempt He; rewrite (IH _ _ _ Hes), <- !app_assoc; reflexivity.
Qed.

Lemma run_reconciliation_loop_succeeds pre : ∀ log errors errs model post raw n,
  chain_failures remote mk 300 log pre = Some errs →
  remote (log ++ map mk pre) (mk model) = Responds raw →
  _normalize_ai_output raw = Return n →
  run_reconciliation_loop remote (pre ++ model :: post) imgs pages total extracted errors log
  = (Return (n, Some model), log ++ map mk pre ++ [mk model]).
Proof.
  induction pre as [|m pre IH]; intros log errors errs model post raw n.
  - intros _ Hr Hn. simpl in *. rewrite app_nil_r in Hr.
    rewrite run_bind_call. fold mk. rewrite Hr, Hn. reflexivity.
  - intros (e & es & -> & He & Hes)%chain_failures_cons Hr Hn.
    simpl in Hr. rewrite cons_middle, app_assoc in Hr.
    simpl. rewrite run_bind_call. fold mk.
    failed_attempt He; rewrite (IH _ _ _ _ _ _ _ Hes Hr Hn), <- !app_assoc; reflexivity.
Qed.

End ReconciliationChain.

Lemma recon_models_filled env model : model ∈ recon_models env → model ≠ EmptyString.
Proof.
  unfold recon_models. intros Hin.
  apply list_elem_of_filter in Hin as [Ht _]. apply str_truthy_true in Ht. exact Ht.
Qed.

Lemma joined_errors_truthy remote mk limit log models errs :
  chain_failures remote mk limit log models = Some errs →
  meta_truthy (joined_errors errs) = match errs with [] => false | _ => true end.
Proof.
  intros Hf. destruct errs as [|e es]; [reflexivity|].
  unfold joined_errors, meta_truthy.
  apply str_truthy_true. eapply chain_failures_join_filled; eauto.
Qed.

(** C4. Reconciliation, when it runs (not in visual-only mode, and
    enabled), calls the reconciliation chain.  If a model of the chain
    succeeds after the models before it failed, its normalized output
    replaces the batch result and its identifier is appended to the trail.
    If every model fails, the extraction handed in is returned unchanged
    and the joined errors are appended to the trail after
    [" | reconciliation:"].  In every case the batch result is a result,
    never null: the request does not fail here. *)
Theorem reconciliation_non_fatal (env : Env) (remote : Oracle) (imgs : list json)
    (pages : list nat) (total : nat) (extracted : ExtractionResult) (base : string)
    (log : CallLog) :
  AI_VISUAL_ONLY_MODE env = false →
  OPENROUTER_ENABLE_RECONCILIATION env = true →
  let mk := reconciliation_call imgs pages total extracted in
  (∀ pre model post errs raw n,
     recon_models env = pre ++ model :: post →
     chain_failures remote mk 300 log pre = Some errs →
     remote (log ++ map mk pre) (mk model) = Responds raw →
     _normalize_ai_output raw = Return n →
     run_reconciliation_chain_for_images env remote imgs pages total extracted log
     = (Return (n, Some model), log ++ map mk pre ++ [mk model])
     ∧ reconcile_and_return env remote imgs pages total extracted base log
       = (Return (Some n, base +:+ " | reconciliation:" +:+ model),
          log ++ map mk pre ++ [mk model]))
  ∧ (∀ errs,
       chain_failures remote mk 300 log (recon_models env) = Some errs →
       run_reconciliation_chain_for_images env remote imgs pages total extracted log
       = (Return (extracted, joined_errors errs), log ++ map mk (recon_models env))
       ∧ reconcile_and_return env remote imgs pages total extracted base log
         = (Return (Some extracted,
                    match errs with
                    | [] => base
                    | _ => base +:+ " | reconciliation:" +:+ join " | " errs
                    end),
            log ++ map mk (recon_models env)))
  ∧ (∃ reconciled meta log',
       reconcile_and_return env remote imgs pages total extracted base log
       = (Return (Some reconciled, meta), log')).
Proof.
  intros Hv He mk.
  assert (Hrun : run_reconciliation_chain_for_images env remote imgs pages total extracted
                 = run_reconciliation_loop remote (recon_models env) imgs pages total
                     extracted []).
  { unfold run_reconciliation_chain_for_images. rewrite Hv, He. reflexivity. }
  assert (Hsucc : ∀ pre model post errs raw n,
     recon_models env = pre ++ model :: post →
     chain_failures remote mk 300 log pre = Some errs →
     remote (log ++ map mk pre) (mk model) = Responds raw →
     _normalize_ai_output raw = Return n →
     run_reconciliation_chain_for_images env remote imgs pages total extracted log
     = (Return (n, Some model), log ++ map mk pre ++ [mk model])
     ∧ reconcile_and_return env remote imgs pages total extracted base log
       = (Return (Some n, base +:+ " | reconciliation:" +:+ model),
          log ++ map mk pre ++ [mk model])).
  { intros pre model post errs raw n Hsplit Hf Hr Hn.
    assert (Hloop := run_reconciliation_loop_succeeds remote imgs pages total extracted
                       pre log [] errs model post raw n Hf Hr Hn).
    fold mk in Hloop. rewrite <- Hsplit, <- Hrun in Hloop. split; [exact Hloop|].
    unfold reconcile_and_return. rewrite (run_bind_return _ _ _ _ _ Hloop).
    assert (model ≠ EmptyString) as Hm.
    { apply (recon_models_filled env). rewrite Hsplit. apply elem_of_app. right. left. }
    simpl. apply str_truthy_true in Hm. rewrite Hm. reflexivity. }
  assert (Hfail : ∀ errs,
       chain_failures remote mk 300 log (recon_models env) = Some errs →
       run_reconciliation_chain_for_images env remote imgs pages total extracted log
       = (Return (extracted, joined_errors errs), log ++ map mk (recon_models env))
       ∧ reconcile_and_return env remote imgs pages total extracted base log
         = (Return (Some extracted,
                    match errs with
                    | [] => base
                    | _ => base +:+ " | reconciliation:" +:+ join " | " errs
                    end),
            log ++ map mk (recon_models env))).
  { intros errs Hf.
    assert (Hloop := run_reconciliation_loop_fails remote imgs pages total extracted
                       (recon_models env) log [] errs Hf).
    fold mk in Hloop. rewrite <- Hrun in Hloop. simpl in Hloop. split; [exact Hloop|].
    unfold reconcile_and_return. rewrite (run_bind_return _ _ _ _ _ Hloop).
    rewrite (joined_errors_truthy _ _ _ _ _ _ Hf).
    destruct errs; reflexivity. }
  split; [exact Hsucc|]. split; [exact Hfail|].
  destruct (chain_first_success remote mk 300 (recon_models env) log)
    as [(errs & Hf)|(pre & model & post & errs & raw & n & Hsplit & Hf & Hr & Hn)].
  - destruct (Hfail errs Hf) as [_ ->]. eauto.
  - destruct (Hsucc pre model post errs raw n Hsplit Hf Hr Hn) as [_ ->]. eauto.
Qed.

Lemma reconciliation_non_fatal_witness :
  reconcile_and_return abc_env remote_down [JStr "p1"] [1%nat] 1 three_biomarkers
    "model-a" []
  = (Return (Some three_biomarkers,
             "model-a | reconciliation:model-b: timed out | model-c: timed out | model-a: timed out"),
     map (reconciliation_call [JStr "p1"] [1%nat] 1 three_biomarkers)
       ["model-b"; "model-c"; "model-a"]).
Proof.
  exact (proj2 (proj1 (proj2
     (reconciliation_non_fatal abc_env remote_down [JStr "p1"] [1%nat] 1 three_biomarkers
        "model-a" [] eq_refl eq_refl))
     ["model-b: timed out"; "model-c: timed out"; "model-a: timed out"] eq_refl)).
Defined.

(* ===================================================================== *)
(** ** The synthesis chain *)
(* ===================================================================== *)

Section SynthesisChain.
Context (remote : Oracle) (extracted : ExtractionResult).
Let mk := synthesis_call extracted.

Lemma run_synthesis_loop_fails models : ∀ log errors errs,
  chain_failures remote mk 220 log models = Some errs →
  run_synthesis_loop remote models extracted errors log
  = (Return (extracted, joined_errors (errors ++ errs)), log ++ map mk models).
Proof.
  induction models as [|model rest IH]; intros log errors errs.
  - intros [= <-]. simpl. rewrite !app_nil_r. reflexivity.
  - intros (e & es & -> & He & Hes)%chain_failures_cons.
    simpl. rewrite run_bind_call. fold mk.
    failed_attempt He; rewrite (IH _ _ _ Hes), <- !app_assoc; reflexivity.
Qed.

Lemma run_synthesis_loop_succeeds pre : ∀ log errors errs model post raw n,
  chain_failures remote mk 220 log pre = Some errs →
  remote (log ++ map mk pre) (mk model) = Responds raw →
  _normalize_ai_output raw = Return n →
  run_synthesis_loop remote (pre ++ model :: post) extracted errors log
  = (Return (_dedupe_normalized_output (take_synthesis extracted n), Some model),
     log ++ map mk pre ++ [mk model]).
Proof.
  induction pre as [|m pre IH]; intros log errors errs model post raw n.
  - intros _ Hr Hn. simpl in *. rewrite app_nil_r in Hr.
    rewrite run_bind_call. fold mk. rewrite Hr, Hn. reflexivity.
  - intros (e & es & -> & He & Hes)%chain_failures_cons Hr Hn.
    simpl in Hr. rewrite cons_middle, app_assoc in Hr.
    simpl. rewrite run_bind_call. fold mk.
    failed_attempt He; rewrite (IH _ _ _ _ _ _ _ Hes Hr Hn), <- !app_assoc; reflexivity.
Qed.

End SynthesisChain.

Lemma mode_chain_filled env model :
  model ∈ _active_provider_model_chain_for_mode env → model ≠ EmptyString.
Proof.
  assert (Hbase : ∀ m, m ∈ _active_provider_model_chain env → m ≠ EmptyString).
  { intros m Hin. unfold _active_provider_model_chain in Hin.
    apply list_elem_of_filter in Hin as [Ht _]. apply str_truthy_true in Ht.
    intros ->. revert Ht. vm_compute. congruence. }
  unfold _active_provider_model_chain_for_mode.
  destruct (negb (AI_OCR_ONLY_MODE env)); [apply Hbase|].
  intros Hin. apply Hbase.
  assert (Hgen : ∀ chain acc, model ∈ append_missing chain acc → model ∈ chain ∨ model ∈ acc).
  { induction chain as [|c chain IH]; intros acc; simpl; [auto|].
    case_bool_decide.
    - intros H1. destruct (IH _ H1); [left; right|right]; assumption.
    - intros H1. destruct (IH _ H1) as [H2|H2]; [left; right; exact H2|].
      apply elem_of_app in H2 as [H2|H2]; [right; exact H2|].
      apply list_elem_of_singleton in H2. subst. left. left. }
  destruct (Hgen _ _ Hin) as [H1|H1]; [exact H1|].
  apply list_elem_of_filter in H1 as [_ H1]. exact H1.
Qed.

Lemma synthesis_succeeds env remote extracted meta0 log pre model post errs raw n :
  NoDup (map biomarker_key (biomarkers extracted)) →
  _active_provider_model_chain_for_mode env = pre ++ model :: post →
  chain_failures remote (synthesis_call extracted) 220 log pre = Some errs →
  remote (log ++ map (synthesis_call extracted) pre) (synthesis_call extracted model)
  = Responds raw →
  _normalize_ai_output raw = Return n →
  run_summary_recommendation_synthesis env remote extracted log
  = (Return ({| biomarkers := biomarkers extracted;
                recommendations := recommendations n;
                summary := summary n;
                disclaimer := disclaimer n |}, Some model),
     log ++ map (synthesis_call extracted) pre ++ [synthesis_call extracted model])
  ∧ synthesize_and_return env remote extracted meta0 log
    = (Return (Some {| biomarkers := biomarkers extracted;
                       recommendations := recommendations n;
                       summary := summary n;
                       disclaimer := disclaimer n |},
               meta0 +:+ " | summary/reco:" +:+ model),
       log ++ map (synthesis_call extracted) pre ++ [synthesis_call extracted model]).
Proof.
  intros Hnd Hsplit Hf Hr Hn.
  assert (Hloop := run_synthesis_loop_succeeds remote extracted
                     pre log [] errs model post raw n Hf Hr Hn).
  rewrite <- Hsplit in Hloop.
  destruct (normalize_output_canonical _ _ Hn) as (_ & _ & _ & Nr & _).
  rewrite dedupe_id in Hloop by assumption.
  unfold take_synthesis in Hloop.
  split; [exact Hloop|].
  unfold synthesize_and_return.
  rewrite (run_bind_return _ _ _ _ _ Hloop).
  assert (model ≠ EmptyString) as Hm.
  { apply (mode_chain_filled env). rewrite Hsplit. apply elem_of_app. right. left. }
  simpl. apply str_truthy_true in Hm. rewrite Hm. reflexivity.
Qed.

Lemma synthesis_fails env remote extracted meta0 log errs :
  chain_failures remote (synthesis_call extracted) 220 log
    (_active_provider_model_chain_for_mode env) = Some errs →
  run_summary_recommendation_synthesis env remote extracted log
  = (Return (extracted, joined_errors errs),
     log ++ map (synthesis_call extracted) (_active_provider_model_chain_for_mode env))
  ∧ synthesize_and_return env remote extracted meta0 log
    = (Return (Some extracted,
               match errs with
               | [] => meta0
               | _ => meta0 +:+ " | summary/reco:" +:+ join " | " errs
               end),
       log ++ map (synthesis_call extracted) (_active_provider_model_chain_for_mode env)).
Proof.
  intros Hf.
  assert (Hloop := run_synthesis_loop_fails remote extracted _ log [] errs Hf).
  simpl in Hloop. split; [exact Hloop|].
  unfold synthesize_and_return.
  rewrite (run_bind_return _ _ _ _ _ Hloop).
  rewrite (joined_errors_truthy _ _ _ _ _ _ Hf).
  destruct errs; reflexivity.
Qed.

(** The synthesis pass always hands back a result, with the biomarkers it
    was given. *)
Lemma synthesize_and_return_result env remote extracted meta0 log :
  keys_apart extracted →
  ∃ result meta log',
    synthesize_and_return env remote extracted meta0 log
    = (Return (Some result, meta), log')
    ∧ keys_apart result
    ∧ biomarkers result = biomarkers extracted.
Proof.
  intros [Nb Nr].
  destruct (chain_first_success remote (synthesis_call extracted) 220
              (_active_provider_model_chain_for_mode env) log)
    as [(errs & Hf)|(pre & model & post & errs & raw & n & Hsplit & Hf & Hr & Hn)].
  - destruct (synthesis_fails env remote extracted meta0 log errs Hf) as [_ ->].
    eexists _, _, _.
    split; [reflexivity|]. split; [split; assumption | reflexivity].
  - destruct (synthesis_succeeds env remote extracted meta0 log
                pre model post errs raw n Nb Hsplit Hf Hr Hn) as [_ ->].
    eexists _, _, _. split; [reflexivity|]. split; [|reflexivity].
    split; [exact Nb|]. simpl. apply (normalize_keys_apart _ _ Hn).
Qed.

(** C3. The synthesis pass on a result whose biomarker keys are apart, as
    they are in every result the pipeline hands to it.  If a model of the
    chain succeeds after the models before it failed, the pass returns the
    same biomarkers with the recommendations, the summary and the
    disclaimer of the synthesized answer.  If every model fails, it returns
    the result it was given, unchanged, and the joined errors go to the
    trail after [" | summary/reco:"].  In every case the biomarkers are
    those handed in and the request gets a result. *)
Theorem synthesis_frame (env : Env) (remote : Oracle) (extracted : ExtractionResult)
    (meta0 : string) (log : CallLog) :
  NoDup (map biomarker_key (biomarkers extracted)) →
  let mk := synthesis_call extracted in
  let chain := _active_provider_model_chain_for_mode env in
  (∀ pre model post errs raw n,
     chain = pre ++ model :: post →
     chain_failures remote mk 220 log pre = Some errs →
     remote (log ++ map mk pre) (mk model) = Responds raw →
     _normalize_ai_output raw = Return n →
     let result := {| biomarkers := biomarkers extracted;
                      recommendations := recommendations n;
                      summary := summary n;
                      disclaimer := disclaimer n |} in
     run_summary_recommendation_synthesis env remote extracted log
     = (Return (result, Some model), log ++ map mk pre ++ [mk model])
     ∧ synthesize_and_return env remote extracted meta0 log
       = (Return (Some result, meta0 +:+ " | summary/reco:" +:+ model),
          log ++ map mk pre ++ [mk model]))
  ∧ (∀ errs,
       chain_failures remote mk 220 log chain = Some errs →
       run_summary_recommendation_synthesis env remote extracted log
       = (Return (extracted, joined_errors errs), log ++ map mk chain)
       ∧ synthesize_and_return env remote extracted meta0 log
         = (Return (Some extracted,
                    match errs with
                    | [] => meta0
                    | _ => meta0 +:+ " | summary/reco:" +:+ join " | " errs
                    end),
            log ++ map mk chain))
  ∧ (∃ result meta log',
       synthesize_and_return env remote extracted meta0 log
       = (Return (Some result, meta), log')
       ∧ biomarkers result = biomarkers extracted).
Proof.
  intros Hnd mk chain. split; [|split].
  - intros pre model post errs raw n Hsplit Hf Hr Hn result.
    eapply synthesis_succeeds; eauto.
  - intros errs Hf. apply synthesis_fails. exact Hf.
  - destruct (chain_first_success remote mk 220 chain log)
      as [(errs & Hf)|(pre & model & post & errs & raw & n & Hsplit & Hf & Hr & Hn)].
    + destruct (synthesis_fails env remote extracted meta0 log errs Hf) as [_ ->]. eauto.
    + destruct (synthesis_succeeds env remote extracted meta0 log
                  pre model post errs raw n Hnd Hsplit Hf Hr Hn) as [_ ->].
      eexists _, _, _. split; reflexivity.
Qed.

Lemma synthesis_frame_witness :
  synthesize_and_return abc_env remote_down three_biomarkers "OpenRouter success via model-a" []
  = (Return (Some three_biomarkers,
             "OpenRouter success via model-a | summary/reco:model-a: timed out | model-b: timed out | model-c: timed out"),
     map (synthesis_call three_biomarkers) ["model-a"; "model-b"; "model-c"]).
Proof.
  assert (Hnd : NoDup (map biomarker_key (biomarkers three_biomarkers))).
  { apply (@bool_decide_unpack _ (NoDup_dec _)). vm_compute. exact I. }
  exact (proj2 (proj1 (proj2
     (synthesis_frame abc_env remote_down three_biomarkers
        "OpenRouter success via model-a" [] Hnd))
     ["model-a: timed out"; "model-b: timed out"; "model-c: timed out"] eq_refl)).
Defined.


(* ===================================================================== *)
(** ** The completeness check *)
(* ===================================================================== *)

Lemma is_suspiciously_incomplete_iff env normalized image_count :
  _is_suspiciously_incomplete env normalized image_count = true ↔
  (2 ≤ image_count)%nat
  ∧ Z.of_nat (length (biomarkers normalized))
    < OPENROUTER_MIN_BIOMARKERS_PER_IMAGE_HINT env * Z.of_nat image_count.
Proof.
  unfold _is_suspiciously_incomplete.
  rewrite <- Nat.leb_le, <- Z.ltb_lt.
  destruct (2 <=? image_count)%nat;
    destruct (Z.of_nat (length (biomarkers normalized))
              <? OPENROUTER_MIN_BIOMARKERS_PER_IMAGE_HINT env * Z.of_nat image_count);
    simpl; intuition congruence.
Qed.

Lemma completeness_retry_triggered_iff env normalized images_subset :
  completeness_retry_triggered env normalized images_subset = true ↔
  (2 ≤ length images_subset)%nat
  ∧ Z.of_nat (length (biomarkers normalized))
    < OPENROUTER_MIN_BIOMARKERS_PER_IMAGE_HINT env * Z.of_nat (length images_subset).
Proof.
  unfold completeness_retry_triggered.
  rewrite negb_true_iff, orb_false_iff, negb_false_iff, is_suspiciously_incomplete_iff.
  rewrite Nat.leb_gt. intuition lia.
Qed.

(* ===================================================================== *)
(** ** The reconciliation chain and the provider *)
(* ===================================================================== *)

(** C9. Whatever the provider, the models of the reconciliation chain are
    among the two OpenRouter fallback names and the OpenRouter primary
    name.  With the Qwen provider selected none of them belongs to the
    chain of the active provider.  And a fallback name made of one space,
    which the provider chain drops, stays in the reconciliation chain. *)
Theorem recon_chain_ignores_provider :
  (∀ env model,
     model ∈ recon_models env →
     model = OPENROUTER_FALLBACK_MODEL env
     ∨ model = OPENROUTER_FALLBACK_MODEL_2 env
     ∨ model = OPENROUTER_PRIMARY_MODEL env)
  ∧ AI_PROVIDER qwen_env = "qwen"
  ∧ _active_provider_model_chain qwen_env
    = ["qwen-vl-max-latest"; "qwen-vl-plus-latest"; "qwen2.5-vl-72b-instruct"]
  ∧ recon_models qwen_env
    = ["qwen/qwen3-vl-30b-a3b-thinking"; "qwen/qwen3-vl-235b-a22b-thinking";
       "nvidia/nemotron-nano-12b-v2-vl:free"]
  ∧ Forall (λ model, model ∉ _active_provider_model_chain qwen_env) (recon_models qwen_env)
  ∧ _active_provider_model_chain blank_fallback_env
    = ["nvidia/nemotron-nano-12b-v2-vl:free"; "qwen/qwen3-vl-235b-a22b-thinking"]
  ∧ recon_models blank_fallback_env
    = [" "; "qwen/qwen3-vl-235b-a22b-thinking"; "nvidia/nemotron-nano-12b-v2-vl:free"].
Proof.
  split.
  { intros env model Hin. unfold recon_models in Hin.
    apply list_elem_of_filter in Hin as [_ Hin].
    destruct (str_truthy (OPENROUTER_FALLBACK_MODEL env));
      repeat match type of Hin with
             | context [if ?c then _ else _] => destruct c
             end;
      repeat (apply elem_of_app in Hin as [Hin|Hin]);
      try (apply list_elem_of_singleton in Hin); try (inversion Hin; fail); auto. }
  split; [reflexivity|]. split; [reflexivity|]. split; [reflexivity|].
  split; [|split; reflexivity].
  apply (@bool_decide_unpack _ (Forall_dec _ _)). vm_compute. exact I.
Qed.

(** For the OpenRouter provider with distinct non-empty names the chain is
    the two fallbacks, then the primary. *)
Lemma recon_models_default :
  recon_models default_env
  = ["qwen/qwen3-vl-30b-a3b-thinking"; "qwen/qwen3-vl-235b-a22b-thinking";
     "nvidia/nemotron-nano-12b-v2-vl:free"]
  ∧ _active_provider_model_chain default_env
    = ["nvidia/nemotron-nano-12b-v2-vl:free"; "qwen/qwen3-vl-30b-a3b-thinking";
       "qwen/qwen3-vl-235b-a22b-thinking"; "google/gemma-3-27b-it:free"].
Proof. split; reflexivity. Qed.

(* ===================================================================== *)
(** ** The two early exits of [maybe_generate_with_openrouter] *)
(* ===================================================================== *)

(** C10, as stated, fails: in OCR-only mode, with no OCR text in the
    request and no API key, the diagnostic is the one of the missing key
    and says nothing about OCR text. *)
Lemma missing_key_precedes_ocr_check :
  AI_OCR_ONLY_MODE (ocr_only_env EmptyString) = true
  ∧ _extract_report_text one_image = EmptyString
  ∧ _extract_report_text_by_page one_image = []
  ∧ maybe_generate_with_openrouter (ocr_only_env EmptyString) remote_down one_image []
    = (Return (None, "OpenRouter disabled (missing OPENROUTER_API_KEY)"), [])
  ∧ contains "OCR" "OpenRouter disabled (missing OPENROUTER_API_KEY)" = false.
Proof. repeat split; vm_compute; reflexivity. Qed.

(** C10, amended. When the active provider has no API key, the request
    returns no result and the "disabled (missing ...)" diagnostic, whatever
    the mode.  When it has a key, OCR-only mode is on and the request holds
    neither whole-report OCR text nor a valid per-page OCR text, the
    request returns no result and the diagnostic that OCR text was not
    provided.  In both cases the log is left as it was: no model is
    called. *)
Theorem early_exits (env : Env) (remote : Oracle) (payload : dict) (log : CallLog) :
  (str_truthy (_active_provider_api_key env) = false →
   maybe_generate_with_openrouter env remote payload log
   = (Return (None,
              provider_label env +:+ " disabled (missing "
              +:+ (if is_qwen env then "QWEN_API_KEY" else "OPENROUTER_API_KEY") +:+ ")"),
      log))
  ∧ (str_truthy (_active_provider_api_key env) = true →
     AI_OCR_ONLY_MODE env = true →
     _extract_report_text payload = EmptyString →
     _extract_report_text_by_page payload = [] →
     maybe_generate_with_openrouter env remote payload log
     = (Return (None,
                provider_label env +:+ " OCR-only mode enabled but no OCR text was provided"),
        log)).
Proof.
  split.
  - intros Hkey. unfold maybe_generate_with_openrouter. rewrite Hkey. reflexivity.
  - intros Hkey Hocr Htext Hpages. unfold maybe_generate_with_openrouter.
    rewrite Hkey, Hocr, Htext, Hpages. simpl.
    destruct (AI_VISUAL_ONLY_MODE env); reflexivity.
Qed.

Lemma early_exits_witness :
  maybe_generate_with_openrouter qwen_env remote_down one_image []
  = (Return (None, "Qwen failed. qwen-vl-max-latest: timed out | qwen-vl-plus-latest: timed out | qwen2.5-vl-72b-instruct: timed out"),
     map (extraction_call [JStr "p1"] [1%nat] 1)
       ["qwen-vl-max-latest"; "qwen-vl-plus-latest"; "qwen2.5-vl-72b-instruct"])
  ∧ maybe_generate_with_openrouter (ocr_only_env EmptyString) remote_down one_image []
    = (Return (None, "OpenRouter disabled (missing OPENROUTER_API_KEY)"), [])
  ∧ maybe_generate_with_openrouter (ocr_only_env "sk-test") remote_down one_image []
    = (Return (None, "OpenRouter OCR-only mode enabled but no OCR text was provided"), []).
Proof.
  split; [reflexivity|]. split.
  - apply (proj1 (early_exits (ocr_only_env EmptyString) remote_down one_image [])). reflexivity.
  - apply (proj2 (early_exits (ocr_only_env "sk-test") remote_down one_image []));
      reflexivity.
Defined.


(* ===================================================================== *)
(** ** Counting the merged biomarkers *)
(* ===================================================================== *)

(** The dedupe keeps one entry for each key of its input. *)
Lemma dedupe_biomarkers_length items :
  length (dedupe_biomarkers_loop items ∅ [])
  = size (list_to_set (map biomarker_key items) : gset (string * string)).
Proof.
  destruct (dedupe_biomarkers_loop_spec items ∅ [] seen_inv_empty) as (Hnd & _ & Hcov).
  simpl in Hnd, Hcov.
  rewrite <- (length_map biomarker_key), <- (size_list_to_set (C := gset (string * string)))
    by exact Hnd.
  f_equal. apply set_eq. intros k. rewrite !elem_of_list_to_set, !list_elem_of_fmap. split.
  - intros (e & -> & He).
    destruct (dedupe_biomarkers_loop_origin items ∅ [] seen_inv_empty e He)
      as (x & _ & _ & Hx & _ & _ & Kx & _). simpl in Hx. eauto.
  - intros (x & -> & Hx). destruct (Hcov x Hx) as (e & He & Hk & _). eauto.
Qed.

(** Keeping the first item of each (name, value, status) key loses no
    (name, value) key. *)
Lemma merge_keeps_keys items :
  (list_to_set (map biomarker_key (keep_first_occurrences biomarker_merge_key items))
     : gset (string * string))
  = list_to_set (map biomarker_key items).
Proof.
  apply set_eq. intros k. rewrite !elem_of_list_to_set, !list_elem_of_fmap. split.
  - intros (e & -> & He). exists e. split; [reflexivity|]. eapply keep_first_sub; eauto.
  - intros (x & -> & Hx).
    destruct (keep_first_covers biomarker_merge_key items x Hx) as (y & Hy & Hk).
    exists y. split; [|exact Hy].
    unfold biomarker_merge_key in Hk. unfold biomarker_key. congruence.
Qed.

Lemma concat_three {A} (a b c : list A) : concat [a; b; c] = a ++ b ++ c.
Proof. simpl. rewrite app_nil_r. reflexivity. Qed.

(** What the merge returns on a non-empty list of chunks. *)
Lemma merge_returns chunks :
  chunks ≠ [] →
  ∃ merged,
    _merge_normalized_outputs chunks = Return merged
    ∧ NoDup (map biomarker_key (biomarkers merged))
    ∧ NoDup (map recommendation_key (recommendations merged))
    ∧ length (biomarkers merged)
      = size (list_to_set (map biomarker_key (concat (map biomarkers chunks)))
                : gset (string * string))
    ∧ startswith ("Analyzed report pages in order across " +:+ str_of_nat (length chunks)
                  +:+ " batch(es).") (summary merged) = true.
Proof.
  intros Hne. destruct chunks as [|c chunks]; [congruence|].
  eexists. split; [reflexivity|]. split; [apply dedupe_output_nodup|].
  split; [apply dedupe_output_recs_nodup|]. split.
  - cbn [biomarkers _dedupe_normalized_output].
    rewrite dedupe_biomarkers_length, keep_unseen_first, merge_keeps_keys. reflexivity.
  - cbn [summary _dedupe_normalized_output]. unfold startswith.
    rewrite <- !append_assoc. apply prefix_append.
Qed.

(* ===================================================================== *)
(** ** The batch loop *)
(* ===================================================================== *)

Lemma batch_loop_step env remote start rest images total chunks hits log c m log1 :
  run_with_completeness_retry env remote
    (slice images start (batch_stop env start total)) (batch_pages env start total)
    total log
  = (Return (Some c, m), log1) →
  batch_loop env remote (start :: rest) images total chunks hits log
  = batch_loop env remote rest images total (chunks ++ [c]) (hits ++ [m]) log1.
Proof.
  intros Hrun. simpl. rewrite (run_bind_return _ _ _ _ _ Hrun). reflexivity.
Qed.

Lemma batch_loop_done env remote images total chunks hits log merged :
  _merge_normalized_outputs chunks = Return merged →
  batch_loop env remote [] images total chunks hits log
  = synthesize_and_return env remote merged
      (provider_label env +:+ " batch success (ordered pages) via " +:+ join " -> " hits)
      log.
Proof. intros Hm. simpl. unfold lift_exc, mbind, Run_bind. rewrite Hm. reflexivity. Qed.

(** C2, as stated, fails on a report of five pages in batches of two: the
    three batch results hold five distinct (name, value, status) triples
    and the merged result holds four biomarkers, one for each (name, value)
    pair; and the final summary is the one the synthesis pass wrote, which
    does not begin with the batch preamble. *)
Lemma merged_count_is_per_pair :
  run_with_completeness_retry abc_env remote_by_pages
    [JStr "p1"; JStr "p2"] [1; 2]%nat 5 []
  = (Return (Some batch_12, batch_trail), log_after_12)
  ∧ run_with_completeness_retry abc_env remote_by_pages
      [JStr "p3"; JStr "p4"] [3; 4]%nat 5 log_after_12
    = (Return (Some batch_34, batch_trail), log_after_34)
  ∧ run_with_completeness_retry abc_env remote_by_pages [JStr "p5"] [5]%nat 5 log_after_34
    = (Return (Some batch_5, batch_trail), log_after_5)
  ∧ size (list_to_set (map biomarker_merge_key
                         (biomarkers batch_12 ++ biomarkers batch_34 ++ biomarkers batch_5))
            : gset (string * string * string)) = 5%nat
  ∧ (∃ result meta log',
       maybe_generate_with_openrouter abc_env remote_by_pages five_images []
       = (Return (Some result, meta), log')
       ∧ length (biomarkers result) = 4%nat
       ∧ summary result = "Glucose is above range; iron is low."
       ∧ startswith "Analyzed report pages in order across 3 batch(es)." (summary result)
         = false).
Proof.
  split; [vm_compute; reflexivity|]. split; [vm_compute; reflexivity|].
  split; [vm_compute; reflexivity|]. split; [vm_compute; reflexivity|].
  eexists _, _, _. split; [vm_compute; reflexivity|].
  split; [reflexivity|]. split; reflexivity.
Qed.

(** C2, amended. With an API key, outside OCR-only mode and with a batch
    size of 2, a request of five images is processed as the batches of
    pages [1,2], [3,4] and [5], in that order.  When each of them yields a
    result, the three results are merged, the synthesis pass runs on the
    merged result and the request returns what it gives.  The biomarkers
    returned are those of the merged result, and their number is the
    number of distinct case-insensitive (name, value) pairs in the three
    batch results.  The summary of the merged result begins with
    "Analyzed report pages in order across 3 batch(es)."; it is the final
    summary when every synthesis model fails. *)
Theorem batch_merge_end_to_end (env : Env) (remote : Oracle) (payload : dict)
    (i1 i2 i3 i4 i5 : json) (log log1 log2 log3 : CallLog)
    (c1 c2 c3 : ExtractionResult) (m1 m2 m3 : string) :
  str_truthy (_active_provider_api_key env) = true →
  AI_OCR_ONLY_MODE env = false →
  OPENROUTER_PAGE_BATCH_SIZE env = 2 →
  dict_get_or payload "images" (JList []) = JList [i1; i2; i3; i4; i5] →
  run_with_completeness_retry env remote [i1; i2] [1; 2]%nat 5 log
  = (Return (Some c1, m1), log1) →
  run_with_completeness_retry env remote [i3; i4] [3; 4]%nat 5 log1
  = (Return (Some c2, m2), log2) →
  run_with_completeness_retry env remote [i5] [5]%nat 5 log2
  = (Return (Some c3, m3), log3) →
  batches env [i1; i2; i3; i4; i5]
  = [([i1; i2], [1; 2]%nat); ([i3; i4], [3; 4]%nat); ([i5], [5]%nat)]
  ∧ ∃ merged result meta log',
      _merge_normalized_outputs [c1; c2; c3] = Return merged
      ∧ synthesize_and_return env remote merged
          (provider_label env +:+ " batch success (ordered pages) via "
           +:+ join " -> " [m1; m2; m3]) log3
        = (Return (Some result, meta), log')
      ∧ maybe_generate_with_openrouter env remote payload log
        = (Return (Some result, meta), log')
      ∧ biomarkers result = biomarkers merged
      ∧ length (biomarkers result)
        = size (list_to_set (map biomarker_key
                               (biomarkers c1 ++ biomarkers c2 ++ biomarkers c3))
                  : gset (string * string))
      ∧ startswith "Analyzed report pages in order across 3 batch(es)." (summary merged)
        = true
      ∧ (∀ errs,
           chain_failures remote (synthesis_call merged) 220 log3
             (_active_provider_model_chain_for_mode env) = Some errs →
           result = merged)
      ∧ (∀ pre model post errs raw n,
           _active_provider_model_chain_for_mode env = pre ++ model :: post →
           chain_failures remote (synthesis_call merged) 220 log3 pre = Some errs →
           remote (log3 ++ map (synthesis_call merged) pre) (synthesis_call merged model)
           = Responds raw →
           _normalize_ai_output raw = Return n →
           summary result = summary n).
Proof.
  intros Hkey Hocr Hbatch Himages H1 H2 H3.
  assert (Hplan : batches env [i1; i2; i3; i4; i5]
                  = [([i1; i2], [1; 2]%nat); ([i3; i4], [3; 4]%nat); ([i5], [5]%nat)]).
  { unfold batches, batch_pages, batch_stop. rewrite Hbatch. reflexivity. }
  split; [exact Hplan|].
  destruct (merge_returns [c1; c2; c3]) as (merged & Hm & Nb & Nr & Hlen & Hsum);
    [discriminate|].
  destruct (synthesize_and_return_result env remote merged
              (provider_label env +:+ " batch success (ordered pages) via "
               +:+ join " -> " [m1; m2; m3]) log3 (conj Nb Nr))
    as (result & meta & log' & Hsyn & _ & Hbio).
  exists merged, result, meta, log'.
  split; [exact Hm|]. split; [exact Hsyn|]. split; [|split; [|split; [|split; [|split]]]].
  - unfold maybe_generate_with_openrouter.
    rewrite Hkey, Hocr, Himages, Hbatch.
    cbn [negb andb length Z.of_nat].
    change (2 <? Z.of_nat 5) with true. cbv iota.
    change (py_range 0 5 (Z.to_nat 2)) with [0; 2; 4]%nat.
    assert (Hs0 : slice [i1; i2; i3; i4; i5] 0 (batch_stop env 0 5) = [i1; i2]
                  ∧ batch_pages env 0 5 = [1; 2]%nat)
      by (unfold batch_pages, batch_stop; rewrite Hbatch; split; reflexivity).
    assert (Hs2 : slice [i1; i2; i3; i4; i5] 2 (batch_stop env 2 5) = [i3; i4]
                  ∧ batch_pages env 2 5 = [3; 4]%nat)
      by (unfold batch_pages, batch_stop; rewrite Hbatch; split; reflexivity).
    assert (Hs4 : slice [i1; i2; i3; i4; i5] 4 (batch_stop env 4 5) = [i5]
                  ∧ batch_pages env 4 5 = [5]%nat)
      by (unfold batch_pages, batch_stop; rewrite Hbatch; split; reflexivity).
    destruct Hs0 as [Hs0 Hp0], Hs2 as [Hs2 Hp2], Hs4 as [Hs4 Hp4].
    rewrite (batch_loop_step env remote 0 _ _ 5 [] [] log c1 m1 log1)
      by (rewrite Hs0, Hp0; exact H1).
    rewrite (batch_loop_step env remote 2 _ _ 5 _ _ log1 c2 m2 log2)
      by (rewrite Hs2, Hp2; exact H2).
    rewrite (batch_loop_step env remote 4 _ _ 5 _ _ log2 c3 m3 log3)
      by (rewrite Hs4, Hp4; exact H3).
    rewrite (batch_loop_done _ _ _ _ _ _ _ merged Hm). exact Hsyn.
  - exact Hbio.
  - rewrite Hbio, Hlen.
    change (map biomarkers [c1; c2; c3]) with [biomarkers c1; biomarkers c2; biomarkers c3].
    rewrite concat_three. reflexivity.
  - exact Hsum.
  - intros errs Hf.
    destruct (synthesis_fails env remote merged
                (provider_label env +:+ " batch success (ordered pages) via "
                 +:+ join " -> " [m1; m2; m3]) log3 errs Hf) as [_ Hret].
    rewrite Hret in Hsyn. congruence.
  - intros pre model post errs raw n Hsplit Hf Hr Hn.
    destruct (synthesis_succeeds env remote merged
                (provider_label env +:+ " batch success (ordered pages) via "
                 +:+ join " -> " [m1; m2; m3]) log3 pre model post errs raw n
                Nb Hsplit Hf Hr Hn) as [_ Hret].
    rewrite Hret in Hsyn. injection Hsyn as <- _ _. reflexivity.
Qed.

Lemma batch_merge_end_to_end_witness :
  batches abc_env [JStr "p1"; JStr "p2"; JStr "p3"; JStr "p4"; JStr "p5"]
  = [([JStr "p1"; JStr "p2"], [1; 2]%nat); ([JStr "p3"; JStr "p4"], [3; 4]%nat);
     ([JStr "p5"], [5]%nat)]
  ∧ ∃ merged result meta log',
      _merge_normalized_outputs [batch_12; batch_34; batch_5] = Return merged
      ∧ synthesize_and_return abc_env remote_by_pages merged
          (provider_label abc_env +:+ " batch success (ordered pages) via "
           +:+ join " -> " [batch_trail; batch_trail; batch_trail]) log_after_5
        = (Return (Some result, meta), log')
      ∧ maybe_generate_with_openrouter abc_env remote_by_pages five_images []
        = (Return (Some result, meta), log')
      ∧ biomarkers result = biomarkers merged
      ∧ length (biomarkers result)
        = size (list_to_set (map biomarker_key
                               (biomarkers batch_12 ++ biomarkers batch_34
                                ++ biomarkers batch_5))
                  : gset (string * string))
      ∧ startswith "Analyzed report pages in order across 3 batch(es)." (summary merged)
        = true
      ∧ (∀ errs,
           chain_failures remote_by_pages (synthesis_call merged) 220 log_after_5
             (_active_provider_model_chain_for_mode abc_env) = Some errs →
           result = merged)
      ∧ (∀ pre model post errs raw n,
           _active_provider_model_chain_for_mode abc_env = pre ++ model :: post →
           chain_failures remote_by_pages (synthesis_call merged) 220 log_after_5 pre
           = Some errs →
           remote_by_pages (log_after_5 ++ map (synthesis_call merged) pre)
             (synthesis_call merged model)
           = Responds raw →
           _normalize_ai_output raw = Return n →
           summary result = summary n).
Proof.
  apply (batch_merge_end_to_end abc_env remote_by_pages five_images
           (JStr "p1") (JStr "p2") (JStr "p3") (JStr "p4") (JStr "p5")
           [] log_after_12 log_after_34 log_after_5
           batch_12 batch_34 batch_5 batch_trail batch_trail batch_trail).
  - reflexivity.
  - reflexivity.
  - reflexivity.
  - reflexivity.
  - vm_compute. reflexivity.
  - vm_compute. reflexivity.
  - vm_compute. reflexivity.
Defined.


(* ===================================================================== *)
(** ** Every result in the pipeline has its keys apart *)
(* ===================================================================== *)

Lemma run_model_chain_for_images_result env remote imgs pages total log :
  ∃ result trail log',
    run_model_chain_for_images env remote imgs pages total log
    = (Return (result, trail), log')
    ∧ ∀ n, result = Some n → keys_apart n.
Proof.
  unfold run_model_chain_for_images.
  destruct (chain_first_success remote (extraction_call imgs pages total) 300
              (model_chain env) log)
    as [(errs & Hf)|(pre & model & post & errs & raw & n & Hsplit & Hf & Hr & Hn)].
  - rewrite (run_model_chain_loop_fails _ _ _ _ _ _ [] _ Hf).
    eexists _, _, _. split; [reflexivity|]. discriminate.
  - rewrite Hsplit, (run_model_chain_loop_succeeds _ _ _ _ _ _ [] _ _ _ _ _ Hf Hr Hn).
    eexists _, _, _. split; [reflexivity|]. intros ? [= <-].
    eapply normalize_keys_apart; eauto.
Qed.

Lemma run_reconciliation_result env remote imgs pages total extracted log :
  keys_apart extracted →
  ∃ reconciled meta log',
    run_reconciliation_chain_for_images env remote imgs pages total extracted log
    = (Return (reconciled, meta), log')
    ∧ keys_apart reconciled.
Proof.
  intros Hk. unfold run_reconciliation_chain_for_images.
  destruct (AI_VISUAL_ONLY_MODE env || negb (OPENROUTER_ENABLE_RECONCILIATION env)).
  { eexists _, _, _. split; [reflexivity | exact Hk]. }
  destruct (chain_first_success remote (reconciliation_call imgs pages total extracted) 300
              (recon_models env) log)
    as [(errs & Hf)|(pre & model & post & errs & raw & n & Hsplit & Hf & Hr & Hn)].
  - rewrite (run_reconciliation_loop_fails _ _ _ _ _ _ _ [] _ Hf).
    eexists _, _, _. split; [reflexivity | exact Hk].
  - rewrite Hsplit, (run_reconciliation_loop_succeeds _ _ _ _ _ _ _ [] _ _ _ _ _ Hf Hr Hn).
    eexists _, _, _. split; [reflexivity|]. eapply normalize_keys_apart; eauto.
Qed.

Lemma reconcile_and_return_result env remote imgs pages total extracted base log :
  keys_apart extracted →
  ∃ reconciled trail log',
    reconcile_and_return env remote imgs pages total extracted base log
    = (Return (Some reconciled, trail), log')
    ∧ keys_apart reconciled.
Proof.
  intros Hk.
  destruct (run_reconciliation_result env remote imgs pages total extracted log Hk)
    as (reconciled & meta & log' & Hrun & Hk').
  unfold reconcile_and_return. rewrite (run_bind_return _ _ _ _ _ Hrun).
  destruct (meta_truthy meta); eexists _, _, _; (split; [reflexivity | exact Hk']).
Qed.

Lemma merge_keys_apart chunks merged :
  _merge_normalized_outputs chunks = Return merged → keys_apart merged.
Proof.
  destruct chunks as [|c chunks]; [discriminate|].
  destruct (merge_returns (c :: chunks)) as (m & Hm & Nb & Nr & _); [discriminate|].
  rewrite Hm. intros [= <-]. split; assumption.
Qed.

(** The single-image loop, wherever it stops, returns a result with its
    keys apart; it raises only if a page label is missing or if it ends
    with no chunk at all. *)
Lemma completeness_retry_loop_result env remote remaining : ∀ i imgs pages total
    normalized trail chunks models log,
  keys_apart normalized →
  length pages = (i + length remaining)%nat →
  chunks ≠ [] ∨ remaining ≠ [] →
  ∃ result trail' log',
    completeness_retry_loop env remote remaining i imgs pages total normalized trail
      chunks models log
    = (Return (Some result, trail'), log')
    ∧ keys_apart result.
Proof.
  induction remaining as [|img rest IH];
    intros i imgs pages total normalized trail chunks models log Hk Hlen Hne.
  - destruct Hne as [Hne|Hne]; [|congruence].
    destruct (merge_returns chunks Hne) as (merged & Hm & Nb & Nr & _).
    simpl. unfold lift_exc, mbind, Run_bind at 1. rewrite Hm.
    apply reconcile_and_return_result. split; assumption.
  - simpl. destruct (pages !! i) as [page|] eqn:Ep.
    + destruct (run_model_chain_for_images_result env remote [img] [page] total log)
        as (single & single_model & log1 & Hrun & Hsingle).
      rewrite (run_bind_return _ _ _ _ _ Hrun).
      destruct single as [single|].
      * apply IH; [exact Hk | simpl in Hlen; lia |].
        left. intros Happ. apply app_eq_nil in Happ as [_ Happ]. discriminate.
      * apply reconcile_and_return_result. exact Hk.
    + apply lookup_ge_None in Ep. simpl in Hlen. lia.
Qed.

(** A batch with as many page labels as images never raises; when it
    yields a result, the keys of the result are apart. *)
Lemma run_with_completeness_retry_result env remote imgs pages total log :
  length pages = length imgs →
  ∃ result trail log',
    run_with_completeness_retry env remote imgs pages total log
    = (Return (result, trail), log')
    ∧ ∀ r, result = Some r → keys_apart r.
Proof.
  intros Hlen.
  destruct (run_model_chain_for_images_result env remote imgs pages total log)
    as (normalized & trail & log1 & Hrun & Hk).
  unfold run_with_completeness_retry. rewrite (run_bind_return _ _ _ _ _ Hrun).
  destruct normalized as [normalized|].
  - specialize (Hk normalized eq_refl).
    destruct (completeness_retry_triggered env normalized imgs) eqn:Et; simpl.
    + destruct (completeness_retry_loop_result env remote imgs 0 imgs pages total
                  normalized trail [] [] log1 Hk) as (r & t & l & Hr & Hkr).
      * simpl. exact Hlen.
      * right. intros ->. apply completeness_retry_triggered_iff in Et.
        simpl in Et. lia.
      * rewrite Hr. eexists _, _, _. split; [reflexivity|]. intros ? [= <-]. exact Hkr.
    + destruct (reconcile_and_return_result env remote imgs pages total normalized
                  trail log1 Hk) as (r & t & l & Hr & Hkr).
      rewrite Hr. eexists _, _, _. split; [reflexivity|]. intros ? [= <-]. exact Hkr.
  - eexists _, _, _. split; [reflexivity|]. discriminate.
Qed.


(* ===================================================================== *)
(** ** The request as a whole *)
(* ===================================================================== *)

Lemma range_from_bound fuel : ∀ start stop step x,
  x ∈ range_from fuel start stop step → (x < stop)%nat.
Proof.
  induction fuel as [|fuel IH]; intros start stop step x; simpl.
  - intros Hx. inversion Hx.
  - destruct (start <? stop)%nat eqn:E; [|intros Hx; inversion Hx].
    apply Nat.ltb_lt in E. intros [->|Hx]%elem_of_cons; [exact E | eauto].
Qed.

Lemma batch_lengths env (images : list json) start :
  (start < length images)%nat →
  length (batch_pages env start (length images))
  = length (slice images start (batch_stop env start (length images))).
Proof.
  intros Hlt. unfold batch_pages, slice, batch_stop.
  rewrite length_seq, length_take, length_drop. lia.
Qed.

Lemma batch_loop_result env remote starts : ∀ images chunks hits log,
  Forall (λ start, (start < length images)%nat) starts →
  chunks ≠ [] ∨ starts ≠ [] →
  ∃ result trail log',
    batch_loop env remote starts images (length images) chunks hits log
    = (Return (result, trail), log')
    ∧ ∀ r, result = Some r → keys_apart r.
Proof.
  induction starts as [|start rest IH]; intros images chunks hits log Hall Hne.
  - destruct Hne as [Hne|Hne]; [|congruence].
    destruct (merge_returns chunks Hne) as (merged & Hm & Nb & Nr & _).
    rewrite (batch_loop_done _ _ _ _ _ _ _ merged Hm).
    destruct (synthesize_and_return_result env remote merged
                (provider_label env +:+ " batch success (ordered pages) via "
                 +:+ join " -> " hits) log (conj Nb Nr))
      as (result & meta & log' & -> & Hk & _).
    eexists _, _, _. split; [reflexivity|]. intros ? [= <-]. exact Hk.
  - inversion Hall as [|? ? Hstart Hrest]; subst.
    destruct (run_with_completeness_retry_result env remote
                (slice images start (batch_stop env start (length images)))
                (batch_pages env start (length images)) (length images) log
                (batch_lengths env images start Hstart))
      as (result & trail & log1 & Hrun & Hk).
    destruct result as [c|].
    + rewrite (batch_loop_step _ _ _ _ _ _ _ _ _ _ _ _ Hrun).
      apply IH; [exact Hrest|].
      left. intros Happ. apply app_eq_nil in Happ as [_ Happ]. discriminate.
    + simpl. rewrite (run_bind_return _ _ _ _ _ Hrun).
      eexists _, _, _. split; [reflexivity|]. discriminate.
Qed.

(** The request never raises: it returns a result or no result, with a
    diagnostic; a result returned has its keys apart. *)
Lemma maybe_generate_returns env remote payload log :
  ∃ result diagnostic log',
    maybe_generate_with_openrouter env remote payload log
    = (Return (result, diagnostic), log')
    ∧ ∀ r, result = Some r → keys_apart r.
Proof.
  unfold maybe_generate_with_openrouter.
  destruct (negb (str_truthy (_active_provider_api_key env))).
  { eexists _, _, _. split; [reflexivity|]. discriminate. }
  cbv zeta.
  set (images := match dict_get_or payload "images" (JList []) with
                 | JList images => images
                 | _ => []
                 end).
  match goal with |- context [if ?c then _ else _] => destruct c end.
  { eexists _, _, _. split; [reflexivity|]. discriminate. }
  destruct (negb (AI_OCR_ONLY_MODE env)
            && (OPENROUTER_PAGE_BATCH_SIZE env <? Z.of_nat (length images))) eqn:Eb.
  - apply batch_loop_result.
    + apply Forall_forall. intros x Hx. eapply range_from_bound; eauto.
    + right. apply andb_true_iff in Eb as [_ Eb]. apply Z.ltb_lt in Eb.
      unfold OPENROUTER_PAGE_BATCH_SIZE in Eb.
      destruct (length images) as [|k] eqn:El; [lia|].
      unfold py_range. simpl. discriminate.
  - destruct (run_with_completeness_retry_result env remote images
                (seq 1 (length images)) (length images) log)
      as (result & trail & log1 & Hrun & Hk); [apply length_seq|].
    rewrite (run_bind_return _ _ _ _ _ Hrun).
    destruct result as [normalized|].
    + destruct (synthesize_and_return_result env remote normalized
                  (provider_label env +:+ " success via " +:+ trail) log1
                  (Hk normalized eq_refl))
        as (result & meta & log' & -> & Hkr & _).
      eexists _, _, _. split; [reflexivity|]. intros ? [= <-]. exact Hkr.
    + eexists _, _, _. split; [reflexivity|]. discriminate.
Qed.


(* ===================================================================== *)
(** ** More on the normalizer, the dedupe and the merge *)
(* ===================================================================== *)

(** X1. A normalized result whose disclaimer is not empty is a fixed point
    of the normalizer: read back as a JSON object and normalized again, it
    comes out unchanged. *)
Theorem normalize_fixed_point (raw : dict) (r : ExtractionResult) :
  _normalize_ai_output raw = Return r →
  disclaimer r ≠ EmptyString →
  _normalize_ai_output (result_to_dict r) = Return r.
Proof. apply normalize_idempotent_on_filled_disclaimer. Qed.

Lemma normalize_fixed_point_witness :
  _normalize_ai_output
    (result_to_dict
       {| biomarkers :=
            [{| bm_name := "Glucose"; bm_value := "5"; bm_status := "High";
                bm_explanation := "Fasting sample, above range." |}];
          recommendations :=
            [{| rc_name := "Vitamin D3"; rc_protocol := "2000 IU daily";
                rc_reason := "No reason provided." |}];
          summary := "Partial extraction.";
          disclaimer := DEFAULT_DISCLAIMER |})
  = Return
      {| biomarkers :=
            [{| bm_name := "Glucose"; bm_value := "5"; bm_status := "High";
                bm_explanation := "Fasting sample, above range." |}];
          recommendations :=
            [{| rc_name := "Vitamin D3"; rc_protocol := "2000 IU daily";
                rc_reason := "No reason provided." |}];
          summary := "Partial extraction.";
          disclaimer := DEFAULT_DISCLAIMER |}.
Proof.
  apply (normalize_fixed_point raw_duplicates).
  - reflexivity.
  - discriminate.
Defined.

Lemma keys_apart_dedupe normalized : keys_apart (_dedupe_normalized_output normalized).
Proof. split; [apply dedupe_output_nodup | apply dedupe_output_recs_nodup]. Qed.

(** X3. The fixed points of [_dedupe_normalized_output] are exactly the
    results whose biomarker keys and recommendation keys are pairwise
    distinct; its output is always one, so applying it twice is applying
    it once. *)
Theorem dedupe_fixed_points (normalized : ExtractionResult) :
  (_dedupe_normalized_output normalized = normalized ↔ keys_apart normalized)
  ∧ _dedupe_normalized_output (_dedupe_normalized_output normalized)
    = _dedupe_normalized_output normalized.
Proof.
  split; [split|].
  - intros <-. apply keys_apart_dedupe.
  - intros [Hb Hr]. apply dedupe_id; assumption.
  - destruct (keys_apart_dedupe normalized). apply dedupe_id; assumption.
Qed.

(* ---------------------------------------------------------------------- *)
(** *** Order of the deduped entries *)

Lemma merge_duplicate_same_row item existing :
  same_row (merge_duplicate item existing) existing.
Proof.
  unfold merge_duplicate, same_row.
  repeat match goal with |- context [if ?c then _ else _] => destruct c end;
    split; reflexivity.
Qed.

Lemma seen_inv_dom seen deduped k :
  seen_inv seen deduped → (k ∈ dom seen ↔ k ∈ map biomarker_key deduped).
Proof.
  intros Hinv. rewrite elem_of_dom, list_elem_of_fmap. split.
  - intros [i Hi]. apply Hinv in Hi as (b & Hb & Hk).
    exists b. split; [congruence | eapply list_elem_of_lookup_2; eauto].
  - intros (b & -> & Hb). apply list_elem_of_lookup in Hb as (i & Hi).
    exists i. apply Hinv. eauto.
Qed.

(** The loop keeps, in order, one entry for the first item of each key;
    the entry has the name and the value of that first item. *)
Lemma dedupe_biomarkers_loop_order items : ∀ seen deduped base,
  seen_inv seen deduped →
  Forall2 same_row deduped base →
  Forall2 same_row (dedupe_biomarkers_loop items seen deduped)
    (base ++ filter (λ x, biomarker_key x ∉ dom seen)
               (keep_first_occurrences biomarker_key items)).
Proof.
  induction items as [|item rest IH]; intros seen deduped base Hinv Hbase; simpl.
  - rewrite filter_nil, app_nil_r. exact Hbase.
  - rewrite filter_cons. destruct (seen !! biomarker_key item) as [pos|] eqn:Es.
    + assert (Hin : biomarker_key item ∈ dom seen) by (apply elem_of_dom; eauto).
      destruct (decide (biomarker_key item ∉ dom seen)); [contradiction|].
      rewrite filter_filter_absorb by exact Hin.
      apply IH; [apply seen_inv_alter; exact Hinv|].
      apply Forall2_alter_l; [exact Hbase|].
      intros x y _ _ [Hn Hv]. destruct (merge_duplicate_same_row item x) as [Hn' Hv'].
      split; congruence.
    + assert (Hnot : biomarker_key item ∉ dom seen) by (apply not_elem_of_dom; exact Es).
      destruct (decide (biomarker_key item ∉ dom seen)); [|contradiction].
      rewrite filter_filter_union,
        <- (dom_insert_L seen (biomarker_key item) (length deduped)).
      rewrite (cons_middle item base), (app_assoc base).
      apply IH; [apply seen_inv_append; assumption|].
      apply Forall2_app; [exact Hbase|]. constructor; [split; reflexivity | constructor].
Qed.

(** X4. The dedupe keeps the order of first appearance: its biomarkers
    are, position by position, the first item of each case-insensitive
    (name, value) key of the input, with the name and the value of that
    first item as written; in particular no entry is added and the number
    of entries does not grow. *)
Theorem dedupe_keeps_first_seen_order (normalized : ExtractionResult) :
  let out := _dedupe_normalized_output normalized in
  Forall2 same_row (biomarkers out)
    (keep_first_occurrences biomarker_key (biomarkers normalized))
  ∧ map biomarker_key (biomarkers out)
    = map biomarker_key (keep_first_occurrences biomarker_key (biomarkers normalized))
  ∧ (length (biomarkers out) ≤ length (biomarkers normalized))%nat
  ∧ (length (recommendations out) ≤ length (recommendations normalized))%nat.
Proof.
  simpl.
  pose proof (dedupe_biomarkers_loop_order (biomarkers normalized) ∅ [] []
                seen_inv_empty (Forall2_nil_2 _ _ _)) as Hord.
  simpl in Hord. rewrite dom_empty_L in Hord.
  rewrite (filter_all (λ x, biomarker_key x ∉ (∅ : gset (string * string)))) in Hord
    by (intros x _; apply not_elem_of_empty).
  assert (Hkf : ∀ {A K} `{EqDecision K} (key : A → K) (l : list A),
            (length (keep_first_occurrences key l) ≤ length l)%nat).
  { intros A K ? key l. induction l as [|x l IHl]; simpl; [lia|].
    pose proof (length_filter (λ y, key y ≠ key x) (keep_first_occurrences key l)). lia. }
  split; [exact Hord|]. split; [|split].
  - pose proof (dedupe_biomarkers_loop_spec (biomarkers normalized) ∅ [] seen_inv_empty)
      as (_ & _ & Hcov).
    clear Hcov. revert Hord.
    generalize (dedupe_biomarkers_loop (biomarkers normalized) ∅ []).
    generalize (keep_first_occurrences biomarker_key (biomarkers normalized)).
    intros l2 l1 HF. induction HF as [|e x l1 l2 [Hn Hv] _ IHF]; [reflexivity|].
    simpl. rewrite IHF. unfold biomarker_key. rewrite Hn, Hv. reflexivity.
  - rewrite (Forall2_length _ _ _ Hord). apply Hkf.
  - rewrite keep_unseen_first. apply Hkf.
Qed.

(* ---------------------------------------------------------------------- *)
(** *** Order of the merged entries *)

Section KeepFirstTwice.
Context {A K1 K2 : Type} `{EqDecision K1} `{EqDecision K2}
        (fine : A → K1) (coarse : A → K2).
Hypothesis fine_coarse : ∀ x y, fine x = fine y → coarse x = coarse y.

Lemma filter_commute (P Q : A → Prop) `{!∀ x, Decision (P x), !∀ x, Decision (Q x)}
    (l : list A) :
  filter P (filter Q l) = filter Q (filter P l).
Proof.
  rewrite !list_filter_filter. apply list_filter_iff. intros x. tauto.
Qed.

Lemma keep_first_filter (k : K2) (l : list A) :
  filter (λ y, coarse y ≠ k) (keep_first_occurrences coarse l)
  = keep_first_occurrences coarse (filter (λ y, coarse y ≠ k) l).
Proof.
  induction l as [|x l IH]; [reflexivity|]. simpl.
  rewrite !filter_cons. destruct (decide (coarse x ≠ k)) as [Hne|Heq].
  - simpl. f_equal. rewrite filter_commute, IH. reflexivity.
  - apply dec_stable in Heq. rewrite <- IH. subst k.
    rewrite list_filter_filter. apply list_filter_iff. intros y. tauto.
Qed.

(** Keeping first occurrences for a fine key first does not change the
    first occurrences for a coarser key. *)
Lemma keep_first_coarse_after_fine (l : list A) :
  keep_first_occurrences coarse (keep_first_occurrences fine l)
  = keep_first_occurrences coarse l.
Proof.
  induction l as [|x l IH]; [reflexivity|]. simpl. f_equal.
  rewrite <- IH, !keep_first_filter. f_equal.
  rewrite list_filter_filter. apply list_filter_iff. intros y. split; [tauto|].
  intros Hc. split; [exact Hc|]. intros Hf. apply Hc. apply fine_coarse. exact Hf.
Qed.

End KeepFirstTwice.

Lemma merge_key_refines x y :
  biomarker_merge_key x = biomarker_merge_key y → biomarker_key x = biomarker_key y.
Proof. unfold biomarker_merge_key, biomarker_key. congruence. Qed.

Lemma merge_unfold c chunks :
  _merge_normalized_outputs (c :: chunks)
  = Return (_dedupe_normalized_output
              {| biomarkers :=
                   keep_first_occurrences biomarker_merge_key
                     (concat (map biomarkers (c :: chunks)));
                 recommendations :=
                   keep_first_occurrences recommendation_key
                     (concat (map recommendations (c :: chunks)));
                 summary :=
                   batch_preamble (length (c :: chunks))
                   +:+ (if str_truthy (first_nonblank (map summary (rev (c :: chunks)))
                                         EmptyString)
                        then " " +:+ first_nonblank (map summary (rev (c :: chunks)))
                                       EmptyString
                        else EmptyString);
                 disclaimer := first_nonblank (map disclaimer (c :: chunks))
                                 DEFAULT_DISCLAIMER |}).
Proof.
  unfold _merge_normalized_outputs, batch_preamble.
  rewrite !keep_unseen_first, !append_assoc. reflexivity.
Qed.

Lemma merge_nonempty chunks :
  chunks ≠ [] →
  _merge_normalized_outputs chunks
  = Return (_dedupe_normalized_output
              {| biomarkers :=
                   keep_first_occurrences biomarker_merge_key
                     (concat (map biomarkers chunks));
                 recommendations :=
                   keep_first_occurrences recommendation_key
                     (concat (map recommendations chunks));
                 summary :=
                   batch_preamble (length chunks)
                   +:+ (if str_truthy (first_nonblank (map summary (rev chunks))
                                         EmptyString)
                        then " " +:+ first_nonblank (map summary (rev chunks)) EmptyString
                        else EmptyString);
                 disclaimer := first_nonblank (map disclaimer chunks)
                                 DEFAULT_DISCLAIMER |}).
Proof.
  destruct chunks as [|c chunks]; [congruence|]. intros _. apply merge_unfold.
Qed.

(** X5. Merge order-preservation: the merged biomarkers are, position by
    position, the first item of each case-insensitive (name, value) key
    met when the chunks are read in order, each chunk from its first row
    to its last; the merged recommendations are exactly the first
    occurrences of each (name, protocol) key in that order. *)
Theorem merge_keeps_first_seen_order (chunks : list ExtractionResult)
    (merged : ExtractionResult) :
  _merge_normalized_outputs chunks = Return merged →
  Forall2 same_row (biomarkers merged)
    (keep_first_occurrences biomarker_key (concat (map biomarkers chunks)))
  ∧ recommendations merged
    = keep_first_occurrences recommendation_key (concat (map recommendations chunks)).
Proof.
  destruct chunks as [|c chunks]; [discriminate|].
  rewrite merge_unfold. intros [= <-]. split.
  - pose proof (dedupe_biomarkers_loop_order
                  (keep_first_occurrences biomarker_merge_key
                     (concat (map biomarkers (c :: chunks)))) ∅ [] []
                  seen_inv_empty (Forall2_nil_2 _ _ _)) as Hord.
    simpl app in Hord. rewrite dom_empty_L in Hord.
    rewrite (filter_all (λ x, biomarker_key x ∉ (∅ : gset (string * string)))) in Hord
      by (intros x _; apply not_elem_of_empty).
    rewrite (keep_first_coarse_after_fine biomarker_merge_key biomarker_key
               merge_key_refines) in Hord.
    exact Hord.
  - cbn [recommendations _dedupe_normalized_output].
    rewrite keep_unseen_first. apply keep_first_id. apply keep_first_nodup.
Qed.

Lemma merge_keeps_first_seen_order_witness :
  Forall2 same_row
    [{| bm_name := "Glucose"; bm_value := "5.9 mmol/L"; bm_status := "High";
        bm_explanation := "As printed." |};
     {| bm_name := "Iron"; bm_value := "11 umol/L"; bm_status := "Low";
        bm_explanation := "As printed." |};
     {| bm_name := "Vitamin B12"; bm_value := "300 pg/mL"; bm_status := "Optimal";
        bm_explanation := "As printed." |}]
    (keep_first_occurrences biomarker_key
       (concat (map biomarkers [batch_12; batch_34])))
  ∧ [] = keep_first_occurrences recommendation_key
           (concat (map recommendations [batch_12; batch_34])).
Proof.
  apply (merge_keeps_first_seen_order [batch_12; batch_34]
           {| biomarkers :=
                [{| bm_name := "Glucose"; bm_value := "5.9 mmol/L"; bm_status := "High";
                    bm_explanation := "As printed." |};
                 {| bm_name := "Iron"; bm_value := "11 umol/L"; bm_status := "Low";
                    bm_explanation := "As printed." |};
                 {| bm_name := "Vitamin B12"; bm_value := "300 pg/mL";
                    bm_status := "Optimal"; bm_explanation := "As printed." |}];
              recommendations := [];
              summary := "Analyzed report pages in order across 2 batch(es). Pages 3-4 read.";
              disclaimer := DEFAULT_DISCLAIMER |}).
  vm_compute. reflexivity.
Defined.


(* ===================================================================== *)
(** ** Summary and disclaimer of a merge *)
(* ===================================================================== *)

Lemma append_empty_r (s : string) : s +:+ EmptyString = s.
Proof.
  induction s as [|a s IH]; [reflexivity|]. rewrite append_cons, IH. reflexivity.
Qed.

Lemma first_nonblank_all_blank texts dflt :
  Forall (λ t, strip t = EmptyString) texts → first_nonblank texts dflt = dflt.
Proof.
  induction 1 as [|t texts Ht _ IH]; simpl; [reflexivity|].
  rewrite Ht. simpl. exact IH.
Qed.

Lemma first_nonblank_first pre t post dflt :
  Forall (λ t, strip t = EmptyString) pre →
  strip t ≠ EmptyString →
  first_nonblank (pre ++ t :: post) dflt = strip t.
Proof.
  intros Hpre Ht. induction Hpre as [|p pre Hp _ IH]; simpl.
  - apply str_truthy_true in Ht. rewrite Ht. reflexivity.
  - rewrite Hp. simpl. exact IH.
Qed.

Lemma first_nonblank_filled texts dflt :
  dflt ≠ EmptyString → first_nonblank texts dflt ≠ EmptyString.
Proof.
  intros Hd. induction texts as [|t texts IH]; simpl; [exact Hd|].
  destruct (str_truthy (strip t)) eqn:E; [apply str_truthy_true; exact E | exact IH].
Qed.

Lemma first_nonblank_stripped texts dflt :
  strip dflt = dflt → strip (first_nonblank texts dflt) = first_nonblank texts dflt.
Proof.
  intros Hd. induction texts as [|t texts IH]; simpl; [exact Hd|].
  destruct (str_truthy (strip t)); [apply strip_idem | exact IH].
Qed.

(** X6. The merge raises "No chunk outputs to merge" on the empty list and
    on nothing else.  On a non-empty list the merged disclaimer is never
    empty: it is the stripped disclaimer of the first chunk, in order, that
    has one besides whitespace, and the fixed medical disclaimer when no
    chunk has. *)
Theorem merge_disclaimer (chunks : list ExtractionResult) :
  (_merge_normalized_outputs chunks = RaiseError "No chunk outputs to merge"
   ↔ chunks = [])
  ∧ (chunks ≠ [] →
     ∃ merged,
       _merge_normalized_outputs chunks = Return merged
       ∧ disclaimer merged ≠ EmptyString
       ∧ (Forall (λ c, strip (disclaimer c) = EmptyString) chunks →
          disclaimer merged = DEFAULT_DISCLAIMER)
       ∧ (∀ pre c post,
            chunks = pre ++ c :: post →
            Forall (λ c', strip (disclaimer c') = EmptyString) pre →
            strip (disclaimer c) ≠ EmptyString →
            disclaimer merged = strip (disclaimer c))).
Proof.
  split.
  - destruct chunks as [|c chunks]; [split; reflexivity|].
    rewrite merge_unfold. split; discriminate.
  - intros Hne. destruct chunks as [|c chunks]; [congruence|].
    eexists. split; [apply merge_unfold|].
    cbn [disclaimer _dedupe_normalized_output]. split; [|split].
    + apply first_nonblank_filled. discriminate.
    + intros Hall. apply first_nonblank_all_blank.
      apply Forall_fmap. exact Hall.
    + intros pre c0 post Hsplit Hpre Hc. rewrite Hsplit, map_app. simpl.
      apply first_nonblank_first; [|exact Hc].
      apply Forall_fmap. exact Hpre.
Qed.

Lemma merge_disclaimer_witness :
  ∃ merged,
    _merge_normalized_outputs [chunk_blank; batch_5] = Return merged
    ∧ disclaimer merged ≠ EmptyString
    ∧ (Forall (λ c, strip (disclaimer c) = EmptyString) [chunk_blank; batch_5] →
       disclaimer merged = DEFAULT_DISCLAIMER)
    ∧ (∀ pre c post,
         [chunk_blank; batch_5] = pre ++ c :: post →
         Forall (λ c', strip (disclaimer c') = EmptyString) pre →
         strip (disclaimer c) ≠ EmptyString →
         disclaimer merged = strip (disclaimer c)).
Proof.
  apply (proj2 (merge_disclaimer [chunk_blank; batch_5])). discriminate.
Defined.

(** X7. The merged summary is the batch preamble, which counts the chunks,
    followed by a space and the stripped summary of the last chunk that
    has one besides whitespace; it is the preamble alone when no chunk
    has. *)
Theorem merge_summary (chunks : list ExtractionResult) (merged : ExtractionResult) :
  _merge_normalized_outputs chunks = Return merged →
  (Forall (λ c, strip (summary c) = EmptyString) chunks →
   summary merged = batch_preamble (length chunks))
  ∧ (∀ pre c post,
       chunks = pre ++ c :: post →
       strip (summary c) ≠ EmptyString →
       Forall (λ c', strip (summary c') = EmptyString) post →
       summary merged = batch_preamble (length chunks) +:+ " " +:+ strip (summary c)).
Proof.
  intros Hm.
  assert (Hne : chunks ≠ []) by (intros ->; discriminate).
  rewrite (merge_nonempty chunks Hne) in Hm. injection Hm as <-.
  cbn [summary _dedupe_normalized_output]. split.
  - intros Hall. rewrite first_nonblank_all_blank.
    + simpl. apply append_empty_r.
    + apply Forall_fmap, Forall_rev. exact Hall.
  - intros pre c post Hsplit Hc Hpost.
    assert (Hfn : first_nonblank (map summary (rev chunks)) EmptyString
                  = strip (summary c)).
    { rewrite Hsplit.
      replace (rev (pre ++ c :: post)) with (rev post ++ c :: rev pre)
        by (rewrite rev_app_distr; simpl; rewrite <- app_assoc; reflexivity).
      rewrite map_app. simpl map.
      apply first_nonblank_first; [|exact Hc].
      apply Forall_fmap, Forall_rev. exact Hpost. }
    rewrite Hfn. apply str_truthy_true in Hc. rewrite Hc. reflexivity.
Qed.

Lemma merge_summary_witness :
  ∃ merged,
    _merge_normalized_outputs [batch_12; chunk_blank] = Return merged
    ∧ summary merged
      = "Analyzed report pages in order across 2 batch(es). Pages 1-2 read.".
Proof.
  eexists. split; [vm_compute; reflexivity|].
  apply (proj2 (merge_summary [batch_12; chunk_blank] _ eq_refl) [] batch_12 [chunk_blank]).
  - reflexivity.
  - discriminate.
  - repeat constructor.
Defined.

(** X8. The merge loses no row when no two rows of the chunks share a
    case-insensitive (name, value) key and no two recommendations share a
    (name, protocol) key: the merged biomarkers and recommendations are
    then the rows of the chunks, chunk after chunk, unchanged. *)
Theorem merge_lossless (chunks : list ExtractionResult) :
  chunks ≠ [] →
  NoDup (map biomarker_key (concat (map biomarkers chunks))) →
  NoDup (map recommendation_key (concat (map recommendations chunks))) →
  ∃ merged,
    _merge_normalized_outputs chunks = Return merged
    ∧ biomarkers merged = concat (map biomarkers chunks)
    ∧ recommendations merged = concat (map recommendations chunks).
Proof.
  intros Hne Hb Hr. eexists. split; [apply merge_nonempty; exact Hne|].
  assert (Ht : NoDup (map biomarker_merge_key (concat (map biomarkers chunks)))).
  { revert Hb. generalize (concat (map biomarkers chunks)). intros l.
    induction l as [|x l IH]; simpl; [constructor|].
    rewrite !NoDup_cons. intros [Hx Hl]. split; [|auto].
    rewrite list_elem_of_fmap. intros (y & Hk & Hy). apply Hx.
    apply list_elem_of_fmap. exists y. split; [|exact Hy].
    apply merge_key_refines. exact Hk. }
  cbn [biomarkers recommendations _dedupe_normalized_output].
  rewrite (keep_first_id _ _ Ht), (keep_first_id _ _ Hr).
  rewrite (dedupe_biomarkers_loop_id _ ∅ [] seen_inv_empty Hb).
  rewrite keep_unseen_first, (keep_first_id _ _ Hr). split; reflexivity.
Qed.

Lemma merge_lossless_witness :
  ∃ merged,
    _merge_normalized_outputs [batch_12; batch_5] = Return merged
    ∧ biomarkers merged = concat (map biomarkers [batch_12; batch_5])
    ∧ recommendations merged = concat (map recommendations [batch_12; batch_5]).
Proof.
  apply (merge_lossless [batch_12; batch_5]).
  - discriminate.
  - apply (@bool_decide_unpack _ (NoDup_dec _)). vm_compute. exact I.
  - apply (@bool_decide_unpack _ (NoDup_dec _)). vm_compute. exact I.
Defined.


(* ===================================================================== *)
(** ** The model chains *)
(* ===================================================================== *)

Lemma append_missing_spec chain : ∀ acc : list string,
  append_missing chain acc
  = acc ++ filter (λ m, m ∉ acc) (keep_first_occurrences id chain).
Proof.
  induction chain as [|model rest IH]; intros acc; simpl.
  - rewrite filter_nil, app_nil_r. reflexivity.
  - rewrite filter_cons. case_bool_decide as Hin.
    all: rewrite IH.
    + destruct (decide (model ∉ acc)); [contradiction|].
      f_equal.
      rewrite list_filter_filter. apply list_filter_iff. intros x. unfold id.
      split; [|tauto]. intros Hx. split; [exact Hx | congruence].
    + destruct (decide (model ∉ acc)); [|contradiction].
      rewrite <- app_assoc. simpl. do 2 f_equal.
      rewrite list_filter_filter. apply list_filter_iff. intros x. unfold id.
      rewrite elem_of_app, list_elem_of_singleton. tauto.
Qed.

Lemma keep_first_id_elem (chain : list string) m :
  m ∈ keep_first_occurrences id chain ↔ m ∈ chain.
Proof.
  split; [apply keep_first_sub|]. intros Hm.
  destruct (keep_first_covers id chain m Hm) as (y & Hy & Hk).
  unfold id in Hk. subst. exact Hy.
Qed.

Lemma provider_chain_filled env m :
  m ∈ _active_provider_model_chain env → strip m ≠ EmptyString.
Proof.
  unfold _active_provider_model_chain. intros Hin.
  apply list_elem_of_filter in Hin as [Ht _]. apply str_truthy_true in Ht. exact Ht.
Qed.

(** X9. The chain used in a given mode holds exactly the models of the
    provider chain, none of them blank.  Outside OCR-only mode it is the
    provider chain itself.  In OCR-only mode it starts with the models
    whose name has "gemma" or has neither "vl" nor "vision", in provider
    order, and goes on with each remaining model once. *)
Theorem mode_chain_reorders (env : Env) :
  let chain := _active_provider_model_chain env in
  let mode := _active_provider_model_chain_for_mode env in
  (AI_OCR_ONLY_MODE env = false → mode = chain)
  ∧ (AI_OCR_ONLY_MODE env = true →
     ∃ rest,
       mode = filter (λ m, text_first_model m = true) chain ++ rest
       ∧ NoDup rest
       ∧ ∀ m, m ∈ rest ↔ m ∈ chain ∧ text_first_model m = false)
  ∧ (∀ m, m ∈ mode ↔ m ∈ chain)
  ∧ Forall (λ m, strip m ≠ EmptyString) mode.
Proof.
  intros chain mode.
  assert (Hocr : AI_OCR_ONLY_MODE env = true →
            mode = filter (λ m, text_first_model m = true) chain
                   ++ filter (λ m, m ∉ filter (λ m, text_first_model m = true) chain)
                        (keep_first_occurrences id chain)).
  { intros Ho. unfold mode, _active_provider_model_chain_for_mode. rewrite Ho. simpl negb.
    cbv iota. fold chain. apply (append_missing_spec chain). }
  assert (Hplain : AI_OCR_ONLY_MODE env = false → mode = chain).
  { intros Ho. unfold mode, _active_provider_model_chain_for_mode. rewrite Ho. reflexivity. }
  assert (Hrest : ∀ m, m ∈ filter (λ m, m ∉ filter (λ m, text_first_model m = true) chain)
                              (keep_first_occurrences id chain)
                       ↔ m ∈ chain ∧ text_first_model m = false).
  { intros m. rewrite list_elem_of_filter, keep_first_id_elem, list_elem_of_filter.
    split.
    - intros [Hn Hc]. split; [exact Hc|].
      destruct (text_first_model m) eqn:E; [|reflexivity]. exfalso. apply Hn. auto.
    - intros [Hc Hf]. split; [|exact Hc]. intros [Ht _]. congruence. }
  assert (Hsame : ∀ m, m ∈ mode ↔ m ∈ chain).
  { intros m. destruct (AI_OCR_ONLY_MODE env) eqn:Ho.
    - rewrite (Hocr eq_refl), elem_of_app, Hrest, list_elem_of_filter.
      destruct (text_first_model m); intuition congruence.
    - rewrite (Hplain eq_refl). reflexivity. }
  split; [exact Hplain|]. split; [|split; [exact Hsame|]].
  - intros Ho. eexists. split; [apply Hocr; exact Ho|]. split; [|exact Hrest].
    apply NoDup_filter.
    pose proof (keep_first_nodup id chain) as Hnd. rewrite list_fmap_id in Hnd. exact Hnd.
  - apply Forall_forall. intros m Hm. apply (provider_chain_filled env), Hsame, Hm.
Qed.

Lemma mode_chain_reorders_witness :
  ∃ rest,
    _active_provider_model_chain_for_mode (ocr_only_env "sk-test")
    = filter (λ m, text_first_model m = true)
        (_active_provider_model_chain (ocr_only_env "sk-test")) ++ rest
    ∧ NoDup rest
    ∧ ∀ m, m ∈ rest ↔ m ∈ _active_provider_model_chain (ocr_only_env "sk-test")
                       ∧ text_first_model m = false.
Proof.
  apply (proj1 (proj2 (mode_chain_reorders (ocr_only_env "sk-test")))).
  reflexivity.
Defined.

Lemma append_if_new_nodup (c : bool) (x : string) (l : list string) :
  NoDup l →
  NoDup (if c && negb (bool_decide (x ∈ l)) then l ++ [x] else l).
Proof.
  intros Hl. destruct c; simpl; [|exact Hl]. case_bool_decide as Hin; simpl; [exact Hl|].
  apply NoDup_app. split; [exact Hl|]. split; [|apply NoDup_singleton].
  intros y Hy Hy'. apply list_elem_of_singleton in Hy'. subst. contradiction.
Qed.

Lemma append_if_new_length (c : bool) (x : string) (l : list string) :
  (length (if c && negb (bool_decide (x ∈ l)) then l ++ [x] else l) ≤ S (length l))%nat.
Proof.
  destruct (c && negb (bool_decide (x ∈ l))); [rewrite length_app; simpl|]; lia.
Qed.

(** X10. The reconciliation chain never tries a model twice and never
    holds an empty name; it has at most three models, and when the three
    OpenRouter names are non-empty and distinct it is the first fallback,
    the second fallback, then the primary. *)
Theorem recon_chain_distinct (env : Env) :
  NoDup (recon_models env)
  ∧ Forall (λ m, m ≠ EmptyString) (recon_models env)
  ∧ (length (recon_models env) ≤ 3)%nat
  ∧ (OPENROUTER_FALLBACK_MODEL env ≠ EmptyString →
     OPENROUTER_FALLBACK_MODEL_2 env ≠ EmptyString →
     OPENROUTER_PRIMARY_MODEL env ≠ EmptyString →
     NoDup [OPENROUTER_FALLBACK_MODEL env; OPENROUTER_FALLBACK_MODEL_2 env;
            OPENROUTER_PRIMARY_MODEL env] →
     recon_models env
     = [OPENROUTER_FALLBACK_MODEL env; OPENROUTER_FALLBACK_MODEL_2 env;
        OPENROUTER_PRIMARY_MODEL env]).
Proof.
  unfold recon_models. cbv zeta.
  generalize (OPENROUTER_FALLBACK_MODEL env) (OPENROUTER_FALLBACK_MODEL_2 env)
             (OPENROUTER_PRIMARY_MODEL env).
  intros f1 f2 p.
  set (l1 := if str_truthy f1 then [] ++ [f1] else []).
  assert (Hl1 : NoDup l1 ∧ (length l1 ≤ 1)%nat).
  { unfold l1. destruct (str_truthy f1); simpl; split;
      auto using NoDup_singleton, NoDup_nil_2. }
  destruct Hl1 as [Hn1 Hlen1].
  pose proof (append_if_new_nodup (str_truthy f2) f2 l1 Hn1) as Hn2.
  pose proof (append_if_new_length (str_truthy f2) f2 l1) as Hlen2.
  set (l2 := if str_truthy f2 && negb (bool_decide (f2 ∈ l1)) then l1 ++ [f2] else l1) in *.
  pose proof (append_if_new_nodup (str_truthy p) p l2 Hn2) as Hn3.
  pose proof (append_if_new_length (str_truthy p) p l2) as Hlen3.
  set (l3 := if str_truthy p && negb (bool_decide (p ∈ l2)) then l2 ++ [p] else l2) in *.
  split; [|split; [|split]].
  - apply NoDup_filter. exact Hn3.
  - apply Forall_forall. intros m Hm. apply list_elem_of_filter in Hm as [Ht _].
    apply str_truthy_true in Ht. exact Ht.
  - etransitivity; [apply length_filter|]. lia.
  - intros H1 H2 H3 Hnd.
    apply str_truthy_true in H1, H2, H3.
    apply NoDup_cons in Hnd as [Hf1 Hnd]. apply NoDup_cons in Hnd as [Hf2 _].
    assert (D12 : f2 ≠ f1) by (intros ->; apply Hf1; left).
    assert (D13 : p ≠ f1) by (intros ->; apply Hf1; right; left).
    assert (D23 : p ≠ f2) by (intros ->; apply Hf2; left).
    assert (E1 : l1 = [f1]) by (unfold l1; rewrite H1; reflexivity).
    assert (E2 : l2 = [f1; f2]).
    { unfold l2. rewrite E1, H2. simpl.
      rewrite bool_decide_eq_false_2; [reflexivity|].
      rewrite list_elem_of_singleton. exact D12. }
    assert (E3 : l3 = [f1; f2; p]).
    { unfold l3. rewrite E2, H3. simpl.
      rewrite bool_decide_eq_false_2; [reflexivity|].
      intros Hin. apply elem_of_cons in Hin as [Hin|Hin]; [contradiction|].
      apply list_elem_of_singleton in Hin. contradiction. }
    rewrite E3. apply filter_all. intros x Hx.
    apply elem_of_cons in Hx as [->|Hx]; [exact H1|].
    apply elem_of_cons in Hx as [->|Hx]; [exact H2|].
    apply list_elem_of_singleton in Hx. subst. exact H3.
Qed.

Lemma recon_chain_distinct_witness :
  recon_models abc_env = ["model-b"; "model-c"; "model-a"].
Proof.
  apply (proj2 (proj2 (proj2 (recon_chain_distinct abc_env)))); try discriminate.
  apply (@bool_decide_unpack _ (NoDup_dec _)). vm_compute. exact I.
Defined.

(* ===================================================================== *)
(** ** The batches *)
(* ===================================================================== *)

Lemma batch_size_pos env : (1 ≤ Z.to_nat (OPENROUTER_PAGE_BATCH_SIZE env))%nat.
Proof. unfold OPENROUTER_PAGE_BATCH_SIZE. lia. Qed.

Section Batches.
Context (env : Env) (images : list json).
Let n := length images.
Let B := Z.to_nat (OPENROUTER_PAGE_BATCH_SIZE env).

Lemma batches_images_from fuel : ∀ start,
  (n - start ≤ fuel)%nat →
  concat (map (λ s, slice images s (batch_stop env s n)) (range_from fuel start n B))
  = drop start images.
Proof.
  pose proof (batch_size_pos env) as HB. fold B in HB.
  induction fuel as [|fuel IH]; intros start Hfuel; simpl.
  - symmetry. apply drop_ge. fold n. lia.
  - destruct (start <? n)%nat eqn:E.
    + apply Nat.ltb_lt in E. simpl. rewrite IH by lia.
      unfold slice, batch_stop. fold B.
      destruct (decide (start + B ≤ n)%nat) as [Hle|Hgt].
      * replace (Nat.min (start + B) n - start)%nat with B by lia.
        rewrite <- (drop_drop images B start). apply take_drop.
      * rewrite (drop_ge images (start + B)) by (fold n; lia).
        rewrite app_nil_r. apply take_ge. rewrite length_drop. fold n. lia.
    + apply Nat.ltb_ge in E. symmetry. apply drop_ge. fold n. lia.
Qed.

Lemma batches_pages_from fuel : ∀ start,
  (n - start ≤ fuel)%nat →
  concat (map (λ s, batch_pages env s n) (range_from fuel start n B))
  = seq (start + 1) (n - start).
Proof.
  pose proof (batch_size_pos env) as HB. fold B in HB.
  induction fuel as [|fuel IH]; intros start Hfuel; simpl.
  - replace (n - start)%nat with 0%nat by lia. reflexivity.
  - destruct (start <? n)%nat eqn:E.
    + apply Nat.ltb_lt in E. simpl. rewrite IH by lia.
      unfold batch_pages, batch_stop. fold B.
      destruct (decide (start + B ≤ n)%nat) as [Hle|Hgt].
      * replace (Nat.min (start + B) n - start)%nat with B by lia.
        replace (n - start)%nat with (B + (n - (start + B)))%nat by lia.
        rewrite seq_app. do 2 f_equal. lia.
      * replace (Nat.min (start + B) n - start)%nat with (n - start)%nat by lia.
        replace (n - (start + B))%nat with 0%nat by lia.
        simpl. apply app_nil_r.
    + apply Nat.ltb_ge in E. replace (n - start)%nat with 0%nat by lia. reflexivity.
Qed.

End Batches.

(** X11. For every list of images and every batch size, the batches
    partition the images: joined in order they give back the images, none
    dropped, repeated or moved; their page labels joined in order are
    1, 2, ..., n; every batch holds at least one image and at most the
    batch size, with one label for each image. *)
Theorem batches_partition (env : Env) (images : list json) :
  concat (map fst (batches env images)) = images
  ∧ concat (map snd (batches env images)) = seq 1 (length images)
  ∧ Forall (λ batch,
              (1 ≤ length batch.1 ≤ Z.to_nat (OPENROUTER_PAGE_BATCH_SIZE env))%nat
              ∧ length batch.2 = length batch.1)
      (batches env images).
Proof.
  unfold batches, py_range. rewrite !map_map. simpl. split; [|split].
  - rewrite (batches_images_from env images (length images) 0) by lia. reflexivity.
  - rewrite (batches_pages_from env images (length images) 0) by lia.
    rewrite Nat.sub_0_r. reflexivity.
  - apply Forall_forall. intros batch Hin.
    apply list_elem_of_fmap in Hin as (s & -> & Hs).
    apply range_from_bound in Hs. simpl.
    pose proof (batch_size_pos env) as HB.
    unfold slice, batch_pages, batch_stop.
    rewrite length_seq, length_take, length_drop. lia.
Qed.


(* ===================================================================== *)
(** ** What a request does, whatever the remote side answers *)
(* ===================================================================== *)

Lemma normalize_result_canonical raw n :
  _normalize_ai_output raw = Return n → result_canonical n.
Proof.
  intros Hn. destruct (normalize_output_canonical _ _ Hn) as (Cb & Cr & Nb & Nr & _).
  repeat split; assumption.
Qed.

Lemma merge_result_canonical chunks merged :
  _merge_normalized_outputs chunks = Return merged →
  Forall result_canonical chunks →
  result_canonical merged.
Proof.
  intros Hm Hall. split; [eapply merge_keys_apart; eauto|].
  assert (Hne : chunks ≠ []) by (intros ->; discriminate).
  rewrite (merge_nonempty chunks Hne) in Hm. injection Hm as <-.
  cbn [biomarkers recommendations _dedupe_normalized_output]. split.
  - apply dedupe_biomarkers_canonical. apply Forall_forall. intros b Hb.
    apply keep_first_sub in Hb. apply list_elem_of_In, in_concat in Hb as (l & Hl & Hb).
    apply in_map_iff in Hl as (c & <- & Hc).
    rewrite Forall_forall in Hall. destruct (Hall c) as (_ & Cb & _).
    { apply list_elem_of_In. exact Hc. }
    rewrite Forall_forall in Cb. apply Cb, list_elem_of_In, Hb.
  - apply dedupe_recommendations_canonical. apply Forall_forall. intros b Hb.
    apply keep_first_sub in Hb. apply list_elem_of_In, in_concat in Hb as (l & Hl & Hb).
    apply in_map_iff in Hl as (c & <- & Hc).
    rewrite Forall_forall in Hall. destruct (Hall c) as (_ & _ & Cr).
    { apply list_elem_of_In. exact Hc. }
    rewrite Forall_forall in Cr. apply Cr, list_elem_of_In, Hb.
Qed.

Section Answers.
Context (env : Env) (remote : Oracle) (images : list json).

Lemma answers_ret {A} (a : A) log (Q : A → Prop) :
  Q a → answers_with env images (mret a) log Q.
Proof. intros Ha. exists a, []. rewrite app_nil_r. repeat split; [constructor | exact Ha]. Qed.

Lemma answers_bind {A B} (m : Run A) (k : A → Run B) log (Q : A → Prop) (R : B → Prop) :
  answers_with env images m log Q →
  (∀ a log', Q a → answers_with env images (k a) log' R) →
  answers_with env images (m ≫= k) log R.
Proof.
  intros (a & calls & Hm & Hc & Ha) Hk.
  destruct (Hk a (log ++ calls) Ha) as (b & calls' & Hkb & Hc' & Hb).
  exists b, (calls ++ calls'). rewrite (run_bind_return _ _ _ _ _ Hm), Hkb, app_assoc.
  repeat split; [apply Forall_app; split; assumption | exact Hb].
Qed.

Lemma answers_weaken {A} (m : Run A) log (Q R : A → Prop) :
  answers_with env images m log Q → (∀ a, Q a → R a) → answers_with env images m log R.
Proof. intros (a & calls & Hm & Hc & Ha) HQR. exists a, calls. auto. Qed.

Lemma extraction_calls_ok imgs pages total models :
  length pages = length imgs →
  (∀ img, img ∈ imgs → img ∈ images) →
  (∀ m, m ∈ models → m ∈ model_chain env) →
  Forall (call_ok env images) (map (extraction_call imgs pages total) models).
Proof.
  intros Hlen Hsub Hin. apply Forall_forall. intros c Hc.
  apply list_elem_of_In, in_map_iff in Hc as (m & <- & Hm).
  unfold call_ok. simpl. repeat split; auto. apply Hin, list_elem_of_In, Hm.
Qed.

Lemma chain_answers imgs pages total log :
  length pages = length imgs →
  (∀ img, img ∈ imgs → img ∈ images) →
  answers_with env images (run_model_chain_for_images env remote imgs pages total) log
    (λ out, ∀ n, out.1 = Some n → result_canonical n).
Proof.
  intros Hlen Hsub. unfold run_model_chain_for_images.
  destruct (chain_first_success remote (extraction_call imgs pages total) 300
              (model_chain env) log)
    as [(errs & Hf)|(pre & model & post & errs & raw & n & Hsplit & Hf & Hr & Hn)].
  - eexists _, _. split; [apply (run_model_chain_loop_fails _ _ _ _ _ _ [] _ Hf)|].
    split; [apply extraction_calls_ok; auto | discriminate].
  - rewrite Hsplit.
    eexists _, _. split; [apply (run_model_chain_loop_succeeds _ _ _ _ _ _ [] _ _ _ _ _ Hf Hr Hn)|].
    split.
    + change (map (extraction_call imgs pages total) pre ++ [extraction_call imgs pages total model])
        with (map (extraction_call imgs pages total) pre
              ++ map (extraction_call imgs pages total) [model]).
      rewrite <- map_app. apply extraction_calls_ok; auto.
      intros m Hm. rewrite Hsplit. apply elem_of_app in Hm as [Hm|Hm].
      * apply elem_of_app. left. exact Hm.
      * apply list_elem_of_singleton in Hm. subst. apply elem_of_app. right. left.
    + simpl. intros ? [= <-]. eapply normalize_result_canonical; eauto.
Qed.

Lemma reconciliation_calls_ok imgs pages total extracted models :
  AI_VISUAL_ONLY_MODE env = false →
  OPENROUTER_ENABLE_RECONCILIATION env = true →
  length pages = length imgs →
  (∀ img, img ∈ imgs → img ∈ images) →
  (∀ m, m ∈ models → m ∈ recon_models env) →
  Forall (call_ok env images) (map (reconciliation_call imgs pages total extracted) models).
Proof.
  intros Hv He Hlen Hsub Hin. apply Forall_forall. intros c Hc.
  apply list_elem_of_In, in_map_iff in Hc as (m & <- & Hm).
  unfold call_ok. simpl. repeat split; auto. apply Hin, list_elem_of_In, Hm.
Qed.

Lemma reconciliation_answers imgs pages total extracted log :
  length pages = length imgs →
  (∀ img, img ∈ imgs → img ∈ images) →
  result_canonical extracted →
  answers_with env images
    (run_reconciliation_chain_for_images env remote imgs pages total extracted) log
    (λ out, result_canonical out.1).
Proof.
  intros Hlen Hsub Hk. unfold run_reconciliation_chain_for_images.
  destruct (AI_VISUAL_ONLY_MODE env) eqn:Hv; simpl.
  { apply answers_ret. exact Hk. }
  destruct (OPENROUTER_ENABLE_RECONCILIATION env) eqn:He; simpl;
    [|apply answers_ret; exact Hk].
  destruct (chain_first_success remote (reconciliation_call imgs pages total extracted) 300
              (recon_models env) log)
    as [(errs & Hf)|(pre & model & post & errs & raw & n & Hsplit & Hf & Hr & Hn)].
  - eexists _, _. split; [apply (run_reconciliation_loop_fails _ _ _ _ _ _ _ [] _ Hf)|].
    split; [apply reconciliation_calls_ok; auto | exact Hk].
  - rewrite Hsplit. eexists _, _.
    split; [apply (run_reconciliation_loop_succeeds _ _ _ _ _ _ _ [] _ _ _ _ _ Hf Hr Hn)|].
    split.
    + change (map (reconciliation_call imgs pages total extracted) pre
              ++ [reconciliation_call imgs pages total extracted model])
        with (map (reconciliation_call imgs pages total extracted) pre
              ++ map (reconciliation_call imgs pages total extracted) [model]).
      rewrite <- map_app. apply reconciliation_calls_ok; auto.
      intros m Hm. rewrite Hsplit. apply elem_of_app in Hm as [Hm|Hm].
      * apply elem_of_app. left. exact Hm.
      * apply list_elem_of_singleton in Hm. subst. apply elem_of_app. right. left.
    + simpl. eapply normalize_result_canonical; eauto.
Qed.

Lemma reconcile_answers imgs pages total extracted base log :
  length pages = length imgs →
  (∀ img, img ∈ imgs → img ∈ images) →
  result_canonical extracted →
  answers_with env images
    (reconcile_and_return env remote imgs pages total extracted base) log
    (λ out, ∃ r, out.1 = Some r ∧ result_canonical r).
Proof.
  intros Hlen Hsub Hk. unfold reconcile_and_return.
  eapply answers_bind; [apply reconciliation_answers; assumption|].
  intros [reconciled meta] log' Hr. simpl in Hr.
  destruct (meta_truthy meta); apply answers_ret; simpl; eauto.
Qed.

Lemma retry_loop_answers remaining : ∀ i imgs pages total normalized trail chunks models log,
  length pages = length imgs →
  (∀ img, img ∈ imgs → img ∈ images) →
  (∀ img, img ∈ remaining → img ∈ images) →
  result_canonical normalized →
  Forall result_canonical chunks →
  (i + length remaining ≤ length pages)%nat →
  chunks ≠ [] ∨ remaining ≠ [] →
  answers_with env images
    (completeness_retry_loop env remote remaining i imgs pages total normalized trail
       chunks models) log
    (λ out, ∃ r, out.1 = Some r ∧ result_canonical r).
Proof.
  induction remaining as [|img rest IH];
    intros i imgs pages total normalized trail chunks models log
           Hlen Hsub Hrem Hk Hchunks Hi Hne.
  - destruct Hne as [Hne|Hne]; [|congruence].
    destruct (merge_returns chunks Hne) as (merged & Hm & _).
    simpl.
    assert (Hlift : ∀ log0, lift_exc (_merge_normalized_outputs chunks) log0
                            = (Return merged, log0)).
    { intros log0. unfold lift_exc. rewrite Hm. reflexivity. }
    eapply answers_bind.
    + exists merged, []. rewrite app_nil_r. split; [apply Hlift|].
      split; [constructor|]. exact (merge_result_canonical _ _ Hm Hchunks).
    + intros a log' Ha. apply reconcile_answers; assumption.
  - simpl. destruct (pages !! i) as [page|] eqn:Ep.
    + eapply answers_bind.
      * apply (chain_answers [img] [page] total log); [reflexivity|].
        intros x Hx. apply list_elem_of_singleton in Hx. subst. apply Hrem. left.
      * intros [single single_model] log' Hs. simpl in Hs.
        destruct single as [single|].
        -- apply IH; try assumption.
           ++ intros x Hx. apply Hrem. right. exact Hx.
           ++ apply Forall_app. split; [exact Hchunks|]. constructor; [auto | constructor].
           ++ simpl in Hi. lia.
           ++ left. intros Happ. apply app_eq_nil in Happ as [_ Happ]. discriminate.
        -- apply reconcile_answers; assumption.
    + apply lookup_ge_None in Ep. simpl in Hi. lia.
Qed.

Lemma batch_answers imgs pages total log :
  length pages = length imgs →
  (∀ img, img ∈ imgs → img ∈ images) →
  answers_with env images (run_with_completeness_retry env remote imgs pages total) log
    (λ out, ∀ r, out.1 = Some r → result_canonical r).
Proof.
  intros Hlen Hsub. unfold run_with_completeness_retry.
  eapply answers_bind; [apply chain_answers; assumption|].
  intros [normalized trail] log' Hn. simpl in Hn.
  destruct normalized as [normalized|]; [|apply answers_ret; discriminate].
  specialize (Hn normalized eq_refl).
  destruct (completeness_retry_triggered env normalized imgs) eqn:Et; simpl.
  - eapply answers_weaken.
    + apply retry_loop_answers; try assumption; [constructor | simpl; lia |].
      right. intros ->. apply completeness_retry_triggered_iff in Et. simpl in Et. lia.
    + intros out (r & Hr & Hc) r' Hr'. congruence.
  - eapply answers_weaken; [apply reconcile_answers; assumption|].
    intros out (r & Hr & Hc) r' Hr'. congruence.
Qed.

Lemma synthesis_calls_ok extracted models :
  (∀ m, m ∈ models → m ∈ _active_provider_model_chain_for_mode env) →
  Forall (call_ok env images) (map (synthesis_call extracted) models).
Proof.
  intros Hin. apply Forall_forall. intros c Hc.
  apply list_elem_of_In, in_map_iff in Hc as (m & <- & Hm).
  unfold call_ok. simpl. repeat split; auto.
  - apply Hin, list_elem_of_In, Hm.
  - intros img Himg. inversion Himg.
Qed.

Lemma synthesize_answers extracted meta0 log :
  result_canonical extracted →
  answers_with env images (synthesize_and_return env remote extracted meta0) log
    (λ out, ∃ r, out.1 = Some r ∧ result_canonical r
                 ∧ biomarkers r = biomarkers extracted).
Proof.
  intros ([Nb Nr] & Cb & Cr).
  destruct (chain_first_success remote (synthesis_call extracted) 220
              (_active_provider_model_chain_for_mode env) log)
    as [(errs & Hf)|(pre & model & post & errs & raw & n & Hsplit & Hf & Hr & Hn)].
  - destruct (synthesis_fails env remote extracted meta0 log errs Hf) as [_ Hret].
    eexists _, _. split; [exact Hret|]. split; [apply synthesis_calls_ok; auto|].
    simpl. eexists. repeat split; eauto.
  - destruct (synthesis_succeeds env remote extracted meta0 log
                pre model post errs raw n Nb Hsplit Hf Hr Hn) as [_ Hret].
    eexists _, _. split; [exact Hret|]. split.
    + change (map (synthesis_call extracted) pre ++ [synthesis_call extracted model])
        with (map (synthesis_call extracted) pre ++ map (synthesis_call extracted) [model]).
      rewrite <- map_app. apply synthesis_calls_ok.
      intros m Hm. rewrite Hsplit. apply elem_of_app in Hm as [Hm|Hm].
      * apply elem_of_app. left. exact Hm.
      * apply list_elem_of_singleton in Hm. subst. apply elem_of_app. right. left.
    + destruct (normalize_result_canonical _ _ Hn) as ([_ Nr'] & _ & Cr').
      simpl. eexists. split; [reflexivity|]. repeat split; assumption.
Qed.

Lemma slice_sub (start stop : nat) img :
  img ∈ slice images start stop → img ∈ images.
Proof.
  unfold slice. intros Hin.
  apply (subseteq_drop start images), (subseteq_take (stop - start)). exact Hin.
Qed.

Lemma batch_loop_answers starts : ∀ chunks hits log,
  Forall (λ start, (start < length images)%nat) starts →
  Forall result_canonical chunks →
  chunks ≠ [] ∨ starts ≠ [] →
  answers_with env images
    (batch_loop env remote starts images (length images) chunks hits) log
    (λ out, ∀ r, out.1 = Some r → result_canonical r).
Proof.
  induction starts as [|start rest IH]; intros chunks hits log Hall Hchunks Hne.
  - destruct Hne as [Hne|Hne]; [|congruence].
    destruct (merge_returns chunks Hne) as (merged & Hm & _).
    unfold answers_with. rewrite (batch_loop_done _ _ _ _ _ _ _ merged Hm).
    eapply answers_weaken.
    + apply synthesize_answers. exact (merge_result_canonical _ _ Hm Hchunks).
    + intros out (r & Hr & Hc & _) r' Hr'. congruence.
  - inversion Hall as [|? ? Hstart Hrest]; subst. simpl.
    eapply answers_bind.
    + apply batch_answers; [apply batch_lengths; exact Hstart|].
      intros img. apply slice_sub.
    + intros [normalized trail] log' Hn. simpl in Hn.
      destruct normalized as [c|]; [|apply answers_ret; discriminate].
      apply IH; [exact Hrest| |].
      * apply Forall_app. split; [exact Hchunks|]. constructor; [auto | constructor].
      * left. intros Happ. apply app_eq_nil in Happ as [_ Happ]. discriminate.
Qed.

End Answers.

Lemma request_answers env remote payload log :
  answers_with env (request_images payload)
    (maybe_generate_with_openrouter env remote payload) log
    (λ out, ∀ r, out.1 = Some r → result_canonical r).
Proof.
  unfold maybe_generate_with_openrouter.
  destruct (negb (str_truthy (_active_provider_api_key env))).
  { apply answers_ret. discriminate. }
  cbv zeta. fold (request_images payload).
  match goal with |- context [if ?c then _ else _] => destruct c end.
  { apply answers_ret. discriminate. }
  destruct (negb (AI_OCR_ONLY_MODE env)
            && (OPENROUTER_PAGE_BATCH_SIZE env <? Z.of_nat (length (request_images payload))))
    eqn:Eb.
  - apply batch_loop_answers; [|constructor|].
    + apply Forall_forall. intros x Hx. eapply range_from_bound; eauto.
    + right. apply andb_true_iff in Eb as [_ Eb]. apply Z.ltb_lt in Eb.
      unfold OPENROUTER_PAGE_BATCH_SIZE in Eb.
      destruct (length (request_images payload)) as [|k] eqn:El; [lia|].
      unfold py_range. simpl. discriminate.
  - eapply answers_bind.
    + apply batch_answers; [apply length_seq | auto].
    + intros [normalized trail] log' Hn. simpl in Hn.
      destruct normalized as [normalized|]; [|apply answers_ret; discriminate].
      eapply answers_weaken; [apply synthesize_answers; auto|].
      intros out (r & Hr & Hc & _) r' Hr'. congruence.
Qed.


(** X12. Whatever the configuration, the request and the answers of the
    remote side, [maybe_generate_with_openrouter] does not raise: the merge
    is never handed an empty list and no page label is ever missing.  It
    returns a result or none, with a diagnostic, and only adds calls to the
    log.  A result it returns has no two biomarkers with the same
    case-insensitive (name, value), no two recommendations with the same
    (name, protocol), and every field of every entry stripped and
    non-empty. *)
Theorem request_always_answers (env : Env) (remote : Oracle) (payload : dict)
    (log : CallLog) :
  ∃ result diagnostic calls,
    maybe_generate_with_openrouter env remote payload log
    = (Return (result, diagnostic), log ++ calls)
    ∧ ∀ r, result = Some r →
           keys_apart r
           ∧ Forall biomarker_canonical (biomarkers r)
           ∧ Forall recommendation_canonical (recommendations r).
Proof.
  destruct (request_answers env remote payload log) as ([result diag] & calls & Hrun & _ & Hr).
  exists result, diag, calls. split; [exact Hrun|]. exact Hr.
Qed.

(** X13. Every remote call of a request is a call the configuration
    allows: an extraction call goes to a model of the extraction chain, a
    reconciliation call to a model of the reconciliation chain and a
    synthesis call to a model of the mode chain; a synthesis call carries
    no image; every image sent is an image of the request and comes with
    exactly one page label.  In visual-only mode, or with reconciliation
    switched off, no reconciliation call is made at all. *)
Theorem request_calls_allowed (env : Env) (remote : Oracle) (payload : dict)
    (log : CallLog) :
  ∃ calls,
    (maybe_generate_with_openrouter env remote payload log).2 = log ++ calls
    ∧ Forall (call_ok env (request_images payload)) calls
    ∧ (AI_VISUAL_ONLY_MODE env = true ∨ OPENROUTER_ENABLE_RECONCILIATION env = false →
       Forall (λ c, ∀ extracted, call_prompt c ≠ ReconciliationPrompt extracted) calls).
Proof.
  destruct (request_answers env remote payload log) as (out & calls & Hrun & Hok & _).
  exists calls. rewrite Hrun. split; [reflexivity|]. split; [exact Hok|].
  intros Hoff. eapply Forall_impl; [exact Hok|].
  intros c (Hc & _) extracted Hp. rewrite Hp in Hc. destruct Hc as (Hv & He & _).
  destruct Hoff; congruence.
Qed.

Lemma request_calls_allowed_witness :
  ∃ calls,
    (maybe_generate_with_openrouter floor2_env remote_sparse two_images []).2 = [] ++ calls
    ∧ Forall (λ c, ∀ extracted, call_prompt c ≠ ReconciliationPrompt extracted) calls.
Proof.
  destruct (request_calls_allowed floor2_env remote_sparse two_images [])
    as (calls & Hlog & _ & Hoff).
  exists calls. split; [exact Hlog|]. apply Hoff. right. reflexivity.
Defined.

(* ---------------------------------------------------------------------- *)
(** *** The trail of a batch *)

Lemma prefix_refl (s : string) : String.prefix s s = true.
Proof.
  induction s as [|a s IH]; [reflexivity|]. simpl.
  destruct (Ascii.ascii_dec a a); [exact IH | congruence].
Qed.

Lemma prefix_append_l (a x t : string) :
  String.prefix (a +:+ x) t = true → String.prefix a t = true.
Proof.
  revert t. induction a as [|c a IH]; intros t; [destruct t; reflexivity|].
  rewrite append_cons. destruct t as [|d t]; simpl; [discriminate|].
  destruct (Ascii.ascii_dec c d); [apply IH | discriminate].
Qed.

Lemma reconcile_trail env remote imgs pages total extracted base log out log' :
  reconcile_and_return env remote imgs pages total extracted base log = (Return out, log') →
  String.prefix base out.2 = true.
Proof.
  unfold reconcile_and_return, mbind, Run_bind.
  destruct (run_reconciliation_chain_for_images env remote imgs pages total extracted log)
    as [[[reconciled meta]|msg] log1]; [|discriminate].
  destruct (meta_truthy meta); intros [= <- _]; simpl;
    [apply prefix_append | apply prefix_refl].
Qed.

Lemma retry_loop_trail env remote remaining : ∀ i imgs pages total normalized trail
    chunks models log out log',
  completeness_retry_loop env remote remaining i imgs pages total normalized trail
    chunks models log = (Return out, log') →
  String.prefix trail out.2 = true.
Proof.
  induction remaining as [|img rest IH];
    intros i imgs pages total normalized trail chunks models log out log'; simpl.
  - unfold mbind, Run_bind at 1, lift_exc.
    destruct (_merge_normalized_outputs chunks) as [merged|msg]; [|discriminate].
    intros Hrun. apply reconcile_trail in Hrun. eapply prefix_append_l; eauto.
  - destruct (pages !! i) as [page|]; [|discriminate].
    unfold mbind, Run_bind at 1.
    destruct (run_model_chain_for_images env remote [img] [page] total log)
      as [[[single single_model]|msg] log1]; [|discriminate].
    destruct single as [single|]; [apply IH | apply reconcile_trail].
Qed.

(** X14. A batch whose extraction succeeded is never lost: whatever happens
    in the single-image retries and in the reconciliation,
    [run_with_completeness_retry] returns a result, canonical as above,
    and a trail that begins with the identifier of the model that
    extracted the batch. *)
Theorem extracted_batch_is_kept (env : Env) (remote : Oracle) (imgs : list json)
    (pages : list nat) (total : nat) (log log1 : CallLog) (normalized : ExtractionResult)
    (model : string) :
  length pages = length imgs →
  run_model_chain_for_images env remote imgs pages total log
  = (Return (Some normalized, model), log1) →
  ∃ r trail log',
    run_with_completeness_retry env remote imgs pages total log
    = (Return (Some r, trail), log')
    ∧ result_canonical r
    ∧ String.prefix model trail = true.
Proof.
  intros Hlen Hrun.
  destruct (chain_answers env remote imgs imgs pages total log Hlen (λ _ H, H))
    as (out & calls & Hrun' & _ & Hcan).
  rewrite Hrun in Hrun'. injection Hrun' as <- _. specialize (Hcan normalized eq_refl).
  unfold run_with_completeness_retry. rewrite (run_bind_return _ _ _ _ _ Hrun).
  destruct (completeness_retry_triggered env normalized imgs) eqn:Et; simpl.
  - destruct (retry_loop_answers env remote imgs imgs 0 imgs pages total normalized model
                [] [] log1 Hlen (λ _ H, H) (λ _ H, H) Hcan (Forall_nil_2 _))
      as ([res trail] & calls' & Hloop & _ & r & Hr & Hk).
    + simpl. lia.
    + right. intros ->. apply completeness_retry_triggered_iff in Et. simpl in Et. lia.
    + simpl in Hr. subst res. exists r, trail, (log1 ++ calls').
      split; [exact Hloop|]. split; [exact Hk|].
      apply (retry_loop_trail _ _ _ _ _ _ _ _ _ _ _ _ _ _ Hloop).
  - destruct (reconcile_answers env remote imgs imgs pages total normalized model log1
                Hlen (λ _ H, H) Hcan)
      as ([res trail] & calls' & Hrec & _ & r & Hr & Hk).
    simpl in Hr. subst res. exists r, trail, (log1 ++ calls').
    split; [exact Hrec|]. split; [exact Hk|].
    apply (reconcile_trail _ _ _ _ _ _ _ _ _ _ Hrec).
Qed.

Lemma extracted_batch_is_kept_witness :
  ∃ r trail log',
    run_with_completeness_retry floor2_env remote_sparse [JStr "p1"; JStr "p2"]
      [1; 2]%nat 2 []
    = (Return (Some r, trail), log')
    ∧ result_canonical r
    ∧ String.prefix "model-a" trail = true.
Proof.
  apply (extracted_batch_is_kept floor2_env remote_sparse [JStr "p1"; JStr "p2"]
           [1; 2]%nat 2 []
           [extraction_call [JStr "p1"; JStr "p2"] [1; 2]%nat 2 "model-a"]
           {| biomarkers :=
                [{| bm_name := "Glucose"; bm_value := "5"; bm_status := "High";
                    bm_explanation := "No explanation provided." |}];
              recommendations := []; summary := "fine";
              disclaimer := DEFAULT_DISCLAIMER |}).
  - reflexivity.
  - vm_compute. reflexivity.
Defined.


(* ===================================================================== *)
(** ** Failures of the extraction *)
(* ===================================================================== *)

Lemma run_with_fails env remote imgs pages total log errs :
  chain_failures remote (extraction_call imgs pages total) 300 log (model_chain env)
  = Some errs →
  run_with_completeness_retry env remote imgs pages total log
  = (Return (None, join " | " errs),
     log ++ map (extraction_call imgs pages total) (model_chain env)).
Proof.
  intros Hf. unfold run_with_completeness_retry, run_model_chain_for_images.
  rewrite (run_bind_return _ _ _ _ _
             (run_model_chain_loop_fails _ _ _ _ _ _ [] _ Hf)).
  reflexivity.
Qed.

(** X15. A request that is not batched fails as a whole when every model of
    the extraction chain fails: it returns no result and the diagnostic
    "{provider} failed. " followed by the joined errors, after one call to
    each model of the chain and no other call: neither reconciliation nor
    synthesis is attempted. *)
Theorem request_fails_with_extraction (env : Env) (remote : Oracle) (payload : dict)
    (log : CallLog) (errs : list string) :
  let images := request_images payload in
  let mk := extraction_call images (seq 1 (length images)) (length images) in
  str_truthy (_active_provider_api_key env) = true →
  AI_OCR_ONLY_MODE env = false →
  Z.of_nat (length images) ≤ OPENROUTER_PAGE_BATCH_SIZE env →
  chain_failures remote mk 300 log (model_chain env) = Some errs →
  maybe_generate_with_openrouter env remote payload log
  = (Return (None, provider_label env +:+ " failed. " +:+ join " | " errs),
     log ++ map mk (model_chain env)).
Proof.
  intros images mk Hkey Hocr Hsize Hf. subst mk images.
  unfold maybe_generate_with_openrouter. rewrite Hkey. cbv zeta.
  fold (request_images payload). rewrite Hocr.
  apply Z.ltb_ge in Hsize. rewrite Hsize. cbn [negb andb].
  rewrite (run_bind_return _ _ _ _ _ (run_with_fails env remote _ _ _ log errs Hf)).
  reflexivity.
Qed.

Lemma request_fails_with_extraction_witness :
  maybe_generate_with_openrouter abc_env remote_down two_images []
  = (Return (None,
             "OpenRouter failed. model-a: timed out | model-b: timed out | model-c: timed out"),
     map (extraction_call [JStr "p1"; JStr "p2"] [1; 2]%nat 2)
       ["model-a"; "model-b"; "model-c"]).
Proof.
  apply (request_fails_with_extraction abc_env remote_down two_images []
           ["model-a: timed out"; "model-b: timed out"; "model-c: timed out"]).
  - reflexivity.
  - reflexivity.
  - vm_compute. discriminate.
  - reflexivity.
Defined.

(** X16. In batch mode a failed batch fails the request at once.  At any
    point of the loop, when the extraction of the current batch returns no
    result, the loop returns no result, whatever the earlier batches
    gave, with the diagnostic "{provider} batch mode failed. pages [..]: "
    and the error of that batch, and the log is the log of that failure: no
    later batch is started.  So a request whose first batch cannot be
    extracted by any model makes one call per model of the chain, all with
    the images of the first batch. *)
Theorem failed_batch_fails_request (env : Env) (remote : Oracle) :
  (∀ start rest images total chunks hits log err log1,
     run_with_completeness_retry env remote
       (slice images start (batch_stop env start total)) (batch_pages env start total)
       total log
     = (Return (None, err), log1) →
     batch_loop env remote (start :: rest) images total chunks hits log
     = (Return (None,
                provider_label env +:+ " batch mode failed. pages "
                +:+ str_of_pages (batch_pages env start total) +:+ ": " +:+ err),
        log1))
  ∧ (∀ payload log errs,
       let images := request_images payload in
       let n := length images in
       let mk := extraction_call (slice images 0 (batch_stop env 0 n))
                   (batch_pages env 0 n) n in
       str_truthy (_active_provider_api_key env) = true →
       AI_OCR_ONLY_MODE env = false →
       OPENROUTER_PAGE_BATCH_SIZE env < Z.of_nat n →
       chain_failures remote mk 300 log (model_chain env) = Some errs →
       maybe_generate_with_openrouter env remote payload log
       = (Return (None,
                  provider_label env +:+ " batch mode failed. pages "
                  +:+ str_of_pages (batch_pages env 0 n) +:+ ": " +:+ join " | " errs),
          log ++ map mk (model_chain env))).
Proof.
  assert (Hstep : ∀ start rest images total chunks hits log err log1,
     run_with_completeness_retry env remote
       (slice images start (batch_stop env start total)) (batch_pages env start total)
       total log
     = (Return (None, err), log1) →
     batch_loop env remote (start :: rest) images total chunks hits log
     = (Return (None,
                provider_label env +:+ " batch mode failed. pages "
                +:+ str_of_pages (batch_pages env start total) +:+ ": " +:+ err),
        log1)).
  { intros start rest images total chunks hits log err log1 Hrun.
    simpl. rewrite (run_bind_return _ _ _ _ _ Hrun). reflexivity. }
  split; [exact Hstep|].
  intros payload log errs images n mk Hkey Hocr Hsize Hf. subst mk n images.
  unfold maybe_generate_with_openrouter. rewrite Hkey. cbv zeta.
  fold (request_images payload). rewrite Hocr.
  assert (Hrange : ∃ rest, py_range 0 (length (request_images payload))
                             (Z.to_nat (OPENROUTER_PAGE_BATCH_SIZE env))
                           = 0%nat :: rest).
  { unfold OPENROUTER_PAGE_BATCH_SIZE in Hsize.
    unfold py_range. destruct (length (request_images payload)) as [|k]; [lia|].
    simpl. eauto. }
  apply Z.ltb_lt in Hsize. rewrite Hsize. cbn [negb andb].
  destruct Hrange as (rest & ->).
  apply Hstep. apply run_with_fails. exact Hf.
Qed.

Lemma failed_batch_fails_request_witness :
  maybe_generate_with_openrouter abc_env remote_down five_images []
  = (Return (None,
             "OpenRouter batch mode failed. pages [1, 2]: model-a: timed out | model-b: timed out | model-c: timed out"),
     map (extraction_call [JStr "p1"; JStr "p2"] [1; 2]%nat 5)
       ["model-a"; "model-b"; "model-c"]).
Proof.
  apply (proj2 (failed_batch_fails_request abc_env remote_down) five_images []
           ["model-a: timed out"; "model-b: timed out"; "model-c: timed out"]).
  - reflexivity.
  - reflexivity.
  - vm_compute. reflexivity.
  - reflexivity.
Defined.

(* ===================================================================== *)
(** ** The outcome of the completeness retry *)
(* ===================================================================== *)

Lemma retry_loop_outcome env remote remaining : ∀ i imgs pages total normalized trail
    chunks models log,
  (i + length remaining ≤ length pages)%nat →
  completeness_retry_loop env remote remaining i imgs pages total normalized trail
    chunks models log
  = match single_image_runs env remote remaining (drop i pages) total log with
    | (Some (rs, ms), log2) =>
        (merged ← lift_exc (_merge_normalized_outputs (chunks ++ rs));
         reconcile_and_return env remote imgs pages total merged
           (trail +:+ " (completeness-retry via " +:+ join " -> " (models ++ ms) +:+ ")"))
          log2
    | (None, log2) =>
        reconcile_and_return env remote imgs pages total normalized trail log2
    end.
Proof.
  induction remaining as [|img rest IH];
    intros i imgs pages total normalized trail chunks models log Hi.
  - simpl. rewrite !app_nil_r. reflexivity.
  - simpl in Hi.
    destruct (pages !! i) as [page|] eqn:Ep;
      [|apply lookup_ge_None in Ep; lia].
    rewrite (drop_S _ _ _ Ep). simpl. rewrite Ep.
    destruct (run_model_chain_for_images_result env remote [img] [page] total log)
      as (single & single_model & log1 & Hrun & _).
    rewrite (run_bind_return _ _ _ _ _ Hrun), Hrun.
    destruct single as [single|]; [|reflexivity].
    rewrite IH by lia.
    destruct (single_image_runs env remote rest (drop (S i) pages) total log1)
      as [[[rs ms]|] log2]; [|reflexivity].
    rewrite <- !app_assoc. reflexivity.
Qed.

(** X17. When the completeness retry is triggered, every image of the batch
    is extracted again on its own, in order, with its own page label.  If
    every image is read, the merge of the single-image results replaces the
    batch extraction, goes to reconciliation, and the trail names the
    models of the retries.  As soon as one image cannot be read by any
    model, the remaining images are not tried, the original batch
    extraction goes to reconciliation and the trail keeps no trace of the
    retries. *)
Theorem completeness_retry_outcome (env : Env) (remote : Oracle) (imgs : list json)
    (pages : list nat) (total : nat) (log log1 : CallLog)
    (normalized : ExtractionResult) (model : string) :
  length pages = length imgs →
  run_model_chain_for_images env remote imgs pages total log
  = (Return (Some normalized, model), log1) →
  completeness_retry_triggered env normalized imgs = true →
  match single_image_runs env remote imgs pages total log1 with
  | (Some (chunks, models), log2) =>
      ∃ merged,
        _merge_normalized_outputs chunks = Return merged
        ∧ run_with_completeness_retry env remote imgs pages total log
          = reconcile_and_return env remote imgs pages total merged
              (model +:+ " (completeness-retry via " +:+ join " -> " models +:+ ")") log2
  | (None, log2) =>
      run_with_completeness_retry env remote imgs pages total log
      = reconcile_and_return env remote imgs pages total normalized model log2
  end.
Proof.
  intros Hlen Hrun Ht.
  unfold run_with_completeness_retry. rewrite (run_bind_return _ _ _ _ _ Hrun), Ht.
  cbn [negb].
  rewrite retry_loop_outcome by (simpl; lia). rewrite drop_0.
  destruct (single_image_runs env remote imgs pages total log1)
    as [[[chunks models]|] log2] eqn:Hs; [|reflexivity].
  simpl app.
  assert (Hne : chunks ≠ []).
  { apply completeness_retry_triggered_iff in Ht as [Hn _].
    destruct imgs as [|img imgs]; [simpl in Hn; lia|].
    destruct pages as [|page pages]; [discriminate|].
    simpl in Hs.
    destruct (run_model_chain_for_images env remote [img] [page] total log1)
      as [[[[r|] m]|msg] l]; try discriminate.
    destruct (single_image_runs env remote imgs pages total l) as [[[rs ms]|] l2];
      [|discriminate].
    injection Hs as <- _ _. discriminate. }
  destruct (merge_returns chunks Hne) as (merged & Hm & _).
  exists merged. split; [exact Hm|].
  unfold mbind, Run_bind at 1, lift_exc. rewrite Hm. reflexivity.
Qed.

Lemma completeness_retry_outcome_witness :
  run_with_completeness_retry floor2_env remote_sparse [JStr "p1"; JStr "p2"]
    [1; 2]%nat 2 []
  = reconcile_and_return floor2_env remote_sparse [JStr "p1"; JStr "p2"] [1; 2]%nat 2
      {| biomarkers :=
           [{| bm_name := "Glucose"; bm_value := "5"; bm_status := "High";
               bm_explanation := "No explanation provided." |}];
         recommendations := []; summary := "fine";
         disclaimer := DEFAULT_DISCLAIMER |}
      "model-a"
      ([extraction_call [JStr "p1"; JStr "p2"] [1; 2]%nat 2 "model-a"]
       ++ map (extraction_call [JStr "p1"] [1]%nat 2) ["model-a"; "model-b"]).
Proof.
  exact (completeness_retry_outcome floor2_env remote_sparse [JStr "p1"; JStr "p2"]
           [1; 2]%nat 2 []
           [extraction_call [JStr "p1"; JStr "p2"] [1; 2]%nat 2 "model-a"]
           {| biomarkers :=
                [{| bm_name := "Glucose"; bm_value := "5"; bm_status := "High";
                    bm_explanation := "No explanation provided." |}];
              recommendations := []; summary := "fine";
              disclaimer := DEFAULT_DISCLAIMER |}
           "model-a" eq_refl eq_refl eq_refl).
Defined.


(* ===================================================================== *)
(** ** The readers of the OCR text *)
(* ===================================================================== *)

Lemma extract_report_text_loop_spec payload keys :
  (extract_report_text_loop payload keys = EmptyString
   ∧ Forall (no_text_at payload) keys)
  ∨ (∃ pre key post value,
       keys = pre ++ key :: post
       ∧ Forall (no_text_at payload) pre
       ∧ dict_get_none payload key = JStr value
       ∧ strip value ≠ EmptyString
       ∧ extract_report_text_loop payload keys = strip value).
Proof.
  induction keys as [|key keys IH]; simpl.
  - left. split; [reflexivity | constructor].
  - assert (Hskip : no_text_at payload key →
              (extract_report_text_loop payload keys = EmptyString
               ∧ Forall (no_text_at payload) (key :: keys))
              ∨ (∃ pre key' post value,
                   key :: keys = pre ++ key' :: post
                   ∧ Forall (no_text_at payload) pre
                   ∧ dict_get_none payload key' = JStr value
                   ∧ strip value ≠ EmptyString
                   ∧ extract_report_text_loop payload keys = strip value)).
    { intros Hk. destruct IH as [[He Hall]|(pre & key' & post & value & -> & Hpre & Hv & Hn & He)].
      - left. split; [exact He | constructor; assumption].
      - right. exists (key :: pre), key', post, value.
        repeat split; try assumption. constructor; assumption. }
    destruct (dict_get_none payload key) as [| | | |value| |] eqn:Ek;
      try (apply Hskip; intros v Hv; congruence).
    destruct (str_truthy (strip value)) eqn:Et.
    + right. exists [], key, keys, value. apply str_truthy_true in Et.
      repeat split; try assumption. constructor.
    + apply Hskip. intros v Hv. apply str_truthy_false in Et. congruence.
Qed.

(** X18. [_extract_report_text] returns the stripped text of the first of
    the keys reportText, report_text, ocrText, ocr_text that holds a string
    with something else than whitespace: keys before it that are missing,
    hold another type or hold a blank string are passed over.  The text
    returned is stripped, and it is empty exactly when none of the four
    keys holds such a string. *)
Theorem report_text_reader (payload : dict) :
  let text := _extract_report_text payload in
  strip text = text
  ∧ (text = EmptyString ↔ Forall (no_text_at payload) report_text_keys)
  ∧ (∀ pre key post value,
       report_text_keys = pre ++ key :: post →
       Forall (no_text_at payload) pre →
       dict_get_none payload key = JStr value →
       strip value ≠ EmptyString →
       text = strip value).
Proof.
  intros text. unfold text, _extract_report_text. fold report_text_keys.
  generalize report_text_keys. intros keys.
  destruct (extract_report_text_loop_spec payload keys)
    as [[He Hall]|(pre & key & post & value & Hk & Hpre & Hv & Hn & He)].
  - rewrite He. split; [reflexivity|]. split; [tauto|].
    intros pre key post value -> _ Hv Hn. exfalso.
    apply Forall_app in Hall as [_ Hall]. apply Forall_cons in Hall as [Hkey _].
    exact (Hn (Hkey value Hv)).
  - rewrite He. split; [apply strip_idem|]. split.
    + split; [intros E; congruence|]. intros Hall. exfalso. subst keys.
      apply Forall_app in Hall as [_ Hall]. apply Forall_cons in Hall as [Hkey _].
      exact (Hn (Hkey value Hv)).
    + intros pre' key' post' value' Hk' Hpre' Hv' Hn'. subst keys.
      (* the first usable key is unique *)
      assert (Hsame : ∀ (p p' : list string) k k' q q',
                p ++ k :: q = p' ++ k' :: q' →
                Forall (no_text_at payload) p → Forall (no_text_at payload) p' →
                ¬ no_text_at payload k → ¬ no_text_at payload k' → k = k').
      { induction p as [|x p IHp]; intros p' k k' q q' E Hp Hp' Hnk Hnk'.
        - destruct p' as [|x' p']; simpl in E.
          + congruence.
          + injection E as -> _. apply Forall_cons in Hp' as [Hx _]. contradiction.
        - destruct p' as [|x' p']; simpl in E.
          + injection E as -> _. apply Forall_cons in Hp as [Hx _]. contradiction.
          + injection E as -> E. apply Forall_cons in Hp as [_ Hp].
            apply Forall_cons in Hp' as [_ Hp']. eapply IHp; eauto. }
      assert (key = key') as <-.
      { eapply (Hsame pre pre' key key' post post' Hk' Hpre Hpre').
        - intros Hno. exact (Hn (Hno value Hv)).
        - intros Hno. exact (Hn' (Hno value' Hv')). }
      congruence.
Qed.

Lemma report_text_reader_witness :
  _extract_report_text pages_payload = strip " whole report ".
Proof.
  apply (proj2 (proj2 (report_text_reader pages_payload))
           ["reportText"; "report_text"] "ocrText" ["ocr_text"] " whole report ").
  - reflexivity.
  - apply Forall_cons; split; [|apply Forall_cons; split; [|apply Forall_nil; exact I]];
      intros value Hv; vm_compute in Hv; try congruence.
    injection Hv as <-. reflexivity.
  - reflexivity.
  - vm_compute. discriminate.
Defined.

(* --------------------------------------------------------------------- *)
(** *** The per-page reader *)

Lemma page_entry_valid item page text :
  page_entry item = Some (page, text) → 0 < page ∧ canonical_text text.
Proof.
  unfold page_entry. destruct item as [| | | | | |d]; try discriminate.
  destruct (py_int (dict_get_none d "page")) as [p|]; [|discriminate].
  destruct (dict_get_none d "text") as [| | | |t| |]; try discriminate.
  destruct (p <=? 0) eqn:Ep; [discriminate|].
  destruct (str_truthy (strip t)) eqn:Et; [|discriminate].
  simpl. intros [= <- <-]. apply Z.leb_gt in Ep. apply str_truthy_true in Et.
  split; [exact Ep|]. split; [apply strip_idem | exact Et].
Qed.

Lemma insert_page_elem x sorted y :
  y ∈ insert_page x sorted ↔ y = x ∨ y ∈ sorted.
Proof.
  induction sorted as [|z rest IH]; simpl.
  - rewrite list_elem_of_singleton, elem_of_nil. tauto.
  - destruct (x.1 <? z.1).
    + rewrite !elem_of_cons. tauto.
    + rewrite !elem_of_cons, IH. tauto.
Qed.

Lemma insert_page_ascending x sorted :
  ascending sorted → ascending (insert_page x sorted).
Proof.
  induction sorted as [|z rest IH]; simpl.
  - intros _. split; [constructor | exact I].
  - intros [Hz Hrest]. destruct (x.1 <? z.1) eqn:E.
    + apply Z.ltb_lt in E. simpl. split; [|split; assumption].
      constructor; [lia|]. eapply Forall_impl; [exact Hz|]. simpl. intros; lia.
    + apply Z.ltb_ge in E. simpl. split; [|apply IH; exact Hrest].
      apply Forall_forall. intros y Hy. apply insert_page_elem in Hy as [->|Hy]; [exact E|].
      rewrite Forall_forall in Hz. apply Hz, Hy.
Qed.

Lemma filter_none {A} (P : A → Prop) `{∀ x, Decision (P x)} (l : list A) :
  Forall (λ x, ¬ P x) l → filter P l = [].
Proof.
  induction 1 as [|x l Hx _ IH]; [reflexivity|].
  rewrite filter_cons. case_decide; [contradiction | exact IH].
Qed.

Lemma insert_page_entries n x sorted :
  ascending sorted →
  entries_of_page n (insert_page x sorted)
  = entries_of_page n sorted ++ (if bool_decide (x.1 = n) then [x] else []).
Proof.
  unfold entries_of_page.
  destruct (decide (x.1 = n)) as [Hn|Hn].
  - rewrite (bool_decide_eq_true_2 _ Hn).
    induction sorted as [|z rest IH]; simpl.
    + intros _. rewrite filter_cons_True by exact Hn. reflexivity.
    + intros [Hz Hrest]. destruct (x.1 <? z.1) eqn:E.
      * apply Z.ltb_lt in E. rewrite (filter_cons_True _ x) by exact Hn.
        rewrite (filter_none (λ p : Z * string, p.1 = n) (z :: rest)); [reflexivity|].
        constructor; [lia|]. eapply Forall_impl; [exact Hz|]. simpl. intros; lia.
      * destruct (decide (z.1 = n)) as [Hzn|Hzn].
        -- rewrite !(filter_cons_True _ z) by exact Hzn. rewrite IH by assumption.
           reflexivity.
        -- rewrite !(filter_cons_False _ z) by exact Hzn. apply IH. assumption.
  - rewrite (bool_decide_eq_false_2 _ Hn), app_nil_r. intros _.
    induction sorted as [|z rest IH]; simpl.
    + rewrite filter_cons_False by exact Hn. reflexivity.
    + destruct (x.1 <? z.1).
      * rewrite (filter_cons_False _ x) by exact Hn. reflexivity.
      * destruct (decide (z.1 = n)) as [Hzn|Hzn].
        -- rewrite !(filter_cons_True _ z) by exact Hzn. rewrite IH. reflexivity.
        -- rewrite !(filter_cons_False _ z) by exact Hzn. exact IH.
Qed.

Lemma sort_pages_spec pages : ∀ sorted,
  ascending sorted →
  let out := foldl (λ sorted x, insert_page x sorted) sorted pages in
  ascending out
  ∧ (∀ y, y ∈ out ↔ y ∈ sorted ∨ y ∈ pages)
  ∧ (∀ n, entries_of_page n out = entries_of_page n sorted ++ entries_of_page n pages)
  ∧ length out = (length sorted + length pages)%nat.
Proof.
  induction pages as [|x pages IH]; intros sorted Hs; simpl.
  - split; [exact Hs|]. split; [|split].
    + intros y. rewrite elem_of_nil. tauto.
    + intros n. unfold entries_of_page. rewrite filter_nil, app_nil_r. reflexivity.
    + lia.
  - destruct (IH (insert_page x sorted) (insert_page_ascending x sorted Hs))
      as (Ha & He & Hn & Hl).
    split; [exact Ha|]. split; [|split].
    + intros y. rewrite He, insert_page_elem, elem_of_cons. tauto.
    + intros n. rewrite Hn, insert_page_entries by assumption.
      rewrite <- app_assoc. f_equal. unfold entries_of_page.
      destruct (decide (x.1 = n)) as [Hx|Hx].
      * rewrite (bool_decide_eq_true_2 _ Hx), filter_cons_True by exact Hx. reflexivity.
      * rewrite (bool_decide_eq_false_2 _ Hx), filter_cons_False by exact Hx. reflexivity.
    + rewrite Hl. clear. induction sorted as [|z rest IHr]; simpl; [lia|].
      destruct (x.1 <? z.1); simpl; lia.
Qed.

Lemma extract_report_text_by_page_loop_spec payload keys :
  (extract_report_text_by_page_loop payload keys = []
   ∧ Forall (no_pages_at payload) keys)
  ∨ (∃ pre key post value,
       keys = pre ++ key :: post
       ∧ Forall (no_pages_at payload) pre
       ∧ dict_get_none payload key = JList value
       ∧ omap page_entry value ≠ []
       ∧ extract_report_text_by_page_loop payload keys
         = sort_pages (omap page_entry value)).
Proof.
  induction keys as [|key keys IH]; simpl.
  - left. split; [reflexivity | constructor].
  - assert (Hskip : no_pages_at payload key →
              (extract_report_text_by_page_loop payload keys = []
               ∧ Forall (no_pages_at payload) (key :: keys))
              ∨ (∃ pre key' post value,
                   key :: keys = pre ++ key' :: post
                   ∧ Forall (no_pages_at payload) pre
                   ∧ dict_get_none payload key' = JList value
                   ∧ omap page_entry value ≠ []
                   ∧ extract_report_text_by_page_loop payload keys
                     = sort_pages (omap page_entry value))).
    { intros Hk. destruct IH as [[He Hall]|(pre & key' & post & value & -> & Hpre & Hv & Hn & He)].
      - left. split; [exact He | constructor; assumption].
      - right. exists (key :: pre), key', post, value.
        repeat split; try assumption. constructor; assumption. }
    destruct (dict_get_none payload key) as [| | | | |value|] eqn:Ek;
      try (apply Hskip; intros v Hv; congruence).
    destruct (omap page_entry value) as [|p ps] eqn:Ep.
    + apply Hskip. intros v Hv. congruence.
    + right. exists [], key, keys, value. rewrite Ep.
      repeat split; try assumption; [constructor | discriminate].
Qed.

Lemma report_pages_reader_ascending payload :
  ascending (_extract_report_text_by_page payload)
  ∧ Forall (λ p, 0 < p.1 ∧ canonical_text p.2) (_extract_report_text_by_page payload).
Proof.
  unfold _extract_report_text_by_page.
  destruct (extract_report_text_by_page_loop_spec payload
              ["reportTextByPage"; "report_text_by_page"; "ocrTextByPage"; "ocr_text_by_page"])
    as [[-> _]|(pre & key & post & value & _ & _ & _ & _ & ->)].
  - split; [exact I | constructor].
  - destruct (sort_pages_spec (omap page_entry value) [] I) as (Ha & He & _).
    split; [exact Ha|]. apply Forall_forall. intros [page text] Hp.
    apply He in Hp as [Hp|Hp]; [apply elem_of_nil in Hp; contradiction|].
    apply list_elem_of_omap in Hp as (item & _ & Hitem).
    exact (page_entry_valid item page text Hitem).
Qed.

(** X19. [_extract_report_text_by_page] reads the first of its four keys
    that holds a list with at least one usable entry, and nothing else.
    What it returns is in ascending order of page number, every page
    number is positive and every text is stripped and not empty; it holds
    exactly the usable entries of that list, none dropped or repeated, and
    the entries of one page keep the order they had in the request (the
    sort is stable).  It is empty exactly when no key holds a usable
    entry. *)
Theorem report_pages_reader (payload : dict) :
  let pages := _extract_report_text_by_page payload in
  ascending pages
  ∧ Forall (λ p, 0 < p.1 ∧ canonical_text p.2) pages
  ∧ (pages = [] ↔ Forall (no_pages_at payload) report_pages_keys)
  ∧ (∀ pre key post value,
       report_pages_keys = pre ++ key :: post →
       Forall (no_pages_at payload) pre →
       dict_get_none payload key = JList value →
       omap page_entry value ≠ [] →
       length pages = length (omap page_entry value)
       ∧ (∀ p, p ∈ pages ↔ p ∈ omap page_entry value)
       ∧ ∀ n, entries_of_page n pages = entries_of_page n (omap page_entry value)).
Proof.
  intros pages. unfold pages, _extract_report_text_by_page. fold report_pages_keys.
  generalize report_pages_keys. intros keys.
  assert (Hsort : ∀ value,
            let out := sort_pages (omap page_entry value) in
            ascending out
            ∧ (∀ y, y ∈ out ↔ y ∈ omap page_entry value)
            ∧ (∀ n, entries_of_page n out = entries_of_page n (omap page_entry value))
            ∧ length out = length (omap page_entry value)).
  { intros value. destruct (sort_pages_spec (omap page_entry value) [] I)
      as (Ha & He & Hn & Hl).
    split; [exact Ha|]. split; [|split].
    - intros y. rewrite He, elem_of_nil. tauto.
    - intros n. rewrite Hn. reflexivity.
    - exact Hl. }
  assert (Hvalid : ∀ value, Forall (λ p : Z * string, 0 < p.1 ∧ canonical_text p.2)
                              (omap page_entry value)).
  { intros value. apply Forall_forall. intros [page text] Hin.
    apply list_elem_of_omap in Hin as (item & _ & Hitem).
    exact (page_entry_valid item page text Hitem). }
  destruct (extract_report_text_by_page_loop_spec payload keys)
    as [[He Hall]|(pre & key & post & value & Hk & Hpre & Hv & Hn & He)].
  - rewrite He. split; [exact I|]. split; [constructor|]. split; [tauto|].
    intros pre key post value -> _ Hv Hn. exfalso.
    apply Forall_app in Hall as [_ Hall]. apply Forall_cons in Hall as [Hkey _].
    exact (Hn (Hkey value Hv)).
  - rewrite He. destruct (Hsort value) as (Ha & Hel & Hen & Hl).
    split; [exact Ha|]. split.
    { apply Forall_forall. intros p Hp. apply Hel in Hp.
      pose proof (Hvalid value) as Hval. rewrite Forall_forall in Hval. exact (Hval p Hp). }
    split.
    + split.
      * intros E. exfalso. apply Hn. apply length_zero_iff_nil.
        rewrite <- Hl, E. reflexivity.
      * intros Hall. exfalso. subst keys.
        apply Forall_app in Hall as [_ Hall]. apply Forall_cons in Hall as [Hkey _].
        exact (Hn (Hkey value Hv)).
    + intros pre' key' post' value' Hk' Hpre' Hv' Hn'. subst keys.
      assert (Hsame : ∀ (p p' : list string) k k' q q',
                p ++ k :: q = p' ++ k' :: q' →
                Forall (no_pages_at payload) p → Forall (no_pages_at payload) p' →
                ¬ no_pages_at payload k → ¬ no_pages_at payload k' → k = k').
      { induction p as [|x p IHp]; intros p' k k' q q' E Hp Hp' Hnk Hnk'.
        - destruct p' as [|x' p']; simpl in E.
          + congruence.
          + injection E as -> _. apply Forall_cons in Hp' as [Hx _]. contradiction.
        - destruct p' as [|x' p']; simpl in E.
          + injection E as -> _. apply Forall_cons in Hp as [Hx _]. contradiction.
          + injection E as -> E. apply Forall_cons in Hp as [_ Hp].
            apply Forall_cons in Hp' as [_ Hp']. eapply IHp; eauto. }
      assert (key = key') as <-.
      { eapply (Hsame pre pre' key key' post post' Hk' Hpre Hpre').
        - intros Hno. exact (Hn (Hno value Hv)).
        - intros Hno. exact (Hn' (Hno value' Hv')). }
      assert (value' = value) as -> by congruence.
      split; [exact Hl|]. split; assumption.
Qed.

Lemma report_pages_reader_witness :
  length (_extract_report_text_by_page pages_payload) = 3%nat
  ∧ entries_of_page 2 (_extract_report_text_by_page pages_payload)
    = [(2, "second"); (2, "second again")].
Proof.
  destruct (proj2 (proj2 (proj2 (report_pages_reader pages_payload)))
              ["reportTextByPage"; "report_text_by_page"] "ocrTextByPage"
              ["ocr_text_by_page"]
              [JDict [("page", JInt 2); ("text", JStr " second ")];
               JDict [("page", JStr "1"); ("text", JStr "first")];
               JDict [("page", JInt 3); ("text", JStr " ")];
               JDict [("page", JInt 2); ("text", JStr "second again")]])
    as (Hl & _ & Hn).
  - reflexivity.
  - apply Forall_cons; split; [|apply Forall_cons; split; [|apply Forall_nil; exact I]];
      intros value Hv; vm_compute in Hv; try congruence.
    injection Hv as <-. reflexivity.
  - reflexivity.
  - vm_compute. discriminate.
  - split; [exact Hl | exact (Hn 2)].
Defined.


(* ===================================================================== *)
(** ** Stitched page groups and the OCR text of a batch *)
(* ===================================================================== *)

Lemma first_usable_unique (P : string → Prop) (pre : list string) :
  ∀ pre' k k' post post',
    pre ++ k :: post = pre' ++ k' :: post' →
    Forall P pre → Forall P pre' → ¬ P k → ¬ P k' → k = k'.
Proof.
  induction pre as [|x p IHp]; intros p' k k' q q' E Hp Hp' Hnk Hnk'.
  - destruct p' as [|x' p']; simpl in E.
    + congruence.
    + injection E as -> _. apply Forall_cons in Hp' as [Hx _]. contradiction.
  - destruct p' as [|x' p']; simpl in E.
    + injection E as -> _. apply Forall_cons in Hp as [Hx _]. contradiction.
    + injection E as -> E. apply Forall_cons in Hp as [_ Hp].
      apply Forall_cons in Hp' as [_ Hp']. eapply IHp; eauto.
Qed.

Lemma insert_int_elem x sorted y :
  y ∈ insert_int x sorted ↔ y = x ∨ y ∈ sorted.
Proof.
  induction sorted as [|z rest IH]; simpl.
  - rewrite list_elem_of_singleton, elem_of_nil. tauto.
  - destruct (x <? z); [rewrite !elem_of_cons; tauto|].
    destruct (x =? z) eqn:E.
    + apply Z.eqb_eq in E. subst z. rewrite !elem_of_cons. tauto.
    + rewrite !elem_of_cons, IH. tauto.
Qed.

Lemma insert_int_ascending x sorted :
  strictly_ascending sorted → strictly_ascending (insert_int x sorted).
Proof.
  induction sorted as [|z rest IH]; simpl.
  - intros _. split; [constructor | exact I].
  - intros [Hz Hrest]. destruct (x <? z) eqn:E.
    + apply Z.ltb_lt in E. simpl. split; [|split; assumption].
      constructor; [lia|]. eapply Forall_impl; [exact Hz|]. simpl. intros; lia.
    + destruct (x =? z) eqn:E'; [simpl; split; assumption|].
      apply Z.ltb_ge in E. apply Z.eqb_neq in E'. simpl. split; [|apply IH; exact Hrest].
      apply Forall_forall. intros y Hy. apply insert_int_elem in Hy as [->|Hy]; [lia|].
      rewrite Forall_forall in Hz. apply Hz, Hy.
Qed.

Lemma sorted_set_spec xs :
  strictly_ascending (sorted_set xs) ∧ ∀ y, y ∈ sorted_set xs ↔ y ∈ xs.
Proof.
  induction xs as [|x xs [IHa IHe]]; simpl.
  - split; [exact I | tauto].
  - split; [apply insert_int_ascending, IHa|].
    intros y. rewrite insert_int_elem, IHe, elem_of_cons. tauto.
Qed.

Lemma sorted_set_fixed xs : strictly_ascending xs → sorted_set xs = xs.
Proof.
  induction xs as [|x xs IH]; simpl; [reflexivity|].
  intros [Hx Hrest]. rewrite (IH Hrest).
  destruct xs as [|y ys]; [reflexivity|]. simpl.
  apply Forall_cons in Hx as [Hxy _]. apply Z.ltb_lt in Hxy. rewrite Hxy. reflexivity.
Qed.

Lemma sorted_set_filled xs : xs ≠ [] → sorted_set xs ≠ [].
Proof.
  destruct xs as [|x xs]; [congruence|]. intros _ E.
  assert (Hin : x ∈ sorted_set (x :: xs)) by (apply sorted_set_spec; left).
  rewrite E in Hin. apply elem_of_nil in Hin. exact Hin.
Qed.

Lemma positive_ints_spec members p :
  p ∈ positive_ints members ↔ 0 < p ∧ ∃ m, m ∈ members ∧ py_int m = Some p.
Proof.
  unfold positive_ints. rewrite list_elem_of_filter, list_elem_of_omap. tauto.
Qed.

Lemma stitched_group_spec group ints :
  stitched_group group = Some ints →
  ints ≠ [] ∧ strictly_ascending ints ∧ Forall (λ p, 0 < p) ints
  ∧ ∃ members, group = JList members ∧ ∀ p, p ∈ ints ↔ p ∈ positive_ints members.
Proof.
  unfold stitched_group. destruct group as [| | | | |members|]; try discriminate.
  destruct (positive_ints members) as [|v vs] eqn:Ev; [discriminate|].
  intros [= <-]. destruct (sorted_set_spec (v :: vs)) as [Ha He].
  split; [apply (sorted_set_filled (v :: vs)); discriminate|]. split; [exact Ha|]. split.
  - apply Forall_forall. intros p Hp. apply He in Hp. rewrite <- Ev in Hp.
    apply positive_ints_spec in Hp as [Hp _]. exact Hp.
  - exists members. split; [reflexivity|]. intros p. rewrite Ev. apply He.
Qed.

Lemma extract_stitched_page_groups_loop_spec payload keys :
  (extract_stitched_page_groups_loop payload keys = []
   ∧ Forall (no_groups_at payload) keys)
  ∨ (∃ pre key post value,
       keys = pre ++ key :: post
       ∧ Forall (no_groups_at payload) pre
       ∧ dict_get_none payload key = JList value
       ∧ omap stitched_group value ≠ []
       ∧ extract_stitched_page_groups_loop payload keys = omap stitched_group value).
Proof.
  induction keys as [|key keys IH]; simpl.
  - left. split; [reflexivity | constructor].
  - assert (Hskip : no_groups_at payload key →
              (extract_stitched_page_groups_loop payload keys = []
               ∧ Forall (no_groups_at payload) (key :: keys))
              ∨ (∃ pre key' post value,
                   key :: keys = pre ++ key' :: post
                   ∧ Forall (no_groups_at payload) pre
                   ∧ dict_get_none payload key' = JList value
                   ∧ omap stitched_group value ≠ []
                   ∧ extract_stitched_page_groups_loop payload keys
                     = omap stitched_group value)).
    { intros Hk. destruct IH as [[He Hall]|(pre & key' & post & value & -> & Hpre & Hv & Hn & He)].
      - left. split; [exact He | constructor; assumption].
      - right. exists (key :: pre), key', post, value.
        repeat split; try assumption. constructor; assumption. }
    destruct (dict_get_none payload key) as [| | | | |value|] eqn:Ek;
      try (apply Hskip; intros v Hv; congruence).
    destruct (omap stitched_group value) as [|g gs] eqn:Eg.
    + apply Hskip. intros v Hv. congruence.
    + right. exists [], key, keys, value. rewrite Eg.
      repeat split; try assumption; [constructor | discriminate].
Qed.

Lemma stitched_groups_valid payload :
  Forall (λ g, g ≠ [] ∧ strictly_ascending g ∧ Forall (λ p, 0 < p) g)
    (_extract_stitched_page_groups payload).
Proof.
  unfold _extract_stitched_page_groups.
  destruct (extract_stitched_page_groups_loop_spec payload stitched_keys)
    as [[-> _]|(pre & key & post & value & _ & _ & _ & _ & ->)]; [constructor|].
  apply Forall_forall. intros g Hg. apply list_elem_of_omap in Hg as (group & _ & Hg).
  destruct (stitched_group_spec group g Hg) as (H1 & H2 & H3 & _). auto.
Qed.

(** X20. [_extract_stitched_page_groups] reads the first of its four keys
    that holds a list with at least one usable group.  Every group it
    returns is not empty, holds positive page numbers only, each once, in
    ascending order; a group holds exactly the positive values of the
    members that [int()] accepts.  Groups that are not lists or have no
    such member are left out, so the groups after them move up.  The
    result is empty exactly when no key holds a usable group. *)
Theorem stitched_groups_reader (payload : dict) :
  let groups := _extract_stitched_page_groups payload in
  Forall (λ g, g ≠ [] ∧ strictly_ascending g ∧ Forall (λ p, 0 < p) g) groups
  ∧ (groups = [] ↔ Forall (no_groups_at payload) stitched_keys)
  ∧ (∀ pre key post value,
       stitched_keys = pre ++ key :: post →
       Forall (no_groups_at payload) pre →
       dict_get_none payload key = JList value →
       omap stitched_group value ≠ [] →
       groups = omap stitched_group value)
  ∧ (∀ members ints,
       stitched_group (JList members) = Some ints →
       ∀ p, p ∈ ints ↔ 0 < p ∧ ∃ m, m ∈ members ∧ py_int m = Some p).
Proof.
  intros groups. split; [apply stitched_groups_valid|].
  unfold groups, _extract_stitched_page_groups.
  split; [|split].
  - destruct (extract_stitched_page_groups_loop_spec payload stitched_keys)
      as [[He Hall]|(pre & key & post & value & Hk & Hpre & Hv & Hn & He)].
    + rewrite He. tauto.
    + rewrite He. split; [intros E; contradiction|]. intros Hall. exfalso.
      rewrite Hk in Hall.
      apply Forall_app in Hall as [_ Hall]. apply Forall_cons in Hall as [Hkey _].
      exact (Hn (Hkey value Hv)).
  - intros pre' key' post' value' Hk' Hpre' Hv' Hn'.
    destruct (extract_stitched_page_groups_loop_spec payload stitched_keys)
      as [[He Hall]|(pre & key & post & value & Hk & Hpre & Hv & Hn & He)].
    + exfalso. rewrite Hk' in Hall.
      apply Forall_app in Hall as [_ Hall]. apply Forall_cons in Hall as [Hkey _].
      exact (Hn' (Hkey value' Hv')).
    + rewrite He. rewrite Hk in Hk'.
      assert (key = key') as <-.
      { apply (first_usable_unique (no_groups_at payload) pre pre' key key' post post'
                 Hk' Hpre Hpre').
        - intros Hno. exact (Hn (Hno value Hv)).
        - intros Hno. exact (Hn' (Hno value' Hv')). }
      congruence.
  - intros members ints Hg p.
    destruct (stitched_group_spec _ _ Hg) as (_ & _ & _ & members' & [= <-] & He).
    rewrite He. apply positive_ints_spec.
Qed.

Lemma stitched_groups_reader_witness :
  _extract_stitched_page_groups stitched_payload = [[1; 2]; [3]].
Proof.
  apply (proj1 (proj2 (proj2 (stitched_groups_reader stitched_payload)))
           ["stitchedPageGroups"; "stitched_page_groups"] "pageGroups" ["page_groups"]
           [JList [JInt 2; JStr "1"; JInt 2; JInt 0]; JList []; JList [JInt 3]]).
  - reflexivity.
  - apply Forall_cons; split; [|apply Forall_cons; split; [|apply Forall_nil; exact I]];
      intros value Hv; vm_compute in Hv; congruence.
  - reflexivity.
  - vm_compute. discriminate.
Defined.

(** X21. [_raw_pages_covered_by_image_indices] returns positive page
    numbers, each once, in ascending order.  Without stitched groups they
    are the positive image indices themselves.  With stitched groups they
    are the pages of the groups the indices point to, and an index beyond
    the last group adds nothing: its pages are not covered. *)
Theorem covered_pages (payload : dict) (image_indices_1based : list nat) :
  let groups := _extract_stitched_page_groups payload in
  let covered := _raw_pages_covered_by_image_indices payload image_indices_1based in
  strictly_ascending covered
  ∧ Forall (λ p, 0 < p) covered
  ∧ (groups = [] →
     ∀ p, p ∈ covered ↔ 0 < p ∧ ∃ i, i ∈ image_indices_1based ∧ p = Z.of_nat i)
  ∧ (groups ≠ [] →
     ∀ p, p ∈ covered ↔
          ∃ i g, i ∈ image_indices_1based ∧ (1 ≤ i)%nat
                 ∧ groups !! (i - 1)%nat = Some g ∧ p ∈ g).
Proof.
  intros groups covered. unfold covered, _raw_pages_covered_by_image_indices.
  fold groups. cbv zeta.
  set (raw := match groups with
              | [] => map Z.of_nat image_indices_1based
              | _ :: _ => _
              end).
  destruct (sorted_set_spec (filter (λ p, 0 < p) raw)) as [Ha He].
  split; [exact Ha|]. split.
  { apply Forall_forall. intros p Hp. apply He, list_elem_of_filter in Hp as [Hp _].
    exact Hp. }
  split.
  - intros Hg p. rewrite He, list_elem_of_filter. unfold raw. rewrite Hg.
    rewrite list_elem_of_fmap. split.
    + intros [Hp (i & -> & Hi)]. eauto.
    + intros [Hp (i & Hi & ->)]. eauto.
  - intros Hg p. rewrite He, list_elem_of_filter.
    assert (Hraw : raw = concat (map (λ img_idx,
                       if (1 <=? img_idx)%nat && (img_idx <=? length groups)%nat
                       then default [] (groups !! (img_idx - 1)%nat)
                       else [])
                  image_indices_1based)).
    { unfold raw. destruct groups; [congruence | reflexivity]. }
    rewrite Hraw. clear Hraw raw Ha He.
    pose proof (stitched_groups_valid payload) as Hvalid. fold groups in Hvalid.
    rewrite Forall_forall in Hvalid.
    split.
    + intros [Hp Hin]. apply list_elem_of_In, in_concat in Hin as (l & Hl & Hin).
      apply in_map_iff in Hl as (i & <- & Hi).
      destruct ((1 <=? i)%nat) eqn:E1; simpl in Hin; [|contradiction].
      destruct ((i <=? length groups)%nat) eqn:E2; simpl in Hin; [|contradiction].
      apply Nat.leb_le in E1.
      destruct (groups !! (i - 1)%nat) as [g|] eqn:Eg; simpl in Hin; [|contradiction].
      exists i, g. repeat split; try assumption; apply list_elem_of_In; assumption.
    + intros (i & g & Hi & H1 & Eg & Hin). split.
      * destruct (Hvalid g) as (_ & _ & Hpos); [eapply list_elem_of_lookup_2; eauto|].
        rewrite Forall_forall in Hpos. exact (Hpos p Hin).
      * apply list_elem_of_In, in_concat.
        exists g. split; [|apply list_elem_of_In; assumption].
        apply in_map_iff. exists i. split; [|apply list_elem_of_In; assumption].
        apply Nat.leb_le in H1. rewrite H1.
        pose proof (lookup_lt_Some _ _ _ Eg) as Hlt.
        assert (E2 : (i <=? length groups)%nat = true) by (apply Nat.leb_le; lia).
        rewrite E2, Eg. reflexivity.
Qed.

Lemma covered_pages_witness :
  3 ∈ _raw_pages_covered_by_image_indices stitched_payload [2; 3]%nat ↔
  ∃ i g, i ∈ [2; 3]%nat ∧ (1 ≤ i)%nat
         ∧ _extract_stitched_page_groups stitched_payload !! (i - 1)%nat = Some g
         ∧ 3 ∈ g.
Proof.
  apply (proj2 (proj2 (proj2 (covered_pages stitched_payload [2; 3]%nat)))).
  vm_compute. discriminate.
Defined.

Lemma page_part_filled item : page_part item ≠ EmptyString.
Proof. unfold page_part. rewrite append_cons. discriminate. Qed.

Lemma join_filled sep parts :
  parts ≠ [] → Forall (λ s, s ≠ EmptyString) parts → join sep parts ≠ EmptyString.
Proof.
  destruct parts as [|e es]; [congruence|]. intros _ Hall.
  apply Forall_cons in Hall as [He _]. apply join_cons_filled. exact He.
Qed.

(** X22. The OCR text of a batch.  [_report_text_subset_for_images] keeps,
    of the per-page OCR text, the pages covered by the images of the
    batch, in ascending page order, each under its "[Page n]" heading and
    joined by blank lines; when the request has no per-page text, or none
    for the covered pages, it is the text of the whole report.  It is
    blank only when the whole-report text is blank too, so the fallback
    [report_text_subset or report_text] of the extraction never changes
    the text: outside visual-only mode the extraction sends exactly this
    text, and in visual-only mode the empty text. *)
Theorem report_text_subset (env : Env) (payload : dict) (page_numbers : list nat) :
  let text := _report_text_subset_for_images payload page_numbers in
  let whole := _extract_report_text payload in
  let covered := _raw_pages_covered_by_image_indices payload page_numbers in
  let chosen := filter (λ item, item.1 ∈ covered) (_extract_report_text_by_page payload) in
  ascending chosen
  ∧ (chosen = [] → text = whole)
  ∧ (chosen ≠ [] → text = join (nl +:+ nl) (map page_part chosen) ∧ text ≠ EmptyString)
  ∧ (text = EmptyString → whole = EmptyString)
  ∧ extraction_report_text env payload page_numbers
    = (if AI_VISUAL_ONLY_MODE env then EmptyString else text).
Proof.
  intros text whole covered chosen.
  assert (Hasc : ascending chosen).
  { unfold chosen. destruct (report_pages_reader_ascending payload) as [Ha _].
    revert Ha. generalize (_extract_report_text_by_page payload). intros pages.
    induction pages as [|x pages IH]; [intros _; exact I|].
    intros [Hx Hrest]. rewrite filter_cons. case_decide.
    - simpl. split; [|apply IH; exact Hrest].
      apply Forall_forall. intros y Hy. apply list_elem_of_filter in Hy as [_ Hy].
      rewrite Forall_forall in Hx. exact (Hx y Hy).
    - apply IH. exact Hrest. }
  assert (Hempty : chosen = [] → text = whole).
  { intros Hc. unfold text, _report_text_subset_for_images. fold covered.
    destruct (_extract_report_text_by_page payload) as [|p ps] eqn:Ep; [reflexivity|].
    cbv zeta. fold covered. fold chosen. rewrite Hc. reflexivity. }
  assert (Hfilled : chosen ≠ [] →
            text = join (nl +:+ nl) (map page_part chosen) ∧ text ≠ EmptyString).
  { intros Hc.
    assert (Ht : text = join (nl +:+ nl) (map page_part chosen)).
    { unfold text, _report_text_subset_for_images. fold covered.
      destruct (_extract_report_text_by_page payload) as [|p ps] eqn:Ep.
      - exfalso. apply Hc. reflexivity.
      - cbv zeta. fold covered. fold chosen.
        destruct chosen as [|c cs]; [congruence | reflexivity]. }
    split; [exact Ht|]. rewrite Ht. apply join_filled.
    - destruct chosen; [congruence | discriminate].
    - apply Forall_forall. intros s Hs. apply list_elem_of_fmap in Hs as (item & -> & _).
      apply page_part_filled. }
  assert (Hblank : text = EmptyString → whole = EmptyString).
  { intros Ht. destruct chosen as [|c cs] eqn:Ec.
    - rewrite <- Hempty; [exact Ht | reflexivity].
    - exfalso. destruct Hfilled as [_ Hn]; [discriminate|]. exact (Hn Ht). }
  repeat split; try assumption; try (apply Hfilled; assumption).
  unfold extraction_report_text. fold text. fold whole.
  destruct (AI_VISUAL_ONLY_MODE env); [reflexivity|].
  unfold str_or. destruct text as [|a t] eqn:Et; [|reflexivity].
  simpl. apply Hblank. reflexivity.
Qed.

Lemma report_text_subset_witness :
  _report_text_subset_for_images stitched_payload [2]%nat
  = join (nl +:+ nl) [page_part (3, "third")]
  ∧ _report_text_subset_for_images stitched_payload [2]%nat ≠ EmptyString.
Proof.
  apply (proj1 (proj2 (proj2 (report_text_subset default_env stitched_payload [2]%nat)))).
  vm_compute. discriminate.
Defined.


(* ===================================================================== *)
(** ** The content of a model request *)
(* ===================================================================== *)

Lemma user_content_loop_images images : ∀ idx override_given page_numbers total_pages
    stitched_groups,
  let items := user_content_loop images idx override_given page_numbers total_pages
                 stitched_groups in
  image_urls items = omap sent_image images
  ∧ filter (λ c, is_image_item c = true) items = map ImageItem (omap sent_image images).
Proof.
  induction images as [|encoded rest IH]; intros idx og pn total st; simpl.
  - split; reflexivity.
  - destruct (IH (S idx) og pn total st) as [IHu IHf].
    destruct encoded as [| | | |e| |]; simpl; try (split; assumption).
    destruct (str_truthy (strip e)); [|split; assumption].
    destruct (page_label_at idx og pn); simpl.
    + unfold image_urls in *. simpl. rewrite IHu.
      rewrite filter_cons_False by (simpl; discriminate).
      rewrite filter_cons_True by reflexivity. rewrite IHf. split; reflexivity.
    + unfold image_urls in *. simpl. rewrite IHu.
      rewrite filter_cons_True by reflexivity. rewrite IHf. split; reflexivity.
Qed.

(** X23. Which images a model request carries.  The user message starts
    with the prompt.  In OCR-only mode it holds nothing else: no image is
    sent.  Otherwise its images are the entries of the image list that are
    strings with something else than whitespace, stripped, as JPEG data
    URLs, in order; page numbers, total and stitched groups change labels
    only.  With a prompt override the message is the override followed by
    exactly these images: the extraction prompt and every label are
    dropped. *)
Theorem user_content_images (env : Env) (payload : dict) (prompt_text : string)
    (images_override : option (list json)) (page_numbers : option (list nat))
    (total_pages : option nat) :
  let content :=
    _openrouter_user_content env payload prompt_text images_override page_numbers
      total_pages in
  let images := default (request_images payload) images_override in
  let sent := if AI_OCR_ONLY_MODE env then [] else omap sent_image images in
  head content = Some (TextItem prompt_text)
  ∧ (AI_OCR_ONLY_MODE env = true → content = [TextItem prompt_text])
  ∧ image_urls content = sent
  ∧ ∀ prompt,
      request_user_content env payload prompt_text images_override page_numbers
        total_pages (Some prompt)
      = TextItem prompt :: map ImageItem sent.
Proof.
  intros content images sent.
  assert (Hshape :
    content = TextItem prompt_text
              :: (if AI_OCR_ONLY_MODE env then []
                  else user_content_loop images 0
                         (match images_override with Some _ => true | None => false end)
                         page_numbers total_pages (_extract_stitched_page_groups payload))).
  { unfold content, _openrouter_user_content, images, request_images.
    destruct (AI_OCR_ONLY_MODE env); [reflexivity|]. cbv zeta.
    destruct images_override as [imgs|]; simpl; [reflexivity|].
    destruct (dict_get_or payload "images" (JList [])); reflexivity. }
  split; [rewrite Hshape; reflexivity|].
  split; [intros Ho; rewrite Hshape, Ho; reflexivity|].
  assert (Hurls : image_urls content = sent).
  { rewrite Hshape. unfold sent. destruct (AI_OCR_ONLY_MODE env); [reflexivity|].
    unfold image_urls. simpl. apply user_content_loop_images. }
  split; [exact Hurls|].
  intros prompt. unfold request_user_content. fold content. f_equal.
  rewrite Hshape. rewrite filter_cons_False by (simpl; discriminate).
  unfold sent. destruct (AI_OCR_ONLY_MODE env); [reflexivity|].
  apply user_content_loop_images.
Qed.

Lemma user_content_images_witness :
  _openrouter_user_content (ocr_only_env "sk-test") stitched_payload "prompt"
    None None None
  = [TextItem "prompt"].
Proof.
  apply (proj1 (proj2 (user_content_images (ocr_only_env "sk-test") stitched_payload
                         "prompt" None None None))).
  reflexivity.
Defined.

Lemma user_content_loop_labelled images : ∀ idx page_numbers total_pages stitched_groups,
  (idx + length images ≤ length page_numbers)%nat →
  user_content_loop images idx true (Some page_numbers) total_pages stitched_groups
  = labelled_images images idx (drop idx page_numbers) total_pages stitched_groups.
Proof.
  induction images as [|encoded rest IH]; intros idx pn total st Hlen; simpl.
  - destruct (drop idx pn); reflexivity.
  - simpl in Hlen.
    destruct (pn !! idx) as [page|] eqn:Ep; [|apply lookup_ge_None in Ep; lia].
    rewrite (drop_S _ _ _ Ep). rewrite IH by lia.
    unfold page_label_at. simpl. rewrite Ep.
    destruct encoded as [| | | |e| |]; simpl; try reflexivity.
    destruct (str_truthy (strip e)); reflexivity.
Qed.

Lemma user_content_loop_numbered images : ∀ idx total_pages stitched_groups,
  user_content_loop images idx false None total_pages stitched_groups
  = labelled_images images idx (seq (S idx) (length images)) total_pages stitched_groups.
Proof.
  induction images as [|encoded rest IH]; intros idx total st; simpl; [reflexivity|].
  rewrite IH. unfold page_label_at. simpl. rewrite Nat.add_1_r.
  destruct encoded as [| | | |e| |]; simpl; try reflexivity.
  destruct (str_truthy (strip e)); reflexivity.
Qed.

(** X24. Labels of the images.  When a batch is sent with one page number
    for each image, as every call of the pipeline does, the message is the
    prompt followed, for each image that is sent, by its label and then the
    image: the label carries the page number at the position of the image
    (positions of images that are not sent are counted), the total when it
    is not zero, and the raw pages of the stitched group at that position
    when there is one.  Without override and without page numbers the
    images of the request are labelled 1, 2, ... in the same way. *)
Theorem user_content_labels (env : Env) (payload : dict) (prompt_text : string)
    (images : list json) (page_numbers : list nat) (total_pages : option nat) :
  AI_OCR_ONLY_MODE env = false →
  (length page_numbers = length images →
   _openrouter_user_content env payload prompt_text (Some images) (Some page_numbers)
     total_pages
   = TextItem prompt_text
     :: labelled_images images 0 page_numbers total_pages
          (_extract_stitched_page_groups payload))
  ∧ _openrouter_user_content env payload prompt_text None None total_pages
    = TextItem prompt_text
      :: labelled_images (request_images payload) 0
           (seq 1 (length (request_images payload))) total_pages
           (_extract_stitched_page_groups payload).
Proof.
  intros Ho. split.
  - intros Hlen. unfold _openrouter_user_content. rewrite Ho. cbv zeta. simpl.
    rewrite user_content_loop_labelled by (simpl; lia). rewrite drop_0. reflexivity.
  - unfold _openrouter_user_content, request_images. rewrite Ho. cbv zeta.
    destruct (dict_get_or payload "images" (JList [])) as [| | | | |imgs|];
      try reflexivity.
    simpl. rewrite user_content_loop_numbered. reflexivity.
Qed.

Lemma user_content_labels_witness :
  _openrouter_user_content default_env stitched_payload "prompt"
    (Some [JStr " img-a "; JInt 7; JStr "img-c"]) (Some [3; 4; 5]%nat) (Some 5%nat)
  = [TextItem "prompt";
     TextItem "Image group 3 of 5 (covers raw pages [1, 2])";
     ImageItem "data:image/jpeg;base64,img-a";
     TextItem "Image group 5 of 5";
     ImageItem "data:image/jpeg;base64,img-c"].
Proof.
  exact (proj1 (user_content_labels default_env stitched_payload "prompt"
                  [JStr " img-a "; JInt 7; JStr "img-c"] [3; 4; 5]%nat (Some 5%nat)
                  eq_refl) eq_refl).
Defined.


(* ===================================================================== *)
(** ** Reading the answer of a model *)
(* ===================================================================== *)

Lemma append_last_filled (s : string) a : s +:+ String a EmptyString ≠ EmptyString.
Proof. destruct s; [rewrite append_nil | rewrite append_cons]; discriminate. Qed.

Lemma rstrip_app_solid s a :
  is_space a = false → rstrip (s +:+ String a EmptyString) = s +:+ String a EmptyString.
Proof.
  intros Ha. induction s as [|b s IH].
  - rewrite append_nil. simpl. rewrite Ha. reflexivity.
  - rewrite append_cons. simpl. rewrite IH.
    destruct (s +:+ String a EmptyString) eqn:E; [|reflexivity].
    exfalso. exact (append_last_filled s a E).
Qed.

Lemma rstrip_app_blank s t : rstrip t = EmptyString → rstrip (s +:+ t) = rstrip s.
Proof.
  intros Ht. induction s as [|b s IH].
  - rewrite append_nil. exact Ht.
  - rewrite append_cons. simpl. rewrite IH. reflexivity.
Qed.

Lemma strip_app_space_r s a :
  is_space a = true → strip (s +:+ String a EmptyString) = strip s.
Proof.
  intros Ha. induction s as [|b s IH].
  - rewrite append_nil. unfold strip. simpl. rewrite Ha. reflexivity.
  - rewrite append_cons. unfold strip in *. simpl. destruct (is_space b) eqn:Eb.
    + exact IH.
    + rewrite <- append_cons. apply rstrip_app_blank. simpl. rewrite Ha. reflexivity.
Qed.

Lemma rstrip_char_app_solid c s a :
  Ascii.eqb a c = false →
  rstrip_char c (s +:+ String a EmptyString) = s +:+ String a EmptyString.
Proof.
  intros Ha. induction s as [|b s IH].
  - rewrite append_nil. simpl. rewrite Ha. reflexivity.
  - rewrite append_cons. simpl. rewrite IH.
    destruct (s +:+ String a EmptyString) eqn:E; [|reflexivity].
    exfalso. exact (append_last_filled s a E).
Qed.

Lemma rstrip_char_app_blank c s t :
  rstrip_char c t = EmptyString → rstrip_char c (s +:+ t) = rstrip_char c s.
Proof.
  intros Ht. induction s as [|b s IH].
  - rewrite append_nil. exact Ht.
  - rewrite append_cons. simpl. rewrite IH. reflexivity.
Qed.

Lemma omap_pointwise {A B} (f g : A → option B) (l : list A) :
  (∀ x, f x = g x) → omap f l = omap g l.
Proof.
  intros Hfg. apply list_omap_ext. induction l as [|x l IH]; constructor; auto.
Qed.

Lemma content_part_text item :
  content_part item
  = match item with
    | JDict d => match dict_get_none d "text" with JStr text => Some text | _ => None end
    | _ => None
    end.
Proof.
  destruct item as [| | | | | |d]; try reflexivity. unfold content_part.
  destruct (dict_get_none d "text"); simpl; rewrite ?andb_false_r; try reflexivity.
  destruct (is_text_type (dict_get_none d "type")); reflexivity.
Qed.

Lemma strip_char_fenced body :
  strip_char backtick (fenced body) = "json" +:+ nl +:+ body +:+ nl.
Proof.
  unfold strip_char.
  change (lstrip_char backtick (fenced body))
    with ("json" +:+ nl +:+ body +:+ nl +:+ fence).
  rewrite <- !append_assoc.
  rewrite rstrip_char_app_blank by reflexivity.
  unfold nl at 2. rewrite rstrip_char_app_solid by reflexivity.
  reflexivity.
Qed.

Lemma unfence_fenced body :
  unfence (fenced body) = strip body.
Proof.
  unfold unfence.
  assert (H1 : startswith fence (fenced body) = true) by reflexivity.
  assert (H3 : startswith "json" (lower ("json" +:+ nl +:+ body +:+ nl)) = true)
    by reflexivity.
  assert (H4 : str_drop 4 ("json" +:+ nl +:+ body +:+ nl) = nl +:+ body +:+ nl)
    by reflexivity.
  rewrite H1. cbv zeta. rewrite strip_char_fenced, H3, H4.
  rewrite <- append_assoc. unfold nl at 2. rewrite strip_app_space_r by reflexivity.
  reflexivity.
Qed.

Lemma strip_fenced body : strip (fenced body) = fenced body.
Proof.
  assert (E : fenced body
              = (fence +:+ "json" +:+ nl +:+ body +:+ nl
                 +:+ String backtick (String backtick EmptyString))
                +:+ String backtick EmptyString).
  { unfold fenced. rewrite !append_assoc. reflexivity. }
  unfold strip. rewrite (lstrip_fixed (fenced body)) by reflexivity.
  rewrite E. apply rstrip_app_solid. reflexivity.
Qed.

(** X25. Reading a fenced answer.  An answer wrapped in a [json] code
    fence is read as the text inside the fence, stripped: when that text
    does not open a fence itself, the fenced answer and the bare answer
    give the same result, whatever the parser does with the text.  A list
    content is read as the concatenation of the [text] strings of its
    objects, whatever their [type], and items without a [text] string are
    passed over; any other content raises "Unsupported content format"
    without a call to the parser, and a parsed value that is not an
    object raises "Model output is not an object". *)
Theorem coerce_reads_fenced_json (json_loads : string → Exc json) :
  (∀ body,
     startswith fence (strip body) = false →
     _coerce_openrouter_json json_loads (JStr (fenced body))
     = _coerce_openrouter_json json_loads (JStr body))
  ∧ (∀ items,
       _coerce_openrouter_json json_loads (JList items)
       = _coerce_openrouter_json json_loads
           (JStr (join EmptyString
                    (omap (λ item,
                             match item with
                             | JDict d =>
                                 match dict_get_none d "text" with
                                 | JStr text => Some text
                                 | _ => None
                                 end
                             | _ => None
                             end) items))))
  ∧ (∀ content,
       is_str content = false → (∀ items, content ≠ JList items) →
       _coerce_openrouter_json json_loads content
       = RaiseError "Unsupported content format")
  ∧ (∀ content parsed,
       _coerce_openrouter_json json_loads content = Return parsed →
       ∃ text, json_loads text = Return (JDict parsed)).
Proof.
  split; [|split; [|split]].
  - intros body Hb. unfold _coerce_openrouter_json, coerce_text.
    rewrite strip_fenced, unfence_fenced.
    unfold unfence. rewrite Hb. reflexivity.
  - intros items. unfold _coerce_openrouter_json, coerce_text.
    assert (Hparts : omap content_part items
                     = omap (λ item,
                             match item with
                             | JDict d =>
                                 match dict_get_none d "text" with
                                 | JStr text => Some text
                                 | _ => None
                                 end
                             | _ => None
                             end) items).
    { apply omap_pointwise. intros item. apply content_part_text. }
    rewrite Hparts. reflexivity.
  - intros content Hs Hl. unfold _coerce_openrouter_json, coerce_text.
    destruct content as [| | | |s|items|]; try reflexivity; [discriminate|].
    exfalso. exact (Hl items eq_refl).
  - intros content parsed. unfold _coerce_openrouter_json.
    destruct (coerce_text content) as [text|msg]; [|discriminate].
    destruct (json_loads (unfence text)) as [[| | | | | |d]|msg] eqn:E; try discriminate.
    intros [= <-]. eauto.
Qed.

Lemma coerce_reads_fenced_json_witness :
  _coerce_openrouter_json loads_empty_object (JStr (fenced "{}"))
  = _coerce_openrouter_json loads_empty_object (JStr "{}").
Proof.
  apply (proj1 (coerce_reads_fenced_json loads_empty_object) "{}").
  reflexivity.
Defined.


(* ===================================================================== *)
(** ** The diagnostic of a request *)
(* ===================================================================== *)

Lemma run_bind_raise {A B} (m : Run A) (k : A → Run B) log msg log' :
  m log = (RaiseError msg, log') → (m ≫= k) log = (RaiseError msg, log').
Proof. intros Hm. unfold mbind, Run_bind. rewrite Hm. reflexivity. Qed.

Lemma synthesize_diag env remote extracted meta log out log' :
  synthesize_and_return env remote extracted meta log = (Return out, log') →
  ∃ rest, out.2 = meta +:+ rest.
Proof.
  unfold synthesize_and_return.
  destruct (run_summary_recommendation_synthesis env remote extracted log)
    as [[[result sm]|msg] l] eqn:Hs.
  - rewrite (run_bind_return _ _ _ _ _ Hs).
    destruct (meta_truthy sm); intros [= <- _]; simpl.
    + eauto.
    + exists EmptyString. rewrite append_empty_r. reflexivity.
  - rewrite (run_bind_raise _ _ _ _ _ Hs). discriminate.
Qed.

Lemma batch_loop_diag env remote starts : ∀ images total chunks hits log out log',
  batch_loop env remote starts images total chunks hits log = (Return out, log') →
  ∃ rest, out.2 = provider_label env +:+ rest.
Proof.
  induction starts as [|start rest IH]; intros images total chunks hits log out log' H.
  - destruct (_merge_normalized_outputs chunks) as [merged|msg] eqn:Hm.
    + rewrite (batch_loop_done _ _ _ _ _ _ _ merged Hm) in H.
      apply synthesize_diag in H as [tail ->]. rewrite append_assoc. eauto.
    + simpl in H. unfold lift_exc, mbind, Run_bind in H. rewrite Hm in H. discriminate.
  - destruct (run_with_completeness_retry env remote
                (slice images start (batch_stop env start total))
                (batch_pages env start total) total log)
      as [[[[c|] m]|msg] log1] eqn:Hrun.
    + rewrite (batch_loop_step _ _ _ _ _ _ _ _ _ _ _ _ Hrun) in H. eapply IH; eauto.
    + simpl in H. rewrite (run_bind_return _ _ _ _ _ Hrun) in H.
      injection H as <- _. simpl. eauto.
    + simpl in H. rewrite (run_bind_raise _ _ _ _ _ Hrun) in H. discriminate.
Qed.

Lemma maybe_generate_diag env remote payload log out log' :
  maybe_generate_with_openrouter env remote payload log = (Return out, log') →
  ∃ rest, out.2 = provider_label env +:+ rest.
Proof.
  unfold maybe_generate_with_openrouter.
  destruct (negb (str_truthy (_active_provider_api_key env))).
  { intros [= <- _]. simpl. eauto. }
  cbv zeta. fold (request_images payload).
  match goal with |- context [if ?c then _ else _] => destruct c end.
  { intros [= <- _]. simpl. eauto. }
  destruct (negb (AI_OCR_ONLY_MODE env)
            && (OPENROUTER_PAGE_BATCH_SIZE env <? Z.of_nat (length (request_images payload)))).
  - apply batch_loop_diag.
  - destruct (run_with_completeness_retry env remote (request_images payload)
                (seq 1 (length (request_images payload)))
                (length (request_images payload)) log)
      as [[[[c|] m]|msg] log1] eqn:Hrun.
    + rewrite (run_bind_return _ _ _ _ _ Hrun). intros H.
      apply synthesize_diag in H as [tail ->]. rewrite append_assoc. eauto.
    + rewrite (run_bind_return _ _ _ _ _ Hrun). intros [= <- _]. simpl. eauto.
    + rewrite (run_bind_raise _ _ _ _ _ Hrun). discriminate.
Qed.

Lemma provider_label_filled env : provider_label env ≠ EmptyString.
Proof. unfold provider_label. destruct (is_qwen env); discriminate. Qed.

(* ===================================================================== *)
(** ** The HTTP handler *)
(* ===================================================================== *)

Lemma prefix_split (p s : string) :
  String.prefix p s = true → ∃ rest, s = p +:+ rest.
Proof.
  revert s. induction p as [|a p IH]; intros s H.
  - exists s. reflexivity.
  - destruct s as [|b s]; [discriminate|]. simpl in H.
    destruct (Ascii.ascii_dec a b) as [->|]; [|discriminate].
    destruct (IH s H) as [rest ->]. exists rest. reflexivity.
Qed.

Lemma str_drop_append (p rest : string) : str_drop (String.length p) (p +:+ rest) = rest.
Proof. induction p as [|a p IH]; [destruct rest; reflexivity | exact IH]. Qed.

Lemma replace_first_head old new rest :
  replace_first old new (old +:+ rest) = new +:+ rest.
Proof.
  assert (Hunfold : ∀ s, replace_first old new s
            = if startswith old s then new +:+ str_drop (String.length old) s
              else match s with
                   | EmptyString => EmptyString
                   | String a s' => String a (replace_first old new s')
                   end) by (intros [|a s]; reflexivity).
  rewrite Hunfold. unfold startswith. rewrite prefix_append, str_drop_append. reflexivity.
Qed.

Lemma append_inj_l (p a b : string) : p +:+ a = p +:+ b → a = b.
Proof.
  induction p as [|c p IH]; [rewrite !append_nil; exact id|].
  rewrite !append_cons. intros [= H]. exact (IH H).
Qed.

Lemma check_auth_spec senv req :
  (check_auth senv req = None ↔ authorized senv req)
  ∧ (REQUIRE_AUTH senv = true →
     (∀ rest, req_authorization req ≠ Some ("Bearer " +:+ rest)) →
     check_auth senv req
     = Some (json_response 401 (error_payload "unauthorized" "Missing bearer token" false)))
  ∧ (REQUIRE_AUTH senv = true →
     ∀ rest, req_authorization req = Some ("Bearer " +:+ rest) →
             strip rest ≠ AUTH_TOKEN senv →
             check_auth senv req
             = Some (json_response 403 (error_payload "forbidden" "Token is invalid" false))).
Proof.
  unfold check_auth, authorized.
  destruct (REQUIRE_AUTH senv).
  2:{ split; [split; [discriminate | reflexivity]|]. split; discriminate. }
  cbv zeta.
  destruct (startswith "Bearer " (default EmptyString (req_authorization req))) eqn:Ep.
  - apply prefix_split in Ep as [rest Hrest].
    assert (Hh : req_authorization req = Some ("Bearer " +:+ rest)).
    { destruct (req_authorization req) as [h|]; simpl in Hrest; [congruence|].
      discriminate. }
    rewrite Hh. simpl default. rewrite replace_first_head, append_nil. cbn [negb].
    split; [|split].
    + case_bool_decide as Ht; cbn [negb].
      * split; [|reflexivity]. intros _ _. exists rest. split; [reflexivity | exact Ht].
      * split; [discriminate|]. intros Ha. exfalso.
        destruct (Ha eq_refl) as (rest' & [= Hr] & Ht').
        assert (rest' = rest) as ->.
        { apply append_inj_l in Hr. congruence. }
        contradiction.
    + intros _ Hno. exfalso. exact (Hno rest eq_refl).
    + intros _ rest' [= Hr] Ht'.
      assert (rest' = rest) as ->.
      { apply append_inj_l in Hr. congruence. }
      rewrite bool_decide_eq_false_2 by exact Ht'. reflexivity.
  - cbn [negb]. split; [|split].
    + split; [discriminate|]. intros Ha. exfalso.
      destruct (Ha eq_refl) as (rest & Hh & _). rewrite Hh in Ep. simpl default in Ep.
      unfold startswith in Ep. rewrite prefix_append in Ep. discriminate.
    + reflexivity.
    + intros _ rest Hh _. exfalso. rewrite Hh in Ep. simpl default in Ep.
      unfold startswith in Ep. rewrite prefix_append in Ep. discriminate.
Qed.

(** X26. The token check of [POST /v1/analyze-report].  With
    authentication required, a request whose [Authorization] header is
    missing or does not start with "Bearer " is answered 401, and one whose
    header is "Bearer " followed by a text that, stripped, is not the
    configured token is answered 403; in both cases whatever the body is,
    and no model is called.  The header is stripped and the configured
    token is not: when the configured token has leading or trailing
    whitespace no request is let through. *)
Theorem post_auth_gate (env : Env) (senv : ServerEnv) (remote : Oracle) (req : Request)
    (log : CallLog) :
  req_path req = "/v1/analyze-report" →
  REQUIRE_AUTH senv = true →
  ((∀ rest, req_authorization req ≠ Some ("Bearer " +:+ rest)) →
   do_POST env senv remote req log
   = (Return (json_response 401
                (error_payload "unauthorized" "Missing bearer token" false)), log))
  ∧ (∀ rest, req_authorization req = Some ("Bearer " +:+ rest) →
             strip rest ≠ AUTH_TOKEN senv →
             do_POST env senv remote req log
             = (Return (json_response 403
                          (error_payload "forbidden" "Token is invalid" false)), log))
  ∧ (strip (AUTH_TOKEN senv) ≠ AUTH_TOKEN senv →
     ∃ status message,
       (status = 401 ∨ status = 403)
       ∧ ∃ code, do_POST env senv remote req log
                 = (Return (json_response status (error_payload code message false)), log)).
Proof.
  intros Hpath Hauth.
  destruct (check_auth_spec senv req) as (Hnone & H401 & H403).
  assert (Hpost : ∀ response, check_auth senv req = Some response →
                    do_POST env senv remote req log = (Return response, log)).
  { intros response Hc. unfold do_POST. rewrite Hpath, Hc. reflexivity. }
  split; [|split].
  - intros Hno. apply Hpost, H401; assumption.
  - intros rest Hh Ht. apply Hpost. eapply H403; eauto.
  - intros Htoken.
    destruct (req_authorization req) as [h|] eqn:Eh.
    + destruct (startswith "Bearer " h) eqn:Ep.
      * apply prefix_split in Ep as [rest ->].
        exists 403, "Token is invalid". split; [right; reflexivity|].
        exists "forbidden". apply Hpost. apply (H403 Hauth rest eq_refl).
        intros Ht. apply Htoken. rewrite <- Ht. apply strip_idem.
      * exists 401, "Missing bearer token". split; [left; reflexivity|].
        exists "unauthorized". apply Hpost, H401; [exact Hauth|].
        intros rest [= ->]. unfold startswith in Ep. rewrite prefix_append in Ep.
        discriminate.
    + exists 401, "Missing bearer token". split; [left; reflexivity|].
      exists "unauthorized". apply Hpost, H401; [exact Hauth|]. discriminate.
Qed.

Lemma post_auth_gate_witness :
  do_POST default_env dev_server remote_down
    (analyze_request (Some "Bearer  wrong ") (Some (JDict five_images))) []
  = (Return (json_response 403 (error_payload "forbidden" "Token is invalid" false)), []).
Proof.
  apply (proj1 (proj2 (post_auth_gate default_env dev_server remote_down
                         (analyze_request (Some "Bearer  wrong ")
                            (Some (JDict five_images))) [] eq_refl eq_refl))
           " wrong ").
  - reflexivity.
  - vm_compute. discriminate.
Defined.

(** X27. What an authorized [POST /v1/analyze-report] answers.  A body
    that cannot be read is answered 400 "invalid_json"; an object whose
    [images] is missing, not a list or empty is answered 400
    "invalid_request"; in both cases no model is called.  Otherwise the
    answer is the outcome of [maybe_generate_with_openrouter] on the body:
    200 with the result when there is one, else 502 "ai_provider_failed",
    retryable, with the diagnostic of the pipeline as message; the
    diagnostic is never empty, so the generic message "AI provider failed"
    is never sent.  A body that is valid JSON but not an object is not
    answered: [payload.get] raises. *)
Theorem post_outcomes (env : Env) (senv : ServerEnv) (remote : Oracle) (req : Request)
    (log : CallLog) :
  req_path req = "/v1/analyze-report" →
  authorized senv req →
  match req_payload req with
  | None =>
      do_POST env senv remote req log
      = (Return (json_response 400
                   (error_payload "invalid_json" "Request JSON is invalid" false)), log)
  | Some (JDict payload) =>
      match request_images payload with
      | [] =>
          do_POST env senv remote req log
          = (Return (json_response 400
                       (error_payload "invalid_request"
                          "images must be a non-empty array" false)), log)
      | _ =>
          ∃ result diagnostic calls,
            maybe_generate_with_openrouter env remote payload log
            = (Return (result, diagnostic), log ++ calls)
            ∧ diagnostic ≠ EmptyString
            ∧ do_POST env senv remote req log
              = (Return (match result with
                         | Some r => json_response 200 (result_to_dict r)
                         | None =>
                             json_response 502
                               (error_payload "ai_provider_failed" diagnostic true)
                         end), log ++ calls)
      end
  | Some other =>
      do_POST env senv remote req log
      = (RaiseError ("'" +:+ type_name other +:+ "' object has no attribute 'get'"), log)
  end.
Proof.
  intros Hpath Ha.
  destruct (check_auth_spec senv req) as (Hnone & _). apply Hnone in Ha.
  unfold do_POST. rewrite Hpath, Ha. cbn [negb bool_decide].
  rewrite bool_decide_eq_true_2 by reflexivity. cbn [negb].
  destruct (req_payload req) as [[| | | | | |payload]|]; try reflexivity.
  unfold request_images.
  destruct (dict_get_or payload "images" (JList [])) as [| | | | |[|img imgs]|] eqn:Ei;
    try reflexivity.
  destruct (request_answers env remote payload log)
    as ([result diag] & calls & Hrun & _ & _).
  exists result, diag, calls. split; [exact Hrun|].
  destruct (maybe_generate_diag _ _ _ _ _ _ Hrun) as [tail Hd]. simpl in Hd.
  assert (Hfilled : diag ≠ EmptyString).
  { rewrite Hd. apply append_filled_l, provider_label_filled. }
  split; [exact Hfilled|].
  rewrite (run_bind_return _ _ _ _ _ Hrun).
  destruct result as [r|]; [reflexivity|].
  unfold str_or. apply str_truthy_true in Hfilled. rewrite Hfilled. reflexivity.
Qed.

Lemma post_outcomes_witness :
  do_POST default_env dev_server remote_down
    (analyze_request (Some "Bearer dev-token") (Some (JDict [("images", JStr "p1")]))) []
  = (Return (json_response 400
               (error_payload "invalid_request" "images must be a non-empty array" false)),
     []).
Proof.
  apply (post_outcomes default_env dev_server remote_down
           (analyze_request (Some "Bearer dev-token")
              (Some (JDict [("images", JStr "p1")]))) [] eq_refl).
  intros _. exists "dev-token". split; reflexivity.
Defined.

Lemma check_auth_some senv req response :
  check_auth senv req = Some response →
  response = json_response 401 (error_payload "unauthorized" "Missing bearer token" false)
  ∨ response = json_response 403 (error_payload "forbidden" "Token is invalid" false).
Proof.
  unfold check_auth. destruct (REQUIRE_AUTH senv); [|discriminate]. cbv zeta.
  destruct (negb (startswith "Bearer " (default EmptyString (req_authorization req)))).
  - intros [= <-]. left. reflexivity.
  - destruct (negb (bool_decide
                      (strip (replace_first "Bearer " EmptyString
                                (default EmptyString (req_authorization req)))
                       = AUTH_TOKEN senv))); [|discriminate].
    intros [= <-]. right. reflexivity.
Qed.

(** X28. The answers of the server.  Every answer of [do_POST] has one of
    the statuses 200, 400, 401, 403, 404 and 502.  An answer that is not
    200 is an error object with a code, a message and [retryable], which
    is true for 502 only.  A model is called only for the answers 200 and
    502: every other answer leaves the call log as it was.  A 200 carries
    a result of the pipeline, with keys apart and every field of every
    entry stripped and filled.  Any other path is answered 404, and [GET]
    answers 200 on [/health] only. *)
Theorem handler_responses (env : Env) (senv : ServerEnv) (remote : Oracle)
    (req : Request) (log log' : CallLog) (response : Response) :
  do_POST env senv remote req log = (Return response, log') →
  response.1 ∈ [200; 400; 401; 403; 404; 502]
  ∧ (response.1 ≠ 200 →
     ∃ code message,
       response.2 = error_payload code message (bool_decide (response.1 = 502)))
  ∧ (response.1 ≠ 200 → response.1 ≠ 502 → log' = log)
  ∧ (response.1 = 200 → ∃ r, response.2 = result_to_dict r ∧ result_canonical r)
  ∧ (req_path req ≠ "/v1/analyze-report" → response.1 = 404)
  ∧ (∀ path, (do_GET path).1 = 200 ↔ path = "/health").
Proof.
  intros Hpost.
  assert (Hget : ∀ path, (do_GET path).1 = 200 ↔ path = "/health").
  { intros path. unfold do_GET. case_bool_decide; simpl; split; try tauto; discriminate. }
  assert (Herr : ∀ status code message,
            status ∈ [400; 401; 403; 404] →
            (req_path req ≠ "/v1/analyze-report" → status = 404) →
            (Return response, log')
            = (Return (json_response status (error_payload code message false)), log) →
            response.1 ∈ [200; 400; 401; 403; 404; 502]
            ∧ (response.1 ≠ 200 →
               ∃ code message,
                 response.2 = error_payload code message (bool_decide (response.1 = 502)))
            ∧ (response.1 ≠ 200 → response.1 ≠ 502 → log' = log)
            ∧ (response.1 = 200 → ∃ r, response.2 = result_to_dict r ∧ result_canonical r)
            ∧ (req_path req ≠ "/v1/analyze-report" → response.1 = 404)
            ∧ (∀ path, (do_GET path).1 = 200 ↔ path = "/health")).
  { intros status code message Hs Hp [= -> ->]. simpl.
    assert (status ≠ 200 ∧ status ≠ 502) as [H200 H502].
    { rewrite !elem_of_cons, elem_of_nil in Hs. lia. }
    split; [rewrite !elem_of_cons in *; tauto|].
    split; [intros _; exists code, message; rewrite bool_decide_eq_false_2 by exact H502;
            reflexivity|].
    split; [reflexivity|]. split; [contradiction|]. split; [exact Hp | exact Hget]. }
  unfold do_POST in Hpost.
  destruct (bool_decide (req_path req = "/v1/analyze-report")) eqn:Epath; cbn [negb] in Hpost.
  2:{ symmetry in Hpost. eapply Herr; [| |exact Hpost].
      - rewrite !elem_of_cons. tauto.
      - reflexivity. }
  apply bool_decide_eq_true_1 in Epath.
  destruct (check_auth senv req) as [r|] eqn:Ec.
  { symmetry in Hpost. destruct (check_auth_some _ _ _ Ec) as [->| ->].
    - eapply Herr; [| |exact Hpost]; [rewrite !elem_of_cons; tauto | contradiction].
    - eapply Herr; [| |exact Hpost]; [rewrite !elem_of_cons; tauto | contradiction]. }
  destruct (req_payload req) as [[| | | | | |payload]|]; try discriminate.
  2:{ symmetry in Hpost.
      eapply Herr; [| |exact Hpost]; [rewrite !elem_of_cons; tauto | contradiction]. }
  destruct (dict_get_or payload "images" (JList [])) as [| | | | |[|img imgs]|];
    try (symmetry in Hpost;
         eapply Herr; [| |exact Hpost]; [rewrite !elem_of_cons; tauto | contradiction]).
  destruct (request_answers env remote payload log)
    as ([result diag] & calls & Hrun & _ & Hcanon).
  rewrite (run_bind_return _ _ _ _ _ Hrun) in Hpost.
  destruct result as [r|]; injection Hpost as <- <-; simpl.
  - split; [rewrite !elem_of_cons; tauto|].
    split; [congruence|]. split; [congruence|].
    split; [intros _; exists r; split; [reflexivity | apply Hcanon; reflexivity]|].
    split; [contradiction | exact Hget].
  - split; [rewrite !elem_of_cons; tauto|].
    split; [intros _; eexists _, _; reflexivity|].
    split; [congruence|]. split; [discriminate|].
    split; [contradiction | exact Hget].
Qed.

Lemma handler_responses_witness :
  (401 : Z) ∈ [200; 400; 401; 403; 404; 502].
Proof.
  exact (proj1 (handler_responses default_env dev_server remote_down
                  (analyze_request None (Some (JDict five_images))) [] []
                  (json_response 401
                     (error_payload "unauthorized" "Missing bearer token" false))
                  eq_refl)).
Defined.


(* ===================================================================== *)
(** ** The completeness retry in the call log *)
(* ===================================================================== *)

(** The first call of an extraction goes to the first model of the chain. *)
Lemma extraction_first_call env remote imgs pages total log first rest :
  model_chain env = first :: rest →
  ∃ out more,
    run_model_chain_for_images env remote imgs pages total log
    = (Return out, log ++ extraction_call imgs pages total first :: more)
    ∧ ∀ n, out.1 = Some n → result_canonical n.
Proof.
  intros Hc. unfold run_model_chain_for_images.
  destruct (chain_first_success remote (extraction_call imgs pages total) 300
              (model_chain env) log)
    as [(errs & Hf)|(pre & model & post & errs & raw & n & Hsplit & Hf & Hr & Hn)].
  - rewrite (run_model_chain_loop_fails _ _ _ _ _ _ [] _ Hf), Hc.
    eexists _, _. split; [reflexivity | discriminate].
  - rewrite Hsplit, (run_model_chain_loop_succeeds _ _ _ _ _ _ [] _ _ _ _ _ Hf Hr Hn).
    rewrite Hc in Hsplit.
    assert (Hcanon : ∀ n0, (Some n, model).1 = Some n0 → result_canonical n0).
    { simpl. intros ? [= <-]. eapply normalize_result_canonical; eauto. }
    destruct pre as [|p pre]; simpl in Hsplit; injection Hsplit as -> _.
    + eexists _, _. split; [reflexivity | exact Hcanon].
    + eexists _, _. split; [reflexivity | exact Hcanon].
Qed.

(** An extraction that returns a result has called a model. *)
Lemma extraction_needs_model env remote imgs pages total log n model log1 :
  run_model_chain_for_images env remote imgs pages total log
  = (Return (Some n, model), log1) →
  ∃ first rest, model_chain env = first :: rest.
Proof.
  unfold run_model_chain_for_images.
  destruct (model_chain env) as [|first rest]; [discriminate | eauto].
Qed.

(** The calls of [reconcile_and_return] are reconciliation calls for the
    whole batch. *)
Lemma reconcile_calls env remote imgs pages total extracted base log :
  ∃ out models,
    reconcile_and_return env remote imgs pages total extracted base log
    = (Return out, log ++ map (reconciliation_call imgs pages total extracted) models).
Proof.
  unfold reconcile_and_return, run_reconciliation_chain_for_images.
  destruct (AI_VISUAL_ONLY_MODE env || negb (OPENROUTER_ENABLE_RECONCILIATION env)).
  { exists (Some extracted, base), []. simpl. rewrite app_nil_r. reflexivity. }
  destruct (chain_first_success remote (reconciliation_call imgs pages total extracted) 300
              (recon_models env) log)
    as [(errs & Hf)|(pre & model & post & errs & raw & n & Hsplit & Hf & Hr & Hn)].
  - rewrite (run_bind_return _ _ _ _ _
               (run_reconciliation_loop_fails _ _ _ _ _ _ _ [] _ Hf)).
    destruct (meta_truthy (joined_errors ([] ++ errs))); eexists _, _; reflexivity.
  - rewrite Hsplit.
    rewrite (run_bind_return _ _ _ _ _
               (run_reconciliation_loop_succeeds _ _ _ _ _ _ _ [] _ _ _ _ _ Hf Hr Hn)).
    exists (if meta_truthy (Some model)
            then (Some n, base +:+ " | reconciliation:" +:+ meta_text (Some model))
            else (Some n, base)), (pre ++ [model]).
    rewrite map_app. simpl map.
    destruct (meta_truthy (Some model)); reflexivity.
Qed.

(** C5. The batch is judged suspiciously incomplete exactly when it holds
    two images or more and the number of biomarkers is below the floor
    times the number of images; with a floor of 2, a batch of 2 images and
    3 biomarkers the test holds.  The test decides what
    [run_with_completeness_retry] does once the extraction of the batch
    has returned a result.  When it holds the single-image retry is made:
    the call that follows the extraction of the batch in the log is the
    extraction of the first image alone, under its own page label, by the
    first model of the chain.  When it does not hold no image is extracted
    again: every call that follows is a reconciliation call for the whole
    batch and the result of its extraction. *)
Theorem completeness_trigger (env : Env) (normalized : ExtractionResult)
    (images_subset : list json) :
  (completeness_retry_triggered env normalized images_subset = true ↔
   (2 ≤ length images_subset)%nat
   ∧ Z.of_nat (length (biomarkers normalized))
     < OPENROUTER_MIN_BIOMARKERS_PER_IMAGE_HINT env * Z.of_nat (length images_subset))
  ∧ (∀ image_count,
       _is_suspiciously_incomplete env normalized image_count = true ↔
       (2 ≤ image_count)%nat
       ∧ Z.of_nat (length (biomarkers normalized))
         < OPENROUTER_MIN_BIOMARKERS_PER_IMAGE_HINT env * Z.of_nat image_count)
  ∧ (OPENROUTER_MIN_BIOMARKERS_PER_IMAGE_HINT env = 2 →
     length images_subset = 2%nat →
     length (biomarkers normalized) = 3%nat →
     completeness_retry_triggered env normalized images_subset = true)
  ∧ (∀ remote page_numbers total_pages log model log1,
       run_model_chain_for_images env remote images_subset page_numbers total_pages log
       = (Return (Some normalized, model), log1) →
       run_with_completeness_retry env remote images_subset page_numbers total_pages log
       = if completeness_retry_triggered env normalized images_subset
         then completeness_retry_loop env remote images_subset 0 images_subset
                page_numbers total_pages normalized model [] [] log1
         else reconcile_and_return env remote images_subset page_numbers total_pages
                normalized model log1)
  ∧ (∀ remote page_numbers total_pages log model log1,
       length page_numbers = length images_subset →
       run_model_chain_for_images env remote images_subset page_numbers total_pages log
       = (Return (Some normalized, model), log1) →
       ((2 ≤ length images_subset)%nat
        ∧ Z.of_nat (length (biomarkers normalized))
          < OPENROUTER_MIN_BIOMARKERS_PER_IMAGE_HINT env * Z.of_nat (length images_subset) →
        ∃ img page first more,
          images_subset !! 0%nat = Some img
          ∧ page_numbers !! 0%nat = Some page
          ∧ head (model_chain env) = Some first
          ∧ (run_with_completeness_retry env remote images_subset page_numbers
               total_pages log).2
            = log1 ++ extraction_call [img] [page] total_pages first :: more)
       ∧ (¬ ((2 ≤ length images_subset)%nat
             ∧ Z.of_nat (length (biomarkers normalized))
               < OPENROUTER_MIN_BIOMARKERS_PER_IMAGE_HINT env
                 * Z.of_nat (length images_subset)) →
          ∃ out models,
            run_with_completeness_retry env remote images_subset page_numbers
              total_pages log
            = (Return out,
               log1 ++ map (reconciliation_call images_subset page_numbers total_pages
                              normalized) models))).
Proof.
  pose proof (completeness_retry_triggered_iff env normalized images_subset) as Hiff.
  assert (Hstep : ∀ remote page_numbers total_pages log model log1,
       run_model_chain_for_images env remote images_subset page_numbers total_pages log
       = (Return (Some normalized, model), log1) →
       run_with_completeness_retry env remote images_subset page_numbers total_pages log
       = if completeness_retry_triggered env normalized images_subset
         then completeness_retry_loop env remote images_subset 0 images_subset
                page_numbers total_pages normalized model [] [] log1
         else reconcile_and_return env remote images_subset page_numbers total_pages
                normalized model log1).
  { intros remote page_numbers total_pages log model log1 Hrun.
    unfold run_with_completeness_retry.
    rewrite (run_bind_return _ _ _ _ _ Hrun).
    destruct (completeness_retry_triggered env normalized images_subset); reflexivity. }
  split; [exact Hiff|]. split; [apply is_suspiciously_incomplete_iff|]. split.
  { intros Hmin Hlen Hbio. apply Hiff. rewrite Hmin, Hlen, Hbio. lia. }
  split; [exact Hstep|].
  intros remote page_numbers total_pages log model log1 Hlen Hrun.
  rewrite (Hstep _ _ _ _ _ _ Hrun). split.
  - intros Hcond. apply Hiff in Hcond as Ht. rewrite Ht.
    destruct (extraction_needs_model _ _ _ _ _ _ _ _ _ Hrun) as (first & crest & Hchain).
    assert (Hk : result_canonical normalized).
    { destruct (chain_answers env remote images_subset images_subset page_numbers
                  total_pages log Hlen (λ _ H, H)) as (a & calls & Hm & _ & Hq).
      rewrite Hrun in Hm. injection Hm as <- _. apply Hq. reflexivity. }
    destruct images_subset as [|img rest]; [simpl in Hcond; lia|].
    destruct page_numbers as [|page prest]; [discriminate|].
    destruct (extraction_first_call env remote [img] [page] total_pages log1 first crest
                Hchain) as ([single single_model] & more1 & Hfirst & Hcanon).
    exists img, page, first. simpl completeness_retry_loop.
    rewrite (run_bind_return _ _ _ _ _ Hfirst).
    destruct single as [single|].
    + destruct (retry_loop_answers env remote (img :: rest) rest 1 (img :: rest)
                  (page :: prest) total_pages normalized model [single] [single_model]
                  (log1 ++ extraction_call [img] [page] total_pages first :: more1))
        as (a & calls & Hm & _ & _).
      * exact Hlen.
      * auto.
      * intros x Hx. right. exact Hx.
      * exact Hk.
      * constructor; [apply Hcanon; reflexivity | constructor].
      * simpl in *. lia.
      * left. discriminate.
      * exists (more1 ++ calls). rewrite Hm, Hchain. simpl.
        rewrite <- app_assoc. auto.
    + destruct (reconcile_calls env remote (img :: rest) (page :: prest) total_pages
                  normalized model
                  (log1 ++ extraction_call [img] [page] total_pages first :: more1))
        as (out & models & Hm).
      eexists. rewrite Hm, Hchain. simpl. rewrite <- app_assoc. auto.
  - intros Hcond.
    destruct (completeness_retry_triggered env normalized images_subset) eqn:Ht.
    { exfalso. apply Hcond, Hiff. reflexivity. }
    apply reconcile_calls.
Qed.

Lemma completeness_trigger_witness :
  completeness_retry_triggered default_env three_biomarkers [JStr "p1"; JStr "p2"] = true
  ∧ ∃ more,
      (run_with_completeness_retry floor2_env remote_three_rows [JStr "p1"; JStr "p2"]
         [1; 2]%nat 2 []).2
      = [extraction_call [JStr "p1"; JStr "p2"] [1; 2]%nat 2 "model-a"]
        ++ extraction_call [JStr "p1"] [1%nat] 2 "model-a" :: more.
Proof.
  split.
  - apply (proj1 (proj2 (proj2
             (completeness_trigger default_env three_biomarkers [JStr "p1"; JStr "p2"])))).
    + reflexivity.
    + reflexivity.
    + reflexivity.
  - destruct (proj1 (proj2 (proj2 (proj2 (proj2
                (completeness_trigger floor2_env three_rows [JStr "p1"; JStr "p2"]))))
                remote_three_rows [1; 2]%nat 2%nat [] "model-a"
                [extraction_call [JStr "p1"; JStr "p2"] [1; 2]%nat 2 "model-a"]
                eq_refl eq_refl))
      as (img & page & first & more & Hi & Hp & Hf & Hlog).
    + split; [simpl; lia | reflexivity].
    + injection Hi as <-. injection Hp as <-. injection Hf as <-.
      exists more. exact Hlog.
Defined.

